(** * Drug-induced persistence simulations: the schedule driver and the
      adaptive-therapy controllers

    A shallow embedding of [utils/odeModelClass.py] (class [ODEModel]:
    construction, [SetParams], [Simulate], [RunCellCountToTumourSizeModel],
    the controllers [Simulate_AT1], [Simulate_AT2] and [Simulate_AT50], and
    the passaging assays [Simulate_LongTermAssay] and
    [Simulate_LongTermAssay_PKill]) and of the six model classes of
    [utils/CustomModel.py] with their right-hand sides [ModelEqns].
    [Trim] (interpolation by scipy), [Plot] and the redirection of the
    standard output are not embedded.

    Conventions of the embedding.
    - A Python float is idealised as an exact rational ([Q]); [==] on floats
      is [Qeq_bool], [<] is [Qlt] decided through [Qle_bool].  [np.inf] is a
      separate constructor where the code uses it.
    - A raised Python exception is the [Raise] result; the exception ends the
      call, as it does in the source (nothing there catches one).
    - [scipy.integrate.solve_ivp] is external: the driver is defined in a
      section over an arbitrary solver.
    - A [while] loop is a fixpoint on a fuel argument; running out of fuel is
      a result of its own ([OutOfFuel]), never confused with a return.
    - Where numpy gives an infinity or a NaN and raises nothing (a float
      division by zero), the result is a constructor of its own
      ([NonFinite], [NotFinite]). *)

From Stdlib Require Import List Sorted String ZArith QArith Qround Bool Lia Lqa.
Import ListNotations.

Set Implicit Arguments.
Open Scope Q_scope.

(* ================================================================== *)
(** * Results of fallible code *)

Inductive pyexn : Type :=
| AttributeError | IndexError | KeyError | NameError | TypeError | ValueError
| ZeroDivisionError
| SolverError.

Inductive result (A : Type) : Type :=
| Ok (a : A)
| Raise (e : pyexn).
Arguments Ok {A} a.
Arguments Raise {A} e.

Definition bind {A B} (r : result A) (k : A -> result B) : result B :=
  match r with
  | Ok a => k a
  | Raise e => Raise e
  end.

Notation "x <- r ;; k" := (bind r (fun x => k))
  (at level 61, r at next level, right associativity).
Notation "' p <- r ;; k" := (bind r (fun p => k))
  (at level 61, p pattern, r at next level, right associativity).

Definition of_option {A} (e : pyexn) (o : option A) : result A :=
  match o with
  | Some a => Ok a
  | None => Raise e
  end.

(* ================================================================== *)
(** * Numbers and sequences as the code uses them *)

Definition Qlt_bool (x y : Q) : bool := negb (Qle_bool y x).

(** [l[-1]]: the last element, [IndexError] on an empty sequence. *)
Definition py_last {A} (l : list A) : result A :=
  match rev l with
  | x :: _ => Ok x
  | [] => Raise IndexError
  end.

(** [l[0]]. *)
Definition py_first {A} (l : list A) : result A :=
  match l with
  | x :: _ => Ok x
  | [] => Raise IndexError
  end.

(** [l[-1] = v] on a non-empty sequence. *)
Definition set_last {A} (l : list A) (v : A) : list A := removelast l ++ [v].

(** [np.arange(start, stop, step)]: [ceil((stop - start) / step)] points
    [start + i * step]; no point when that count is not positive; a zero
    step is refused.  This is [arange] in exact arithmetic.  numpy computes
    the count and the points in float64, where rounding can give one point
    more and can carry a point onto or past [stop]: nothing below is claimed
    of the code that rests on the exact count or on the exact place of a
    point (see [time_grid_of] for the grid with the arithmetic left open). *)
Definition arange_len (start stop step : Q) : nat :=
  Z.to_nat (Qceiling ((stop - start) / step)).

Definition arange_pts (start step : Q) (n : nat) : list Q :=
  map (fun i => start + inject_Z (Z.of_nat i) * step) (seq 0 n).

Definition arange (start stop step : Q) : result (list Q) :=
  if Qeq_bool step 0 then Raise ValueError
  else Ok (arange_pts start step (arange_len start stop step)).

(** [np.sum] of a vector. *)
Definition np_sum (l : list Q) : Q := fold_right Qplus 0 l.

(* ================================================================== *)
(** * Treatment schedules and evaluation grids *)

(** A treatment interval [[start, end, dose]]. *)
Record interval : Type := Interval {
  iv_start : Q;
  iv_end : Q;
  iv_dose : Q
}.

(** The guard of [Simulate]:
    [if tVec[-1] <= interval[1]: tVec[-1] = interval[1]]. *)
Definition force_end (t1 : Q) (tVec : list Q) : result (list Q) :=
  tl <- py_last tVec ;;
  if Qle_bool tl t1 then Ok (set_last tVec t1) else Ok tVec.

(** The evaluation grid of interval number [intervalId] out of [n]
    (lines 72-78 of [Simulate]), in exact arithmetic. *)
Definition time_grid (dt : Q) (intervalId n : nat) (iv : interval)
  : result (list Q) :=
  tVec <- arange (iv_start iv) (iv_end iv) dt ;;
  if Nat.eqb intervalId (n - 1) then
    tVec <- arange (iv_start iv) (iv_end iv + dt) dt ;;
    force_end (iv_end iv) tVec
  else Ok tVec.

(* ================================================================== *)
(** * Python values, keyword arguments and parameter dictionaries *)

(** [np.inf] next to the finite floats ([max_step], [nCycles]). *)
Inductive ext : Type :=
| Finite (q : Q)
| Infinity.

(** [x < e] for a finite [x]. *)
Definition lt_ext (x : Q) (e : ext) : bool :=
  match e with
  | Finite q => Qlt_bool x q
  | Infinity => true
  end.

(** The values a parameter dictionary holds: floats and the ['CASE'] label. *)
Inductive pyval : Type :=
| PNum (q : Q)
| PStr (s : string).

(** A [dict] in insertion order, keys unique. *)
Definition dict : Type := list (string * pyval).

Fixpoint dict_get (k : string) (d : dict) : option pyval :=
  match d with
  | [] => None
  | (k', v) :: rest => if String.eqb k k' then Some v else dict_get k rest
  end.

(** [d[k] = v]: in place when the key exists, appended otherwise. *)
Fixpoint dict_set (k : string) (v : pyval) (d : dict) : dict :=
  match d with
  | [] => [(k, v)]
  | (k', v') :: rest =>
      if String.eqb k k' then (k', v) :: rest else (k', v') :: dict_set k v rest
  end.

(** [{**d, k1: v1, ...}]. *)
Definition dict_merge (d : dict) (new : dict) : dict :=
  fold_left (fun acc kv => dict_set (fst kv) (snd kv) acc) new d.

(** [d.get(k, default)]. *)
Definition dict_get_default (k : string) (default : pyval) (d : dict) : pyval :=
  match dict_get k d with
  | Some v => v
  | None => default
  end.

(** A value used as a number; a string there is a [TypeError]. *)
Definition as_num (v : pyval) : result Q :=
  match v with
  | PNum q => Ok q
  | PStr _ => Raise TypeError
  end.

(** The solver configuration of a model instance: the attributes [dt],
    [absErr], [relErr], [solverMethod], [max_step],
    [numericalStabilisationB] and [suppressOutputB]. *)
Record solver_config : Type := SolverConfig {
  dt : Q;
  absErr : Q;
  relErr : Q;
  solverMethod : string;
  max_step : ext;
  numericalStabilisationB : bool;
  suppressOutputB : bool
}.

(** [**kwargs]: the seven solver keywords, each present or not, and every
    other keyword in [kw_params]. *)
Record kwargs : Type := Kwargs {
  kw_params : dict;
  kw_dt : option Q;
  kw_absErr : option Q;
  kw_relErr : option Q;
  kw_method : option string;
  kw_max_step : option ext;
  kw_numericalStabilisationB : option bool;
  kw_suppressOutputB : option bool
}.

Definition no_kwargs : kwargs :=
  Kwargs [] None None None None None None None.

(** [kwargs.get(key, default)] on a typed keyword. *)
Definition kw_get {A} (o : option A) (default : A) : A :=
  match o with
  | Some a => a
  | None => default
  end.

(* ================================================================== *)
(** * Trajectory records *)

(** A row of a per-interval frame: [Time], [DrugConcentration] and the
    state-variable columns that [zip(self.stateVars, solObj.y)] produced. *)
Record sol_row : Type := SolRow {
  sr_Time : Q;
  sr_DrugConcentration : Q;
  sr_vals : list Q
}.

(** A row of the trajectory record [resultsDf]. *)
Record row : Type := Row {
  Time : Q;
  DrugConcentration : Q;
  vals : list Q;
  TumourSize : Q
}.

Definition DataFrame : Type := list row.

Fixpoint list_Qeqb (l1 l2 : list Q) : bool :=
  match l1, l2 with
  | [], [] => true
  | x :: l1', y :: l2' => Qeq_bool x y && list_Qeqb l1' l2'
  | _, _ => false
  end.

(** Two rows are exact duplicates when they agree in every column. *)
Definition row_eqb (r1 r2 : row) : bool :=
  Qeq_bool (Time r1) (Time r2)
  && Qeq_bool (DrugConcentration r1) (DrugConcentration r2)
  && list_Qeqb (vals r1) (vals r2)
  && Qeq_bool (TumourSize r1) (TumourSize r2).

(** [df.drop_duplicates()]: a row is dropped when an earlier row is an exact
    duplicate of it (the first occurrence is kept). *)
Fixpoint drop_duplicates_from (seen : list row) (df : DataFrame) : DataFrame :=
  match df with
  | [] => []
  | r :: rest =>
      if existsb (row_eqb r) seen then drop_duplicates_from seen rest
      else r :: drop_duplicates_from (r :: seen) rest
  end.

Definition drop_duplicates (df : DataFrame) : DataFrame :=
  drop_duplicates_from [] df.

(** Number of rows of the record at time [t]. *)
Definition rows_at (t : Q) (df : DataFrame) : nat :=
  List.length (filter (fun r => Qeq_bool (Time r) t) df).

(** The result object of [solve_ivp]: [y] is indexed [variable][timeStep]. *)
Record OdeResult : Type := MkOdeResult {
  success : bool;
  message : string;
  y : list (list Q)
}.

(* ================================================================== *)
(** * Model instances and their construction *)

(** The classes of [CustomModel.py] and their abstract base class. *)
Inductive model_class : Type :=
| ODEModelBase
| EinarPersistorModelType3L
| EinarPersistorModelType2L
| EinarPersistorModelType1L
| EinarPersistorModelTypeU
| EinarPersistorModelTypeU1
| EinarPersistorModelTypeU2.

(** An instance.  An attribute that the code may leave unset is an option
    ([None]: reading it is an [AttributeError]); [resultsDf] is [None] where
    the code holds Python's [None]. *)
Record ODEModel : Type := MkODEModel {
  cls : model_class;
  name : option string;
  paramDic : dict;
  stateVars : list string;
  resultsDf : option DataFrame;
  initialStateList : option (list Q);
  config : solver_config;
  successB : bool;
  errMessage : option string;
  solObj : option OdeResult;
  treatmentScheduleList : option (list interval)
}.

Definition set_params (self : ODEModel) (d : dict) (init : option (list Q))
  : ODEModel :=
  MkODEModel (cls self) (name self) d (stateVars self) (resultsDf self)
    init (config self) (successB self) (errMessage self) (solObj self)
    (treatmentScheduleList self).

Definition set_config (self : ODEModel) (c : solver_config) (ok : bool)
  : ODEModel :=
  MkODEModel (cls self) (name self) (paramDic self) (stateVars self)
    (resultsDf self) (initialStateList self) c ok (errMessage self)
    (solObj self) (treatmentScheduleList self).

Definition set_resultsDf (self : ODEModel) (df : option DataFrame) : ODEModel :=
  MkODEModel (cls self) (name self) (paramDic self) (stateVars self) df
    (initialStateList self) (config self) (successB self) (errMessage self)
    (solObj self) (treatmentScheduleList self).

Definition set_class (self : ODEModel) (c : model_class) (nm : string)
    (d : dict) (vars : list string) : ODEModel :=
  MkODEModel c (Some nm) d vars (resultsDf self) (initialStateList self)
    (config self) (successB self) (errMessage self) (solObj self)
    (treatmentScheduleList self).

Section Construction.

(** [float(s)] on a string: the number it denotes, if any. *)
Variable float_of_str : string -> option Q.

Definition py_float (v : pyval) : result Q :=
  match v with
  | PNum q => Ok q
  | PStr s => of_option ValueError (float_of_str s)
  end.

(** [for key in self.paramDic.keys():
       self.paramDic[key] = float(kwargs.get(key, self.paramDic[key]))] *)
Fixpoint SetParams_entries (kw : dict) (d : dict) : result dict :=
  match d with
  | [] => Ok []
  | (key, v) :: rest =>
      x <- py_float (dict_get_default key v kw) ;;
      rest' <- SetParams_entries kw rest ;;
      Ok ((key, PNum x) :: rest')
  end.

(** [[self.paramDic[var + "0"] for var in self.stateVars]] *)
Fixpoint initial_state_of (d : dict) (vars : list string) : result (list Q) :=
  match vars with
  | [] => Ok []
  | var :: rest =>
      v <- of_option KeyError (dict_get (var ++ "0") d) ;;
      x <- as_num v ;;
      xs <- initial_state_of d rest ;;
      Ok (x :: xs)
  end.

Definition SetParams (self : ODEModel) (kw : kwargs) : result ODEModel :=
  if (1 <? List.length (paramDic self))%nat then
    d <- SetParams_entries (kw_params kw) (paramDic self) ;;
    init <- initial_state_of d (stateVars self) ;;
    Ok (set_params self d (Some init))
  else Ok self.

(** [ODEModel.__init__] *)
Definition ODEModel_init (kw : kwargs) : result ODEModel :=
  let self :=
    MkODEModel ODEModelBase None [("DMax"%string, PNum 100)] ["P1"%string]
      None None
      (SolverConfig (kw_get (kw_dt kw) (1 # 1000))
         (kw_get (kw_absErr kw) (1 # 100000000))
         (kw_get (kw_relErr kw) (1 # 1000000))
         (kw_get (kw_method kw) "DOP853"%string)
         (kw_get (kw_max_step kw) Infinity)
         (kw_get (kw_numericalStabilisationB kw) false)
         (kw_get (kw_suppressOutputB kw) false))
      false None None None in
  SetParams self kw.

Definition linear_defaults (label : string) : dict :=
  [ ("CASE", PStr label); ("n", PNum 1500); ("fracRes", PNum (1 # 100));
    ("Cmax", PNum 10); ("k", PNum (4 # 10000)); ("m", PNum (4 # 10000));
    ("u0", PNum (4 # 10000)); ("v0", PNum (4 # 1000));
    ("lambda0", PNum (4 # 100)); ("lambda1", PNum (1 # 1000));
    ("delta_d0", PNum (8 # 100)) ]%string.

Definition uniform_defaults : dict :=
  [ ("CASE", PStr "Uniform"); ("n", PNum 1500); ("fracRes", PNum (1 # 100));
    ("Cmax", PNum 10); ("u0", PNum (4 # 10000)); ("v0", PNum (4 # 1000));
    ("lambda0", PNum (4 # 100)); ("lambda1", PNum (1 # 1000));
    ("delta_d0", PNum (8 # 100)); ("delta_u", PNum (4 # 1000));
    ("delta_v", PNum (3 # 1000)) ]%string.

Definition class_defaults (c : model_class) : dict :=
  match c with
  | ODEModelBase => []
  | EinarPersistorModelType3L => linear_defaults "Linear 3"
  | EinarPersistorModelType2L => linear_defaults "Linear 2"
  | EinarPersistorModelType1L => linear_defaults "Linear 1"
  | EinarPersistorModelTypeU | EinarPersistorModelTypeU1
  | EinarPersistorModelTypeU2 => uniform_defaults
  end.

Definition class_name (c : model_class) : string :=
  match c with
  | ODEModelBase => ""
  | EinarPersistorModelType3L => "EinarPersistorModelType3L"
  | EinarPersistorModelType2L => "EinarPersistorModelType2L"
  | EinarPersistorModelType1L => "EinarPersistorModelType1L"
  | EinarPersistorModelTypeU | EinarPersistorModelTypeU1
  | EinarPersistorModelTypeU2 => "EinarPersistorModelTypeU"
  end.

(** The constructor of class [c]: [super().__init__], then the
    assignments of [self.name], [self.paramDic] and [self.stateVars]. *)
Definition class_init (c : model_class) (kw : kwargs) : result ODEModel :=
  self <- ODEModel_init kw ;;
  match c with
  | ODEModelBase => Ok self
  | _ =>
      Ok (set_class self c (class_name c)
            (dict_merge (paramDic self) (class_defaults c))
            ["S"; "R"]%string)
  end.

End Construction.

(* ================================================================== *)
(** * The schedule driver: [ODEModel.Simulate] *)

(** One call of the external solver, with the arguments it was given and
    the object it returned. *)
Record solver_call : Type := SolverCall {
  c_interval : interval;
  c_fun : model_class * dict;
  c_y0 : list Q;
  c_t_span : Q * Q;
  c_t_eval : list Q;
  c_method : string;
  c_atol : Q;
  c_rtol : Q;
  c_max_step : ext;
  c_result : OdeResult
}.

(** The local variables of the interval loop of [Simulate] together with the
    attributes the loop writes ([self.errMessage], [self.solObj]); [calls]
    records the solver calls made so far, oldest first. *)
Record loop_state : Type := LoopState {
  currStateVec : list Q;
  resultsDFList : list (list sol_row);
  encounteredProblemB : bool;
  tVec : option (list Q);
  ls_errMessage : option string;
  ls_solObj : option OdeResult;
  calls : list solver_call
}.

(** [np.any(y < 0)] *)
Definition any_negative (ys : list (list Q)) : bool :=
  existsb (existsb (fun v => Qlt_bool v 0)) ys.

(** [y[y < 0] = 0] *)
Definition clamp (ys : list (list Q)) : list (list Q) :=
  map (map (fun v => if Qlt_bool v 0 then 0 else v)) ys.

(** The shape [[len(y0), len(t_eval)]] that the solver's interface promises. *)
Definition well_shaped (ys : list (list Q)) (n_vars n_times : nat) : bool :=
  Nat.eqb (List.length ys) n_vars
  && forallb (fun r => Nat.eqb (List.length r) n_times) ys.

Definition negative_message : string :=
  "Negative values encountered in the solution. Make the time step smaller or consider using a stiff solver.".

(** Lines 94-105: classification of the solver's answer.  The result is the
    new [encounteredProblemB], the new [self.errMessage] and the solver
    object after the clamping. *)
Definition check_solution (stab : bool) (problem : bool) (sol : OdeResult)
  : bool * string * OdeResult :=
  if negb (success sol) then (true, message sol, sol)
  else if any_negative (y sol) then
    if stab then
      (problem,
       (negative_message ++ "... Applying numerical stabilisation.")%string,
       MkOdeResult (success sol) (message sol) (clamp (y sol)))
    else (true, negative_message, sol)
  else (problem, ""%string, sol).

(** Rows of [pd.DataFrame({"Time": tVec, "DrugConcentration": drug,
    **dict(zip(stateVars, cols))})]. *)
Fixpoint frame_rows (grid drug : list Q) (cols : list (list Q))
  : list sol_row :=
  match grid, drug with
  | t :: grid', d :: drug' =>
      SolRow t d (map (hd 0) cols) :: frame_rows grid' drug' (map (@tl Q) cols)
  | _, _ => []
  end.

Definition mk_frame (vars : list string) (grid : list Q) (ys : list (list Q))
  : result (list sol_row) :=
  drug <- py_last ys ;;
  let cols := firstn (List.length vars) ys in
  if forallb (fun c => Nat.eqb (List.length c) (List.length grid)) (drug :: cols)
  then Ok (frame_rows grid drug cols)
  else Raise ValueError.

(** [y[:, -1]] *)
Fixpoint column_last (ys : list (list Q)) : result (list Q) :=
  match ys with
  | [] => Ok []
  | r :: rest =>
      x <- py_last r ;;
      xs <- column_last rest ;;
      Ok (x :: xs)
  end.

(** The frame of lines 124-125: [np.zeros_like(tVec)] is zipped with the
    state variables, which gives one scalar zero column for each state
    variable that the zipped vector has an entry for. *)
Definition zero_frame (vars : list string) (grid : list Q) : list sol_row :=
  map (fun t => SolRow t 0
                  (repeat 0 (Nat.min (List.length vars) (List.length grid))))
      grid.

(** [enumerate(l)] *)
Definition enumerate {A} (l : list A) : list (nat * A) :=
  combine (seq 0 (List.length l)) l.

Fixpoint add_TumourSize (frame : list sol_row) (sizes : list Q) : DataFrame :=
  match frame, sizes with
  | r :: frame', s :: sizes' =>
      Row (sr_Time r) (sr_DrugConcentration r) (sr_vals r) s
      :: add_TumourSize frame' sizes'
  | _, _ => []
  end.

(** Lines 52-60: the keywords of the call are written to the instance. *)
Definition configure (self : ODEModel) (kw : kwargs) : ODEModel :=
  let c := config self in
  set_config self
    (SolverConfig (kw_get (kw_dt kw) (dt c))
       (kw_get (kw_absErr kw) (absErr c))
       (kw_get (kw_relErr kw) (relErr c))
       (kw_get (kw_method kw) (solverMethod c))
       (kw_get (kw_max_step kw) (max_step c))
       (kw_get (kw_numericalStabilisationB kw) (numericalStabilisationB c))
       (kw_get (kw_suppressOutputB kw) (suppressOutputB c)))
    false.

(** The bound method [self.ModelEqns]: the base class defines none. *)
Definition bound_ModelEqns (self : ODEModel) : result (model_class * dict) :=
  match cls self with
  | ODEModelBase => Raise AttributeError
  | c => Ok (c, paramDic self)
  end.

(** Lines 64-68: the state the integration starts from and the record the
    new rows will be appended to. *)
Definition start_state (self : ODEModel) (sched : list interval)
  : result (list Q * option DataFrame) :=
  let fresh :=
    init <- of_option AttributeError (initialStateList self) ;;
    Ok (init ++ [0], None) in
  match resultsDf self with
  | None => fresh
  | Some df =>
      iv <- py_first sched ;;
      if Qeq_bool (iv_start iv) 0 then fresh
      else
        r <- py_last df ;;
        if (List.length (vals r) <? List.length (stateVars self))%nat
        then Raise KeyError
        else Ok (firstn (List.length (stateVars self)) (vals r)
                   ++ [DrugConcentration r], Some df)
  end.

(** [RunCellCountToTumourSizeModel] *)
Definition RunCellCountToTumourSizeModel (self : ODEModel)
    (popModelSolDf : list sol_row) : result (list Q) :=
  let theta := dict_get_default "scaleFactor" (PNum 1) (paramDic self) in
  if forallb (fun r => Nat.eqb (List.length (sr_vals r))
                         (List.length (stateVars self))) popModelSolDf
  then
    theta <- as_num theta ;;
    Ok (map (fun r => theta * np_sum (sr_vals r)) popModelSolDf)
  else Raise KeyError.

Section Driver.

(** [scipy.integrate.solve_ivp(fun, y0, t_span, t_eval, method, atol, rtol,
    max_step)].  [fun] is the bound method [self.ModelEqns], which the
    class and the parameter dictionary of [self] determine. *)
Variable solve_ivp :
  model_class * dict -> list Q -> Q * Q -> list Q ->
  string -> Q -> Q -> ext -> result OdeResult.

(** Lines 72-111: the body of the interval loop up to the [break] test.
    The solver's interface gives a converged solution the shape
    [[len(y0), len(t_eval)]]; an answer of another shape is outside the
    interface and ends the call ([SolverError]).  The two branches on
    [suppressOutputB] make the same solver call, and printing the message is
    output only: both are left out. *)
Definition interval_body (self : ODEModel) (n intervalId : nat)
    (iv : interval) (st : loop_state) : result loop_state :=
  let c := config self in
  grid <- time_grid (dt c) intervalId n iv ;;
  y0 <- match currStateVec st with
        | [] => Raise IndexError
        | v => Ok (set_last v (iv_dose iv))
        end ;;
  f <- bound_ModelEqns self ;;
  t0 <- py_first grid ;;
  tl <- py_last grid ;;
  sol <- solve_ivp f y0 (t0, tl + dt c) grid
           (solverMethod c) (absErr c) (relErr c) (max_step c) ;;
  if success sol
     && negb (well_shaped (y sol) (List.length y0) (List.length grid))
  then Raise SolverError
  else
    let '(problem, msg, sol') :=
      check_solution (numericalStabilisationB c) (encounteredProblemB st) sol in
    Ok (LoopState y0 (resultsDFList st) problem (Some grid) (Some msg)
          (Some sol')
          (calls st ++ [SolverCall iv f y0 (t0, tl + dt c) grid
                          (solverMethod c) (absErr c) (relErr c) (max_step c)
                          sol])).

(** Lines 115-118: the frame of the interval is kept and the state is
    carried to the next interval. *)
Definition save_results (self : ODEModel) (st : loop_state)
  : result loop_state :=
  grid <- of_option NameError (tVec st) ;;
  sol <- of_option NameError (ls_solObj st) ;;
  frame <- mk_frame (stateVars self) grid (y sol) ;;
  next <- column_last (y sol) ;;
  Ok (LoopState next (resultsDFList st ++ [frame]) (encounteredProblemB st)
        (tVec st) (ls_errMessage st) (ls_solObj st) (calls st)).

(** The [for] loop with its [break]. *)
Fixpoint run_intervals (self : ODEModel) (n : nat)
    (ivs : list (nat * interval)) (st : loop_state) : result loop_state :=
  match ivs with
  | [] => Ok st
  | (intervalId, iv) :: rest =>
      st1 <- interval_body self n intervalId iv st ;;
      if encounteredProblemB st1 then Ok st1
      else
        st2 <- save_results self st1 ;;
        run_intervals self n rest st2
  end.

(** Lines 121-128: the block of new rows, with its [TumourSize] column. *)
Definition new_block (self : ODEModel) (st : loop_state) : result DataFrame :=
  frame <- (if (0 <? List.length (resultsDFList st))%nat
            then Ok (List.concat (resultsDFList st))
            else
              grid <- of_option NameError (tVec st) ;;
              Ok (zero_frame (stateVars self) grid)) ;;
  sizes <- RunCellCountToTumourSizeModel self frame ;;
  Ok (add_TumourSize frame sizes).

(** [Simulate], with the solver calls it made. *)
Definition Simulate_trace (self : ODEModel)
    (treatmentScheduleList : list interval) (kw : kwargs)
  : result (ODEModel * list solver_call) :=
  let self := configure self kw in
  '(start, old) <- start_state self treatmentScheduleList ;;
  st <- run_intervals self (List.length treatmentScheduleList)
          (enumerate treatmentScheduleList)
          (LoopState start [] false None (errMessage self) (solObj self) []) ;;
  block <- new_block self st ;;
  let df := match old with
            | Some prev => prev ++ block
            | None => block
            end in
  Ok (MkODEModel (cls self) (name self) (paramDic self) (stateVars self)
        (Some df) (initialStateList self) (config self)
        (negb (encounteredProblemB st)) (ls_errMessage st) (ls_solObj st)
        (Some treatmentScheduleList),
      calls st).

Definition Simulate (self : ODEModel)
    (treatmentScheduleList : list interval) (kw : kwargs) : result ODEModel :=
  '(self', _) <- Simulate_trace self treatmentScheduleList kw ;;
  Ok self'.

End Driver.

(* ================================================================== *)
(** * The adaptive-therapy controllers *)

(** How a [while] loop of a controller ends. *)
Inductive outcome (A : Type) : Type :=
| Finished (a : A)
| Aborted (e : pyexn)
| OutOfFuel.
Arguments Finished {A} a.
Arguments Aborted {A} e.
Arguments OutOfFuel {A}.

(** The builtins [max(a, b)] and [min(a, b)]: the first argument wins a tie. *)
Definition py_max (a b : Q) : Q := if Qlt_bool a b then b else a.
Definition py_min (a b : Q) : Q := if Qlt_bool b a then b else a.

(** [self.resultsDf.TumourSize.iat[-1]] *)
Definition last_TumourSize (self : ODEModel) : result Q :=
  df <- of_option AttributeError (resultsDf self) ;;
  r <- py_last df ;;
  Ok (TumourSize r).

(** [self.paramDic['DMax']] *)
Definition DMax (self : ODEModel) : result Q :=
  v <- of_option KeyError (dict_get "DMax" (paramDic self)) ;;
  as_num v.

(** [self.paramDic.get('scaleFactor', 1) * np.sum(self.initialStateList)] *)
Definition initial_size (self : ODEModel) : result Q :=
  init <- of_option AttributeError (initialStateList self) ;;
  theta <- as_num (dict_get_default "scaleFactor" (PNum 1) (paramDic self)) ;;
  Ok (theta * np_sum init).

(** [self.resultsDf.drop_duplicates(inplace=True)] *)
Definition clean_up (self : ODEModel) : result ODEModel :=
  df <- of_option AttributeError (resultsDf self) ;;
  Ok (set_resultsDf self (Some (drop_duplicates df))).

(** [[x + intervalLength for x in currInterval]] *)
Definition shift (currInterval : Q * Q) (intervalLength : Q) : Q * Q :=
  (fst currInterval + intervalLength, snd currInterval + intervalLength).

(** [t_span if t_span is not None else (0, t_end)] *)
Definition span_or (t_span : option (Q * Q)) (t_end : Q) : Q * Q :=
  match t_span with
  | Some s => s
  | None => (0, t_end)
  end.

(** The test of the three [while] loops. *)
Definition continue (currInterval : Q * Q) (t_end intervalLength : Q)
    (currCycleId : nat) (nCycles : ext) : bool :=
  Qle_bool (snd currInterval) (t_end + intervalLength)
  && lt_ext (inject_Z (Z.of_nat currCycleId)) nCycles.

Module AT1.

Record args : Type := Args {
  atThreshold : Q;
  doseAdjustFac : Q;
  D0 : option Q;
  v_min : Q;
  intervalLength : Q;
  mode : string;
  t_end : Q;
  nCycles : ext;
  t_span : option (Q * Q);
  solver_kws : kwargs
}.

(** The defaults of the signature. *)
Definition defaults : args :=
  Args (2 # 10) (1 # 2) None 0 1 "original" 1000 Infinity None no_kwargs.

Record locals : Type := Locals {
  currInterval : Q * Q;
  refSize : Q;
  dose : Q;
  lastNonZeroDose : Q;
  currCycleId : nat
}.

(** Lines 145-150. *)
Definition setup (self : ODEModel) (a : args) : result locals :=
  let sp := span_or (t_span a) (t_end a) in
  r <- initial_size self ;;
  d <- match D0 a with
       | None => DMax self
       | Some d0 => Ok d0
       end ;;
  Ok (Locals (fst sp, fst sp + intervalLength a) r d d 0).

(** Line 158: [dose = lastNonZeroDose if dose == 0 else dose]. *)
Definition restore (loc : locals) : Q :=
  if Qeq_bool (dose loc) 0 then lastNonZeroDose loc else dose loc.

(** Lines 158-177: the update of the locals from the observed size [T]. *)
Definition decide (self : ODEModel) (a : args) (T : Q) (loc : locals)
  : result locals :=
  let d := restore loc in
  '(d', lastNonZero) <-
    (if Qlt_bool T (v_min a) then Ok (0, d)
     else if Qlt_bool T ((1 - atThreshold a) * refSize loc) then
       if String.eqb (mode a) "original"
       then Ok (py_max ((1 - doseAdjustFac a) * d) 0, lastNonZeroDose loc)
       else if Qeq_bool (doseAdjustFac a) 0 then Raise ZeroDivisionError
       else Ok (py_max (1 / doseAdjustFac a * d) 0, lastNonZeroDose loc)
     else if Qlt_bool ((1 + atThreshold a) * refSize loc) T then
       dmax <- DMax self ;;
       if String.eqb (mode a) "original"
       then Ok (py_min ((1 + doseAdjustFac a) * d) dmax, lastNonZeroDose loc)
       else Ok (py_min (doseAdjustFac a * d) dmax, lastNonZeroDose loc)
     else Ok (d, lastNonZeroDose loc)) ;;
  Ok (Locals (shift (currInterval loc) (intervalLength a)) T d' lastNonZero
        (currCycleId loc)).

Section Loop.
Variable solve_ivp :
  model_class * dict -> list Q -> Q * Q -> list Q ->
  string -> Q -> Q -> ext -> result OdeResult.

(** One pass through the body of the [while] loop (lines 154-177). *)
Definition body (a : args) (self : ODEModel) (loc : locals)
  : result (ODEModel * locals) :=
  self' <- Simulate solve_ivp self
             [Interval (fst (currInterval loc)) (snd (currInterval loc))
                (dose loc)]
             (solver_kws a) ;;
  T <- last_TumourSize self' ;;
  loc' <- decide self' a T loc ;;
  Ok (self', loc').

(** The [while] loop; [applied] lists the intervals simulated so far. *)
Fixpoint loop (fuel : nat) (a : args) (self : ODEModel) (loc : locals)
    (applied : list interval)
  : outcome (ODEModel * locals * list interval) :=
  if continue (currInterval loc) (t_end a) (intervalLength a)
       (currCycleId loc) (nCycles a)
  then
    match fuel with
    | O => OutOfFuel
    | S fuel' =>
        match body a self loc with
        | Raise e => Aborted e
        | Ok (self', loc') =>
            loop fuel' a self' loc'
              (applied
                 ++ [Interval (fst (currInterval loc))
                       (snd (currInterval loc)) (dose loc)])
        end
    end
  else Finished (self, loc, applied).

Definition Simulate_AT1 (fuel : nat) (self : ODEModel) (a : args)
  : outcome (ODEModel * list interval) :=
  match setup self a with
  | Raise e => Aborted e
  | Ok loc =>
      match loop fuel a self loc [] with
      | Finished (self', _, applied) =>
          match clean_up self' with
          | Ok self'' => Finished (self'', applied)
          | Raise e => Aborted e
          end
      | Aborted e => Aborted e
      | OutOfFuel => OutOfFuel
      end
  end.
End Loop.

End AT1.

Module AT2.

Record args : Type := Args {
  atThreshold : Q;
  D_star : option Q;
  D0 : option Q;
  DMin : Q;
  intervalLength : Q;
  n_days_lookback : nat;
  t_end : Q;
  nCycles : ext;
  t_span : option (Q * Q);
  solver_kws : kwargs
}.

Definition defaults : args :=
  Args (2 # 10) None None 0 1 2 1000 Infinity None no_kwargs.

(** [D_star] is the local after line 191. *)
Record locals : Type := Locals {
  currInterval : Q * Q;
  refSize : Q;
  prevSizesList : list Q;
  dose : Q;
  D_star_ : Q;
  currCycleId : nat
}.

(** Lines 186-192. *)
Definition setup (self : ODEModel) (a : args) : result locals :=
  let sp := span_or (t_span a) (t_end a) in
  r <- initial_size self ;;
  d <- match D0 a with
       | None => DMax self
       | Some d0 => Ok d0
       end ;;
  ds <- match D_star a with
        | None => DMax self
        | Some x => Ok x
        end ;;
  Ok (Locals (fst sp, fst sp + intervalLength a) r
        (repeat r (n_days_lookback a)) d ds 0).

(** Lines 205-207:
    [refSize = prevSizesList[0]; prevSizesList[:-1] = prevSizesList[1:];
     prevSizesList[-1] = T]. *)
Definition push (l : list Q) (T : Q) : result (Q * list Q) :=
  r <- py_first l ;;
  Ok (r, set_last (tl l ++ [last l 0]) T).

(** Lines 199-214. *)
Definition decide (a : args) (T : Q) (loc : locals) : result locals :=
  let d := if Qlt_bool ((1 + atThreshold a) * refSize loc) T
           then D_star_ loc else DMin a in
  '(r, l) <- push (prevSizesList loc) T ;;
  Ok (Locals (shift (currInterval loc) (intervalLength a)) r l d
        (D_star_ loc) (S (currCycleId loc))).

Section Loop.
Variable solve_ivp :
  model_class * dict -> list Q -> Q * Q -> list Q ->
  string -> Q -> Q -> ext -> result OdeResult.

Definition body (a : args) (self : ODEModel) (loc : locals)
  : result (ODEModel * locals) :=
  self' <- Simulate solve_ivp self
             [Interval (fst (currInterval loc)) (snd (currInterval loc))
                (dose loc)]
             (solver_kws a) ;;
  T <- last_TumourSize self' ;;
  loc' <- decide a T loc ;;
  Ok (self', loc').

Fixpoint loop (fuel : nat) (a : args) (self : ODEModel) (loc : locals)
    (applied : list interval)
  : outcome (ODEModel * locals * list interval) :=
  if continue (currInterval loc) (t_end a) (intervalLength a)
       (currCycleId loc) (nCycles a)
  then
    match fuel with
    | O => OutOfFuel
    | S fuel' =>
        match body a self loc with
        | Raise e => Aborted e
        | Ok (self', loc') =>
            loop fuel' a self' loc'
              (applied
                 ++ [Interval (fst (currInterval loc))
                       (snd (currInterval loc)) (dose loc)])
        end
    end
  else Finished (self, loc, applied).

Definition Simulate_AT2 (fuel : nat) (self : ODEModel) (a : args)
  : outcome (ODEModel * list interval) :=
  match setup self a with
  | Raise e => Aborted e
  | Ok loc =>
      match loop fuel a self loc [] with
      | Finished (self', _, applied) =>
          match clean_up self' with
          | Ok self'' => Finished (self'', applied)
          | Raise e => Aborted e
          end
      | Aborted e => Aborted e
      | OutOfFuel => OutOfFuel
      end
  end.
End Loop.

End AT2.

Module AT50.

Record args : Type := Args {
  refSize0 : option Q;
  atThreshold : Q;
  D_Star : option Q;
  D_min : Q;
  intervalLength_on : Q;
  intervalLength_off : option Q;
  t_end : Q;
  nCycles : ext;
  t_span : option (Q * Q);
  solver_kws : kwargs
}.

Definition defaults : args :=
  Args None (1 # 2) None 0 1 None 1000 Infinity None no_kwargs.

(** [intervalLength_off_], [refSize] and [D_Star_] are the locals after
    lines 224, 228 and 231. *)
Record locals : Type := Locals {
  intervalLength_off_ : Q;
  intervalLength : Q;
  currInterval : Q * Q;
  refSize : Q;
  dose : Q;
  D_Star_ : Q;
  currCycleId : nat
}.

(** Lines 224-232. *)
Definition setup (self : ODEModel) (a : args) : result locals :=
  let off := match intervalLength_off a with
             | None => intervalLength_on a
             | Some l => l
             end in
  let sp := span_or (t_span a) (t_end a) in
  r <- match refSize0 a with
       | None => initial_size self
       | Some r0 => Ok r0
       end ;;
  d <- DMax self ;;
  ds <- match D_Star a with
        | None => DMax self
        | Some x => Ok x
        end ;;
  Ok (Locals off (intervalLength_on a)
        (fst sp, fst sp + intervalLength_on a) r d ds 0).

(** Lines 240-253. *)
Definition decide (a : args) (T : Q) (loc : locals) : locals :=
  let '(d, len) :=
    if Qlt_bool T ((1 - atThreshold a) * refSize loc)
    then (D_min a, intervalLength_off_ loc)
    else if Qlt_bool (refSize loc) T
    then (D_Star_ loc, intervalLength_on a)
    else (dose loc, intervalLength loc) in
  Locals (intervalLength_off_ loc) len (shift (currInterval loc) len)
    (refSize loc) d (D_Star_ loc) (S (currCycleId loc)).

Section Loop.
Variable solve_ivp :
  model_class * dict -> list Q -> Q * Q -> list Q ->
  string -> Q -> Q -> ext -> result OdeResult.

Definition body (a : args) (self : ODEModel) (loc : locals)
  : result (ODEModel * locals) :=
  self' <- Simulate solve_ivp self
             [Interval (fst (currInterval loc)) (snd (currInterval loc))
                (dose loc)]
             (solver_kws a) ;;
  T <- last_TumourSize self' ;;
  Ok (self', decide a T loc).

Fixpoint loop (fuel : nat) (a : args) (self : ODEModel) (loc : locals)
    (applied : list interval)
  : outcome (ODEModel * locals * list interval) :=
  if continue (currInterval loc) (t_end a) (intervalLength loc)
       (currCycleId loc) (nCycles a)
  then
    match fuel with
    | O => OutOfFuel
    | S fuel' =>
        match body a self loc with
        | Raise e => Aborted e
        | Ok (self', loc') =>
            loop fuel' a self' loc'
              (applied
                 ++ [Interval (fst (currInterval loc))
                       (snd (currInterval loc)) (dose loc)])
        end
    end
  else Finished (self, loc, applied).

Definition Simulate_AT50 (fuel : nat) (self : ODEModel) (a : args)
  : outcome (ODEModel * list interval) :=
  match setup self a with
  | Raise e => Aborted e
  | Ok loc =>
      match loop fuel a self loc [] with
      | Finished (self', _, applied) =>
          match clean_up self' with
          | Ok self'' => Finished (self'', applied)
          | Raise e => Aborted e
          end
      | Aborted e => Aborted e
      | OutOfFuel => OutOfFuel
      end
  end.
End Loop.

End AT50.

(* ================================================================== *)
(** * Vocabulary of the properties *)

(** An interval fails when the solver reports non-convergence, or when its
    solution holds a negative value while numerical stabilisation is off. *)
Definition interval_failed (stab : bool) (sol : OdeResult) : bool :=
  negb (success sol) || (any_negative (y sol) && negb stab).

(** The solution of a call as the driver keeps it: clamped when it holds a
    negative value and stabilisation is on. *)
Definition kept_y (stab : bool) (sol : OdeResult) : list (list Q) :=
  if any_negative (y sol) && stab then clamp (y sol) else y sol.

(** The rows that a call contributes when its frame is kept. *)
Definition call_frame (vars : list string) (stab : bool) (c : solver_call)
  : list sol_row :=
  frame_rows (c_t_eval c) (last (kept_y stab (c_result c)) [])
    (firstn (List.length vars) (kept_y stab (c_result c))).

(** A solver call made with the configuration [cfg], for one of [n]
    intervals. *)
Definition call_uses (cfg : solver_config) (n : nat) (c : solver_call) : Prop :=
  c_method c = solverMethod cfg /\ c_atol c = absErr cfg /\
  c_rtol c = relErr cfg /\ c_max_step c = max_step cfg /\
  (exists i, time_grid (dt cfg) i n (c_interval c) = Ok (c_t_eval c)) /\
  c_t_eval c <> [] /\
  c_t_span c = (hd 0 (c_t_eval c), last (c_t_eval c) 0 + dt cfg).

(** The decisions of [Simulate_AT1] on a sequence of observed sizes. *)
Fixpoint AT1_observe (self : ODEModel) (a : AT1.args) (Ts : list Q)
    (loc : AT1.locals) : result AT1.locals :=
  match Ts with
  | [] => Ok loc
  | T :: rest =>
      loc' <- AT1.decide self a T loc ;;
      AT1_observe self a rest loc'
  end.

(** A logged call is the solver's own answer to its arguments. *)
Definition answered
    (solve_ivp : model_class * dict -> list Q -> Q * Q -> list Q ->
                 string -> Q -> Q -> ext -> result OdeResult)
    (c : solver_call) : Prop :=
  solve_ivp (c_fun c) (c_y0 c) (c_t_span c) (c_t_eval c) (c_method c)
    (c_atol c) (c_rtol c) (c_max_step c) = Ok (c_result c).

(** A row of the record made from a frame row: [TumourSize] is the scale
    factor times the row-wise sum of the state-variable columns. *)
Definition with_size (theta : Q) (r : sol_row) : row :=
  Row (sr_Time r) (sr_DrugConcentration r) (sr_vals r)
    (theta * np_sum (sr_vals r)).

(** The rows that a [Simulate] call appends, from its solver calls: those
    before a failing one ([kept]) and the failing one, if any ([failing]). *)
Definition block_of (vars : list string) (stab : bool) (theta : Q)
    (kept failing : list solver_call) : DataFrame :=
  map (with_size theta)
    (match kept, failing with
     | [], c :: _ => zero_frame vars (c_t_eval c)
     | _, _ => List.concat (map (call_frame vars stab) kept)
     end).

(* ================================================================== *)
(** * Instances used in the examples *)

(** A solver that keeps every component of [y0] constant over [t_eval]. *)
Definition constant_solver (f : model_class * dict) (y0 : list Q)
    (t_span : Q * Q) (t_eval : list Q) (method : string) (atol rtol : Q)
    (max_step : ext) : result OdeResult :=
  Ok (MkOdeResult true "" (map (fun v => repeat v (List.length t_eval)) y0)).

(** A solver that reports non-convergence from time [t] on and behaves as
    [constant_solver] before. *)
Definition diverging_from (t : Q) (f : model_class * dict) (y0 : list Q)
    (t_span : Q * Q) (t_eval : list Q) (method : string) (atol rtol : Q)
    (max_step : ext) : result OdeResult :=
  if Qle_bool t (fst t_span)
  then Ok (MkOdeResult false "Required step size is less than spacing between numbers." [])
  else constant_solver f y0 t_span t_eval method atol rtol max_step.

(** A solver whose first component dips to [-1] at the last evaluation time. *)
Definition dipping_solver (f : model_class * dict) (y0 : list Q)
    (t_span : Q * Q) (t_eval : list Q) (method : string) (atol rtol : Q)
    (max_step : ext) : result OdeResult :=
  Ok (MkOdeResult true ""
        (match y0 with
         | [] => []
         | v :: rest =>
             set_last (repeat v (List.length t_eval)) (-1)
             :: map (fun w => repeat w (List.length t_eval)) rest
         end)).

(** An instance of the three-term linear model, built by its constructor with
    [dt = 1] and given the initial populations [S = 99], [R = 1] by an
    assignment to [initialStateList] afterwards. *)
Definition example_model (kw : kwargs) : result ODEModel :=
  self <- class_init (fun _ => None) EinarPersistorModelType3L kw ;;
  Ok (set_params self (paramDic self) (Some [99; 1])).

Definition kw_dt1 : kwargs :=
  Kwargs [] (Some 1) None None None None None None.

(** Keywords that override two parameters. *)
Definition kw_u0 : kwargs :=
  Kwargs [("u0"%string, PNum (1 # 2)); ("DMax"%string, PNum 50)]
    None None None None None None None.

(** An instance whose parameter set holds the initial values ["S0"] and
    ["R0"] of its two state variables, next to ["DMax"]. *)
Definition two_pop : ODEModel :=
  MkODEModel ODEModelBase None
    [("DMax", PNum 100); ("S0", PNum 99); ("R0", PNum 1)]%string
    ["S"; "R"]%string None None
    (SolverConfig 1 (1 # 100000000) (1 # 1000000) "DOP853" Infinity false false)
    false None None None.

(** [Simulate_AT1] with a withdrawal size of 10. *)
Definition at1_vmin10 : AT1.args :=
  AT1.Args (2 # 10) (1 # 2) None 10 1 "original" 1000 Infinity None no_kwargs.

(** The instance that [example_model] builds with [dt = 1]. *)
Definition example_instance : ODEModel :=
  MkODEModel EinarPersistorModelType3L (Some "EinarPersistorModelType3L"%string)
    (dict_merge [("DMax"%string, PNum 100)] (linear_defaults "Linear 3"))
    ["S"; "R"]%string None (Some [99; 1])
    (SolverConfig 1 (1 # 100000000) (1 # 1000000) "DOP853" Infinity false false)
    false None None None.

Definition kw_half_step : kwargs :=
  Kwargs [] (Some (1 # 2)) None None None None (Some true) None.

(** A schedule of three intervals. *)
Definition three_intervals : list interval :=
  [Interval 0 1 5; Interval 1 2 0; Interval 2 3 1].

(** Controller arguments used in the examples: two cycles of
    [Simulate_AT2], and one cycle of each controller up to [t_end = 3]. *)
Definition at2_two_cycles : AT2.args :=
  AT2.Args (2 # 10) None None 0 1 2 1000 (Finite 2) None no_kwargs.

Definition at1_one_cycle : AT1.args :=
  AT1.Args (2 # 10) (1 # 2) None 0 1 "original" 3 (Finite 1) None no_kwargs.

Definition at2_one_cycle : AT2.args :=
  AT2.Args (2 # 10) None None 0 1 2 3 (Finite 1) None no_kwargs.

Definition at50_one_cycle : AT50.args :=
  AT50.Args None (1 # 2) None 0 1 None 3 (Finite 1) None no_kwargs.

(** The solver keeps its interface: it returns an object, and a converged
    solution has one row for each entry of [y0] and one column for each
    evaluation time. *)
Definition solver_conforms
    (solve_ivp : model_class * dict -> list Q -> Q * Q -> list Q ->
                 string -> Q -> Q -> ext -> result OdeResult) : Prop :=
  forall f y0 t_span t_eval method atol rtol max_step,
  exists sol,
    solve_ivp f y0 t_span t_eval method atol rtol max_step = Ok sol /\
    (success sol = true ->
     well_shaped (y sol) (List.length y0) (List.length t_eval) = true).

(** Keywords that switch numerical stabilisation on. *)
Definition kw_stabilise : kwargs :=
  Kwargs [] None None None None None (Some true) None.

(** [Simulate_AT1] with intervals of length 0, one cycle allowed. *)
Definition at1_zero_length : AT1.args :=
  AT1.Args (2 # 10) (1 # 2) None 0 0 "original" 3 (Finite 1) None no_kwargs.

(** The locals and the instance that [Simulate_AT1] reaches after one pass
    on [at1_zero_length] with [constant_solver]. *)
Definition stalled_locals : AT1.locals := AT1.Locals (0, 0) 100 100 100 0.

Definition stalled_instance : ODEModel :=
  MkODEModel EinarPersistorModelType3L (Some "EinarPersistorModelType3L"%string)
    (dict_merge [("DMax"%string, PNum 100)] (linear_defaults "Linear 3"))
    ["S"; "R"]%string (Some [Row 0 100 [99; 1] 100]) (Some [99; 1])
    (SolverConfig 1 (1 # 100000000) (1 # 1000000) "DOP853" Infinity false false)
    true (Some ""%string) (Some (MkOdeResult true "" [[99]; [1]; [100]]))
    (Some [Interval 0 0 100]).

(** Solver calls chained by the state: each call starts from the state
    vector [prev] with the dose of its interval in the last slot, and the
    call after it starts from the last column of its kept solution. *)
Fixpoint chained (stab : bool) (prev : list Q) (cs : list solver_call) : Prop :=
  match cs with
  | [] => True
  | c :: rest =>
      c_y0 c = set_last prev (iv_dose (c_interval c)) /\
      (rest = [] \/
       exists next,
         column_last (kept_y stab (c_result c)) = Ok next /\
         chained stab next rest)
  end.

(* ================================================================== *)
(** * The model equations of [CustomModel.py] *)

(** What [ModelEqns] hands back: the vector of derivatives, or a vector with
    an entry that is no finite number.  The float division [c / (c + 1)] by
    zero raises nothing in numpy: it gives an infinity, which the first
    derivative inherits. *)
Inductive deriv : Type :=
| Deriv (dudtVec : list Q)
| NonFinite.

(** [dic[key]] *)
Definition dict_item (key : string) (dic : dict) : result pyval :=
  of_option KeyError (dict_get key dic).

(** [a + b] and [a - b] on dictionary values: two strings concatenate, a
    string and a number are a [TypeError]. *)
Definition py_add (a b : pyval) : result pyval :=
  match a, b with
  | PNum x, PNum y => Ok (PNum (x + y))
  | PStr s, PStr t => Ok (PStr (s ++ t))
  | _, _ => Raise TypeError
  end.

Definition py_sub (a b : pyval) : result pyval :=
  match a, b with
  | PNum x, PNum y => Ok (PNum (x - y))
  | _, _ => Raise TypeError
  end.

(** [S, R, cfrac = uVec] *)
Definition unpack3 (uVec : list Q) : result (Q * Q * Q) :=
  match uVec with
  | [S_; R_; cfrac] => Ok (S_, R_, cfrac)
  | _ => Raise ValueError
  end.

(** [c / (c + 1)]: [None] stands for the infinity at [c + 1 == 0]. *)
Definition saturation (c : Q) : option Q :=
  if Qeq_bool (c + 1) 0 then None else Some (c / (c + 1)).

(** The uniform classes share every line but the two of the [c > 0] branch,
    [treated u0 v0 u_max v_min]. *)
Definition uniform_rates
    (treated : pyval -> pyval -> pyval -> pyval -> pyval * pyval)
    (dic : dict) (c : Q) : result (pyval * pyval) :=
  u0 <- dict_item "u0" dic ;;
  delta_u <- dict_item "delta_u" dic ;;
  u_max <- py_add u0 delta_u ;;
  v0 <- dict_item "v0" dic ;;
  delta_v <- dict_item "delta_v" dic ;;
  v_min <- py_sub v0 delta_v ;;
  if Qlt_bool 0 c then Ok (treated u0 v0 u_max v_min) else Ok (u0, v0).

(** The lines that set [u] and [v], class by class.  A rate that is read
    from the dictionary and not computed with is handed on as it is. *)
Definition switching_rates (cl : model_class) (dic : dict) (c : Q)
  : result (pyval * pyval) :=
  match cl with
  | ODEModelBase => Raise AttributeError
  | EinarPersistorModelType3L =>
      u0 <- dict_item "u0" dic ;;
      k <- dict_item "k" dic ;;
      k <- as_num k ;;
      u0 <- as_num u0 ;;
      v0 <- dict_item "v0" dic ;;
      m <- dict_item "m" dic ;;
      m <- as_num m ;;
      v0 <- as_num v0 ;;
      Ok (PNum (u0 + k * c), PNum (v0 - m * c))
  | EinarPersistorModelType2L =>
      u <- dict_item "u0" dic ;;
      v0 <- dict_item "v0" dic ;;
      m <- dict_item "m" dic ;;
      m <- as_num m ;;
      v0 <- as_num v0 ;;
      Ok (u, PNum (v0 - m * c))
  | EinarPersistorModelType1L =>
      u0 <- dict_item "u0" dic ;;
      k <- dict_item "k" dic ;;
      k <- as_num k ;;
      u0 <- as_num u0 ;;
      v <- dict_item "v0" dic ;;
      Ok (PNum (u0 + k * c), v)
  | EinarPersistorModelTypeU =>
      uniform_rates (fun u0 v0 u_max v_min => (u_max, v_min)) dic c
  | EinarPersistorModelTypeU1 =>
      uniform_rates (fun u0 v0 u_max v_min => (u_max, v0)) dic c
  | EinarPersistorModelTypeU2 =>
      uniform_rates (fun u0 v0 u_max v_min => (u0, v_min)) dic c
  end.

(** [ModelEqns(self, t, uVec)] of the bound method [f]: the class and the
    parameter dictionary of the instance. *)
Definition ModelEqns (f : model_class * dict) (t : Q) (uVec : list Q)
  : result deriv :=
  let (cl, dic) := f in
  ' (S_, R_, cfrac) <- unpack3 uVec ;;
  Cmax <- dict_item "Cmax" dic ;;
  Cmax <- as_num Cmax ;;
  let c := cfrac * Cmax in
  lambda0 <- dict_item "lambda0" dic ;;
  delta_d0 <- dict_item "delta_d0" dic ;;
  delta_d0 <- as_num delta_d0 ;;
  lambda0 <- as_num lambda0 ;;
  let lamb := option_map (fun s => lambda0 - delta_d0 * s) (saturation c) in
  ' (u, v) <- switching_rates cl dic c ;;
  u <- as_num u ;;
  v <- as_num v ;;
  lambda1 <- dict_item "lambda1" dic ;;
  lambda1 <- as_num lambda1 ;;
  match lamb with
  | Some lamb =>
      Ok (Deriv [ (lamb - u) * S_ + v * R_; (lambda1 - v) * R_ + u * S_; 0 ])
  | None => Ok NonFinite
  end.

(** The members of a parameter dictionary as numbers. *)
Definition param (key : string) (dic : dict) : option Q :=
  match dict_get key dic with
  | Some (PNum q) => Some q
  | _ => None
  end.

(* ================================================================== *)
(** * Vocabulary of the trajectory record *)

(** The evaluation times behind the rows that a [Simulate] call appends:
    the grids of the calls whose frames were kept, or the grid of the
    failing call when no frame was kept. *)
Definition block_times (kept failing : list solver_call) : list Q :=
  match kept, failing with
  | [], c :: _ => c_t_eval c
  | _, _ => List.concat (map c_t_eval kept)
  end.

(* ================================================================== *)
(** * Vocabulary of the controllers' schedules *)

(** Intervals of length [len] laid end to end from time [t]: each starts
    where the one before it ends. *)
Fixpoint end_to_end (len t : Q) (l : list interval) : Prop :=
  match l with
  | [] => True
  | iv :: rest =>
      iv_start iv = t /\ iv_end iv = t + len /\ end_to_end len (t + len) rest
  end.

(** Intervals of width [on] from time [t] whose starts advance by [on] or
    by [off]. *)
Fixpoint hops (on off t : Q) (l : list interval) : Prop :=
  match l with
  | [] => True
  | iv :: rest =>
      iv_start iv == t /\ iv_end iv == t + on /\
      (hops on off (t + on) rest \/ hops on off (t + off) rest)
  end.

(** The decisions of [Simulate_AT2] on a sequence of observed sizes. *)
Fixpoint AT2_observe (a : AT2.args) (Ts : list Q) (loc : AT2.locals)
  : result AT2.locals :=
  match Ts with
  | [] => Ok loc
  | T :: rest =>
      loc' <- AT2.decide a T loc ;;
      AT2_observe a rest loc'
  end.

(** [Simulate_AT50] with an off-length of 2 and an on-length of 1, from a
    reference size of 1000, up to [t_end = 5]. *)
Definition at50_off2 : AT50.args :=
  AT50.Args (Some 1000) (1 # 2) None 0 1 (Some 2) 5 Infinity None no_kwargs.

(** [Simulate_AT1] and [Simulate_AT2] up to [t_end = 2], with no bound on
    the cycles. *)
Definition at1_to2 : AT1.args :=
  AT1.Args (2 # 10) (1 # 2) None 0 1 "original" 2 Infinity None no_kwargs.

Definition at2_to2 : AT2.args :=
  AT2.Args (2 # 10) None None 0 1 2 2 Infinity None no_kwargs.

(* ================================================================== *)
(** * Serial passaging: [Simulate_LongTermAssay] *)

(** Conventions of this part.  An assignment [self.resultsDf[var].iloc[-1] =
    v] writes to the record, as it does in pandas without copy-on-write,
    which the code relies on.  The floats read from the record are numpy
    floats: dividing one by zero raises nothing and gives an infinity or a
    NaN, and a Python list times one is a [TypeError]. *)

(** The argument [seeding_density]: a number, or a list of numbers. *)
Inductive seeding : Type :=
| Density (d : Q)
| Densities (l : list Q).

(** What a reseeding leaves: the instance, or [NotFinite] when the values
    it wrote to the record are no finite numbers.  What the code does with
    such a record is outside this embedding. *)
Inductive passage (A : Type) : Type :=
| Seeded (a : A)
| NotFinite.
Arguments Seeded {A} a.
Arguments NotFinite {A}.

(** The place of a state variable among the state-variable columns. *)
Fixpoint index_of (var : string) (vars : list string) : option nat :=
  match vars with
  | [] => None
  | v :: rest =>
      if String.eqb var v then Some 0%nat
      else option_map S (index_of var rest)
  end.

(** [self.resultsDf[var].iloc[-1]] for a state variable [var]. *)
Definition last_of (self : ODEModel) (var : string) : result Q :=
  df <- of_option TypeError (resultsDf self) ;;
  i <- of_option KeyError (index_of var (stateVars self)) ;;
  r <- py_last df ;;
  of_option KeyError (nth_error (vals r) i).

(** [self.resultsDf['TumourSize'].iloc[-1]] *)
Definition last_size (self : ODEModel) : result Q :=
  df <- of_option TypeError (resultsDf self) ;;
  r <- py_last df ;;
  Ok (TumourSize r).

(** [self.resultsDf[var].iloc[-1] = v] for a state variable [var]. *)
Definition write_last (self : ODEModel) (var : string) (v : Q)
  : result ODEModel :=
  df <- of_option TypeError (resultsDf self) ;;
  i <- of_option KeyError (index_of var (stateVars self)) ;;
  r <- py_last df ;;
  if (i <? List.length (vals r))%nat then
    Ok (set_resultsDf self
          (Some (set_last df
                   (Row (Time r) (DrugConcentration r)
                      (firstn i (vals r) ++ v :: skipn (S i) (vals r))
                      (TumourSize r)))))
  else Raise KeyError.

(** [self.resultsDf['TumourSize'].iloc[-1] = v] *)
Definition write_last_size (self : ODEModel) (v : Q) : result ODEModel :=
  df <- of_option TypeError (resultsDf self) ;;
  r <- py_last df ;;
  Ok (set_resultsDf self
        (Some (set_last df
                 (Row (Time r) (DrugConcentration r) (vals r) v)))).

(** Lines 273-278: a number, or a list of one entry, is taken as it is;
    a longer (or empty) list is indexed by the cycle. *)
Definition curr_seeding_density (seeding_density : seeding) (cycle_id : nat)
  : result seeding :=
  match seeding_density with
  | Density d => Ok (Density d)
  | Densities [x] => Ok (Densities [x])
  | Densities l =>
      d <- of_option IndexError (nth_error l cycle_id) ;;
      Ok (Density d)
  end.

(** [curr_seeding_density * x] for a float [x] computed from the record. *)
Definition scaled (curr : seeding) (x : Q) : result Q :=
  match curr with
  | Density d => Ok (d * x)
  | Densities _ => Raise TypeError
  end.

(** Lines 273-282.  The quotient is no finite number when the last
    [TumourSize] is zero; the exceptions of line 280 come before that
    matters, and nothing after line 280 raises then. *)
Definition reseed (self : ODEModel) (seeding_density : seeding)
    (cycle_id : nat) : result (passage ODEModel) :=
  curr <- curr_seeding_density seeding_density cycle_id ;;
  R_ <- last_of self "R" ;;
  size <- last_size self ;;
  let curr_resistance_fraction := R_ / size in
  s <- scaled curr (1 - curr_resistance_fraction) ;;
  self <- write_last self "S" s ;;
  if Qeq_bool size 0 then Ok NotFinite
  else
    r <- scaled curr curr_resistance_fraction ;;
    self <- write_last self "R" r ;;
    S_ <- last_of self "S" ;;
    R_ <- last_of self "R" ;;
    self <- write_last_size self (S_ + R_) ;;
    Ok (Seeded self).

(** Lines 306-317: as [reseed], with the loss of sensitive cells after a
    cycle on drug. *)
Definition reseed_PKill (self : ODEModel) (seeding_density : seeding)
    (cycle_id : nat) (passaging_loss : Q) (previous_cycle_on_drug : bool)
  : result (passage ODEModel) :=
  curr <- curr_seeding_density seeding_density cycle_id ;;
  R_ <- last_of self "R" ;;
  size <- last_size self ;;
  let curr_resistance_fraction := R_ / size in
  s <- scaled curr (1 - curr_resistance_fraction) ;;
  self <- write_last self "S" s ;;
  if Qeq_bool size 0 then Ok NotFinite
  else
    self <- (if previous_cycle_on_drug then
               S_ <- last_of self "S" ;;
               write_last self "S" (S_ * (1 - passaging_loss))
             else Ok self) ;;
    r <- scaled curr curr_resistance_fraction ;;
    self <- write_last self "R" r ;;
    S_ <- last_of self "S" ;;
    R_ <- last_of self "R" ;;
    self <- write_last_size self (S_ + R_) ;;
    Ok (Seeded self).

Section Passaging.

Variable solve_ivp :
  model_class * dict -> list Q -> Q * Q -> list Q ->
  string -> Q -> Q -> ext -> result OdeResult.

(** The [for] loop of [Simulate_LongTermAssay] (lines 269-285). *)
Fixpoint passages (self : ODEModel) (seeding_density : seeding)
    (solver_kws : kwargs) (cycles : list (nat * interval))
  : result (passage ODEModel) :=
  match cycles with
  | [] => Ok (Seeded self)
  | (cycle_id, cycle) :: rest =>
      p <- (if (0 <? cycle_id)%nat
            then reseed self seeding_density cycle_id
            else Ok (Seeded self)) ;;
      match p with
      | Seeded self =>
          self <- Simulate solve_ivp self [cycle] solver_kws ;;
          passages self seeding_density solver_kws rest
      | NotFinite => Ok NotFinite
      end
  end.

Definition Simulate_LongTermAssay (self : ODEModel)
    (treatment_schedule : list interval) (seeding_density : seeding)
    (solver_kws : kwargs) : result (passage ODEModel) :=
  p <- passages self seeding_density solver_kws (enumerate treatment_schedule) ;;
  match p with
  | Seeded self =>
      self <- clean_up self ;;
      Ok (Seeded self)
  | NotFinite => Ok NotFinite
  end.

(** The [for] loop of [Simulate_LongTermAssay_PKill] (lines 302-321). *)
Fixpoint passages_PKill (self : ODEModel) (seeding_density : seeding)
    (passaging_loss : Q) (solver_kws : kwargs)
    (previous_cycle_on_drug : bool) (cycles : list (nat * interval))
  : result (passage ODEModel) :=
  match cycles with
  | [] => Ok (Seeded self)
  | (cycle_id, cycle) :: rest =>
      p <- (if (0 <? cycle_id)%nat
            then reseed_PKill self seeding_density cycle_id passaging_loss
                   previous_cycle_on_drug
            else Ok (Seeded self)) ;;
      match p with
      | Seeded self =>
          self <- Simulate solve_ivp self [cycle] solver_kws ;;
          passages_PKill self seeding_density passaging_loss solver_kws
            (Qlt_bool 0 (iv_dose cycle)) rest
      | NotFinite => Ok NotFinite
      end
  end.

Definition Simulate_LongTermAssay_PKill (self : ODEModel)
    (treatment_schedule : list interval) (seeding_density : seeding)
    (passaging_loss : Q) (solver_kws : kwargs) : result (passage ODEModel) :=
  p <- passages_PKill self seeding_density passaging_loss solver_kws false
         (enumerate treatment_schedule) ;;
  match p with
  | Seeded self =>
      self <- clean_up self ;;
      Ok (Seeded self)
  | NotFinite => Ok NotFinite
  end.

End Passaging.

(** A schedule of three passages, the first on drug. *)
Definition three_passages : list interval :=
  [Interval 0 1 1; Interval 1 2 0; Interval 2 3 0].

(* ================================================================== *)
(** * The evaluation grid, whatever the arithmetic *)

(** Lines 72-78 of [Simulate] with the arithmetic of the grid left open:
    [np_arange] is any grid constructor and [add] any addition.  With
    [arange] and the addition of [Q] this is [time_grid]; with numpy's
    [arange] and the addition of float64, whose values are rationals, it is
    the grid that the code builds.  The guard itself only compares and
    assigns. *)
Definition time_grid_of (np_arange : Q -> Q -> Q -> result (list Q))
    (add : Q -> Q -> Q) (dt : Q) (intervalId n : nat) (iv : interval)
  : result (list Q) :=
  tVec <- np_arange (iv_start iv) (iv_end iv) dt ;;
  if Nat.eqb intervalId (n - 1) then
    tVec <- np_arange (iv_start iv) (add (iv_end iv) dt) dt ;;
    force_end (iv_end iv) tVec
  else Ok tVec.

(* ================================================================== *)
(** * Properties *)

Unset Implicit Arguments.

(** ** Results, comparisons and sequences *)

Lemma bind_Ok {A B} (r : result A) (k : A -> result B) (b : B) :
  bind r k = Ok b -> exists a, r = Ok a /\ k a = Ok b.
Proof. destruct r as [a|e]; simpl; intros H; [eauto | discriminate]. Qed.

Lemma Qlt_bool_iff (x y : Q) : Qlt_bool x y = true <-> x < y.
Proof.
  unfold Qlt_bool. rewrite negb_true_iff. split; intros H.
  - apply Qnot_le_lt. intros Hle. apply Qle_bool_iff in Hle. congruence.
  - destruct (Qle_bool y x) eqn:E; [|reflexivity].
    apply Qle_bool_iff in E. exfalso. revert E. apply Qlt_not_le. exact H.
Qed.

Lemma Qlt_bool_false_iff (x y : Q) : Qlt_bool x y = false <-> y <= x.
Proof. unfold Qlt_bool. rewrite negb_false_iff. apply Qle_bool_iff. Qed.

Lemma Qle_bool_false_iff (x y : Q) : Qle_bool x y = false <-> y < x.
Proof.
  rewrite <- Qlt_bool_iff. unfold Qlt_bool. rewrite negb_true_iff. reflexivity.
Qed.

Lemma py_last_app {A} (l : list A) (x : A) : py_last (l ++ [x]) = Ok x.
Proof. unfold py_last. rewrite rev_app_distr. reflexivity. Qed.

Lemma py_last_last {A} (l : list A) (d : A) :
  l <> [] -> py_last l = Ok (last l d).
Proof.
  intros Hl. destruct (exists_last Hl) as [l' [x ->]].
  rewrite py_last_app, last_last. reflexivity.
Qed.

Lemma arange_pts_length start step n : List.length (arange_pts start step n) = n.
Proof. unfold arange_pts. rewrite length_map, length_seq. reflexivity. Qed.

Lemma arange_pos_step start stop step :
  0 < step -> arange start stop step = Ok (arange_pts start step (arange_len start stop step)).
Proof.
  intros Hs. unfold arange.
  destruct (Qeq_bool step 0) eqn:E; [|reflexivity].
  apply Qeq_bool_iff in E. rewrite E in Hs. exfalso. revert Hs. apply Qlt_irrefl.
Qed.

(** For a positive step, the count of points [n] brackets the end:
    [(n - 1) * step < stop - start <= n * step], when [start < stop]. *)
Lemma arange_len_bracket start stop step :
  0 < step -> start < stop ->
  exists n, arange_len start stop step = S n /\
    inject_Z (Z.of_nat n) * step < stop - start /\
    stop - start <= inject_Z (Z.of_nat (S n)) * step.
Proof.
  intros Hs Hlt. unfold arange_len.
  set (x := (stop - start) / step).
  assert (Hx : 0 < x).
  { unfold x. apply Qlt_shift_div_l; [exact Hs|]. lra. }
  assert (Hc : (0 < Qceiling x)%Z).
  { pose proof (Qle_ceiling x) as H1.
    assert (H2 : 0 < inject_Z (Qceiling x)) by (eapply Qlt_le_trans; eauto).
    rewrite (Zlt_Qlt 0 (Qceiling x)). exact H2. }
  exists (Z.to_nat (Qceiling x - 1)). split; [|split].
  - rewrite <- Z2Nat.inj_succ by lia. f_equal. lia.
  - rewrite Z2Nat.id by lia.
    pose proof (Qceiling_lt x) as H1.
    assert (H2 : inject_Z (Qceiling x - 1) * step < x * step).
    { apply Qmult_lt_compat_r; assumption. }
    assert (H3 : x * step == stop - start).
    { unfold x. field. intros E. rewrite E in Hs. revert Hs. apply Qlt_irrefl. }
    rewrite H3 in H2. exact H2.
  - rewrite Nat2Z.inj_succ, Z2Nat.id by lia.
    replace (Z.succ (Qceiling x - 1)) with (Qceiling x) by lia.
    pose proof (Qle_ceiling x) as H1.
    assert (H2 : x * step <= inject_Z (Qceiling x) * step).
    { apply Qmult_le_compat_r; [exact H1|]. apply Qlt_le_weak. exact Hs. }
    assert (H3 : x * step == stop - start).
    { unfold x. field. intros E. rewrite E in Hs. revert Hs. apply Qlt_irrefl. }
    rewrite H3 in H2. exact H2.
Qed.

Lemma removelast_set_last {A} (l : list A) (v : A) :
  removelast (set_last l v) = removelast l.
Proof. unfold set_last. apply removelast_last. Qed.

Lemma last_set_last {A} (l : list A) (v d : A) : last (set_last l v) d = v.
Proof. unfold set_last. apply last_last. Qed.

Lemma length_set_last {A} (l : list A) (v : A) :
  l <> [] -> List.length (set_last l v) = List.length l.
Proof.
  intros Hl. destruct (exists_last Hl) as [l' [x ->]].
  unfold set_last. rewrite removelast_last, !length_app. reflexivity.
Qed.

(** The guard on any non-empty grid. *)
Lemma force_end_spec (t1 : Q) (tv : list Q) :
  tv <> [] ->
  exists g, force_end t1 tv = Ok g /\
    removelast g = removelast tv /\
    List.length g = List.length tv /\
    (last tv 0 <= t1 -> last g 0 = t1) /\
    (t1 < last tv 0 -> g = tv).
Proof.
  intros Hne. unfold force_end.
  rewrite (py_last_last tv 0 Hne). simpl.
  destruct (Qle_bool (last tv 0) t1) eqn:E.
  - exists (set_last tv t1). repeat split.
    + apply removelast_set_last.
    + apply length_set_last. exact Hne.
    + intros _. apply last_set_last.
    + intros Hlt. apply Qle_bool_iff in E. exfalso. revert E. apply Qlt_not_le. exact Hlt.
  - exists tv. repeat split.
    intros Hle. apply Qle_bool_iff in Hle. congruence.
Qed.


(** ** Construction of a model instance *)

(** The constructor of every class leaves the parameter set at the defaults
    of the class, whatever the keywords, and sets no initial state. *)
Lemma class_init_defaults (float_of_str : string -> option Q)
    (c : model_class) (kw : kwargs) :
  exists self, class_init float_of_str c kw = Ok self /\
    paramDic self
    = dict_merge [("DMax"%string, PNum 100)] (class_defaults c) /\
    initialStateList self = None /\
    config self
    = SolverConfig (kw_get (kw_dt kw) (1 # 1000))
        (kw_get (kw_absErr kw) (1 # 100000000))
        (kw_get (kw_relErr kw) (1 # 1000000))
        (kw_get (kw_method kw) "DOP853"%string)
        (kw_get (kw_max_step kw) Infinity)
        (kw_get (kw_numericalStabilisationB kw) false)
        (kw_get (kw_suppressOutputB kw) false).
Proof.
  unfold class_init, ODEModel_init, SetParams. simpl.
  destruct c; eexists; (split; [reflexivity|]); repeat split; reflexivity.
Qed.

(** C9 (code defect, evaluated).  The three-term linear model constructed
    with the keywords [u0 = 0.5] and [DMax = 50] keeps the defaults
    [u0 = 0.0004] and [DMax = 100], and has no initial state vector: the base
    constructor calls [SetParams] while the parameter set holds ["DMax"]
    alone, so the call does nothing, and the class assigns its defaults
    afterwards without calling [SetParams] again. *)
Theorem constructor_drops_overrides :
  exists self,
    class_init (fun _ => None) EinarPersistorModelType3L kw_u0 = Ok self /\
    dict_get "u0" (paramDic self) = Some (PNum (4 # 10000)) /\
    dict_get "DMax" (paramDic self) = Some (PNum 100) /\
    initialStateList self = None.
Proof. eexists. repeat split. Qed.

(** A later call of [SetParams] on such an instance converts every entry with
    [float], and ['CASE': 'Linear 3'] is no number. *)
Lemma SetParams_after_construction_raises :
  (self <- class_init (fun _ => None) EinarPersistorModelType3L kw_u0 ;;
   SetParams (fun _ => None) self kw_u0) = Raise ValueError.
Proof. reflexivity. Qed.

(** On a parameter set of several numbers that holds the initial values,
    [SetParams] does what the constructor misses. *)
Lemma SetParams_applies_overrides :
  exists self,
    SetParams (fun _ => None) two_pop
      (Kwargs [("S0"%string, PNum 5)] None None None None None None None)
    = Ok self /\
    paramDic self = [("DMax", PNum 100); ("S0", PNum 5); ("R0", PNum 1)]%string /\
    initialStateList self = Some [5; 1].
Proof. eexists. repeat split. Qed.

(** ** The decision rules of the controllers *)

Lemma Qlt_bool_true (x y : Q) : x < y -> Qlt_bool x y = true.
Proof. apply Qlt_bool_iff. Qed.

Lemma Qlt_bool_false (x y : Q) : y <= x -> Qlt_bool x y = false.
Proof. apply Qlt_bool_false_iff. Qed.

(** The three branches of the decision of [Simulate_AT50]. *)
Lemma AT50_decide_off (a : AT50.args) (T : Q) (loc : AT50.locals) :
  T < (1 - AT50.atThreshold a) * AT50.refSize loc ->
  AT50.dose (AT50.decide a T loc) = AT50.D_min a /\
  AT50.intervalLength (AT50.decide a T loc) = AT50.intervalLength_off_ loc.
Proof.
  intros H. unfold AT50.decide. rewrite (Qlt_bool_true _ _ H). split; reflexivity.
Qed.

Lemma AT50_decide_on (a : AT50.args) (T : Q) (loc : AT50.locals) :
  (1 - AT50.atThreshold a) * AT50.refSize loc <= T ->
  AT50.refSize loc < T ->
  AT50.dose (AT50.decide a T loc) = AT50.D_Star_ loc /\
  AT50.intervalLength (AT50.decide a T loc) = AT50.intervalLength_on a.
Proof.
  intros H1 H2. unfold AT50.decide.
  rewrite (Qlt_bool_false _ _ H1), (Qlt_bool_true _ _ H2). split; reflexivity.
Qed.

Lemma AT50_decide_hold (a : AT50.args) (T : Q) (loc : AT50.locals) :
  (1 - AT50.atThreshold a) * AT50.refSize loc <= T ->
  T <= AT50.refSize loc ->
  AT50.dose (AT50.decide a T loc) = AT50.dose loc /\
  AT50.intervalLength (AT50.decide a T loc) = AT50.intervalLength loc.
Proof.
  intros H1 H2. unfold AT50.decide.
  rewrite (Qlt_bool_false _ _ H1), (Qlt_bool_false _ _ H2). split; reflexivity.
Qed.

Lemma AT50_decide_refSize (a : AT50.args) (T : Q) (loc : AT50.locals) :
  AT50.refSize (AT50.decide a T loc) = AT50.refSize loc /\
  AT50.D_Star_ (AT50.decide a T loc) = AT50.D_Star_ loc /\
  AT50.intervalLength_off_ (AT50.decide a T loc) = AT50.intervalLength_off_ loc.
Proof.
  unfold AT50.decide.
  destruct (Qlt_bool T _); [|destruct (Qlt_bool _ T)]; repeat split.
Qed.

Section AT50_loop.
Variable solve_ivp :
  model_class * dict -> list Q -> Q * Q -> list Q ->
  string -> Q -> Q -> ext -> result OdeResult.

Lemma AT50_body_refSize a self loc self' loc' :
  AT50.body solve_ivp a self loc = Ok (self', loc') ->
  AT50.refSize loc' = AT50.refSize loc.
Proof.
  unfold AT50.body. intros H.
  apply bind_Ok in H. destruct H as [m [_ H]].
  apply bind_Ok in H. destruct H as [T [_ H]].
  injection H as _ <-. apply AT50_decide_refSize.
Qed.

Lemma AT50_loop_refSize fuel a : forall self loc applied self' loc' applied',
  AT50.loop solve_ivp fuel a self loc applied
  = Finished (self', loc', applied') ->
  AT50.refSize loc' = AT50.refSize loc.
Proof.
  induction fuel as [|fuel IH]; intros self loc applied self' loc' applied' H;
    simpl in H;
    destruct (continue _ _ _ _ _); try discriminate.
  - injection H as _ <- _. reflexivity.
  - destruct (AT50.body solve_ivp a self loc) as [[m l]|e] eqn:Hb;
      [|discriminate].
    apply IH in H. rewrite H. eapply AT50_body_refSize. exact Hb.
  - injection H as _ <- _. reflexivity.
Qed.
End AT50_loop.

(** C5.  One decision step of [Simulate_AT50] with reference size [R] and
    threshold [theta], on the observed size [T]:
    - [T < (1 - theta) * R]: the dose becomes [D_min] and the interval length
      the off-length;
    - otherwise, [T > R]: the dose becomes [D_Star] and the interval length
      the on-length (the first test comes first; for [theta >= 0] and
      [R >= 0] it cannot hold together with [T > R]);
    - otherwise, [T = R] included: dose and interval length are held;
    - [R] is the same after the step, and after the whole loop;
    - with [theta = 1/2] and [R > 0], [T = 0.49 R] is off-dosing and
      [T = 1.01 R] is on-dosing. *)
Theorem AT50_decision_rule (a : AT50.args) (T : Q) (loc : AT50.locals) :
  let R := AT50.refSize loc in
  let theta := AT50.atThreshold a in
  let loc' := AT50.decide a T loc in
  (T < (1 - theta) * R ->
   AT50.dose loc' = AT50.D_min a /\
   AT50.intervalLength loc' = AT50.intervalLength_off_ loc) /\
  ((1 - theta) * R <= T -> R < T ->
   AT50.dose loc' = AT50.D_Star_ loc /\
   AT50.intervalLength loc' = AT50.intervalLength_on a) /\
  (0 <= theta -> 0 <= R -> R < T ->
   AT50.dose loc' = AT50.D_Star_ loc /\
   AT50.intervalLength loc' = AT50.intervalLength_on a) /\
  ((1 - theta) * R <= T -> T <= R ->
   AT50.dose loc' = AT50.dose loc /\
   AT50.intervalLength loc' = AT50.intervalLength loc) /\
  (0 <= theta -> 0 <= R -> T == R ->
   AT50.dose loc' = AT50.dose loc /\
   AT50.intervalLength loc' = AT50.intervalLength loc) /\
  AT50.refSize loc' = R /\
  (forall solve_ivp fuel self applied self' loc'' applied',
     AT50.loop solve_ivp fuel a self loc applied
     = Finished (self', loc'', applied') ->
     AT50.refSize loc'' = R) /\
  (theta == 1 # 2 -> 0 < R ->
   (T == (49 # 100) * R ->
    AT50.dose loc' = AT50.D_min a /\
    AT50.intervalLength loc' = AT50.intervalLength_off_ loc) /\
   (T == (101 # 100) * R ->
    AT50.dose loc' = AT50.D_Star_ loc /\
    AT50.intervalLength loc' = AT50.intervalLength_on a)).
Proof.
  intros R theta loc'. subst loc'.
  assert (Hband : 0 <= theta -> 0 <= R -> (1 - theta) * R <= R).
  { intros Ht HR. assert (0 <= theta * R) by (apply Qmult_le_0_compat; assumption).
    lra. }
  split; [apply AT50_decide_off|].
  split; [apply AT50_decide_on|].
  split.
  { intros Ht HR HT. apply AT50_decide_on; [|exact HT].
    apply Qle_trans with R; [auto | apply Qlt_le_weak; exact HT]. }
  split; [apply AT50_decide_hold|].
  split.
  { intros Ht HR HT. apply AT50_decide_hold.
    - rewrite HT. auto.
    - rewrite HT. apply Qle_refl. }
  split; [apply AT50_decide_refSize|].
  split.
  { intros solve_ivp fuel self applied self' loc'' applied' H.
    apply AT50_loop_refSize in H. exact H. }
  intros Ht HR. split; intros HT.
  - apply AT50_decide_off. fold theta R. rewrite HT, Ht. 
    assert (E : (1 - (1 # 2)) * R == (1 # 2) * R) by ring. rewrite E.
    apply Qmult_lt_compat_r; [exact HR | reflexivity].
  - apply AT50_decide_on; fold theta R; rewrite HT.
    + rewrite Ht. assert (E : (1 - (1 # 2)) * R == (1 # 2) * R) by ring. rewrite E.
      apply Qmult_le_compat_r; [discriminate | apply Qlt_le_weak; exact HR].
    + assert (E : R == 1 * R) by ring. rewrite E at 1.
      apply Qmult_lt_compat_r; [exact HR | reflexivity].
Qed.

(** A withdrawal step of [Simulate_AT1]: the dose becomes [0] and the dose
    that entered the decision is remembered. *)
Lemma AT1_decide_withdraw (self : ODEModel) (a : AT1.args) (T : Q)
    (loc : AT1.locals) :
  T < AT1.v_min a ->
  AT1.decide self a T loc
  = Ok (AT1.Locals (shift (AT1.currInterval loc) (AT1.intervalLength a)) T 0
          (AT1.restore loc) (AT1.currCycleId loc)).
Proof.
  intros H. unfold AT1.decide. rewrite (Qlt_bool_true _ _ H). reflexivity.
Qed.

(** After a withdrawal the restored dose is the remembered one. *)
Lemma AT1_restore_withdrawn (loc : AT1.locals) :
  AT1.dose loc = 0 -> AT1.restore loc = AT1.lastNonZeroDose loc.
Proof. intros H. unfold AT1.restore. rewrite H. reflexivity. Qed.

Lemma AT1_observe_withdrawn (self : ODEModel) (a : AT1.args) (Ts : list Q) :
  Forall (fun t => t < AT1.v_min a) Ts ->
  forall loc, AT1.dose loc = 0 ->
  exists loc', AT1_observe self a Ts loc = Ok loc' /\
    AT1.dose loc' = 0 /\
    AT1.lastNonZeroDose loc' = AT1.lastNonZeroDose loc.
Proof.
  induction 1 as [|T Ts HT _ IH]; intros loc Hd; simpl.
  - exists loc. auto.
  - rewrite (AT1_decide_withdraw self a T loc HT). simpl.
    destruct (IH (AT1.Locals (shift (AT1.currInterval loc) (AT1.intervalLength a))
                    T 0 (AT1.restore loc) (AT1.currCycleId loc)) eq_refl)
      as [loc' [H1 [H2 H3]]].
    exists loc'. split; [exact H1|]. split; [exact H2|].
    rewrite H3. simpl. apply AT1_restore_withdrawn. exact Hd.
Qed.

Lemma Forall_firstn {A} (P : A -> Prop) (n : nat) (l : list A) :
  Forall P l -> Forall P (firstn n l).
Proof.
  intros H. rewrite <- (firstn_skipn n l) in H.
  apply Forall_app in H. apply H.
Qed.

(** A step inside the band around the reference size keeps the restored
    dose. *)
Lemma AT1_decide_hold (self : ODEModel) (a : AT1.args) (T : Q)
    (loc : AT1.locals) :
  AT1.v_min a <= T ->
  (1 - AT1.atThreshold a) * AT1.refSize loc <= T ->
  T <= (1 + AT1.atThreshold a) * AT1.refSize loc ->
  AT1.decide self a T loc
  = Ok (AT1.Locals (shift (AT1.currInterval loc) (AT1.intervalLength a)) T
          (AT1.restore loc) (AT1.lastNonZeroDose loc) (AT1.currCycleId loc)).
Proof.
  intros H1 H2 H3. unfold AT1.decide.
  rewrite (Qlt_bool_false _ _ H1), (Qlt_bool_false _ _ H2),
    (Qlt_bool_false _ _ H3).
  reflexivity.
Qed.

(** C6.  Let the observed size be below [v_min] at [k] consecutive decision
    steps of [Simulate_AT1], [T] at the first and [Ts] at the others, and let
    [L] be the dose that enters the first decision (line 158 applied to the
    locals before it).  After the first step, and after any number [j] of the
    further steps, the dose for the next interval is [0] (so every step but
    possibly the first is simulated at dose 0) and the remembered dose is
    [L]; at the step after, line 158 restores [L] as the dose that enters the
    decision, and a size that is not below [v_min] and lies in the band
    around the reference size leaves the dose at [L]. *)
Theorem AT1_withdrawal_remembers (self : ODEModel) (a : AT1.args)
    (T : Q) (Ts : list Q) (loc : AT1.locals) :
  T < AT1.v_min a ->
  Forall (fun t => t < AT1.v_min a) Ts ->
  exists loc1, AT1.decide self a T loc = Ok loc1 /\
    AT1.dose loc1 = 0 /\
    AT1.lastNonZeroDose loc1 = AT1.restore loc /\
    forall j, exists locj,
      AT1_observe self a (firstn j Ts) loc1 = Ok locj /\
      AT1.dose locj = 0 /\
      AT1.lastNonZeroDose locj = AT1.restore loc /\
      AT1.restore locj = AT1.restore loc /\
      forall T',
        AT1.v_min a <= T' ->
        (1 - AT1.atThreshold a) * AT1.refSize locj <= T' ->
        T' <= (1 + AT1.atThreshold a) * AT1.refSize locj ->
        exists loc', AT1.decide self a T' locj = Ok loc' /\
          AT1.dose loc' = AT1.restore loc /\
          AT1.lastNonZeroDose loc' = AT1.restore loc.
Proof.
  intros HT HTs. eexists. split; [apply AT1_decide_withdraw; exact HT|].
  split; [reflexivity|]. split; [reflexivity|].
  intros j.
  assert (Hj : Forall (fun t => t < AT1.v_min a) (firstn j Ts)).
  { apply Forall_firstn. exact HTs. }
  destruct (AT1_observe_withdrawn self a _ Hj
              (AT1.Locals (shift (AT1.currInterval loc) (AT1.intervalLength a))
                 T 0 (AT1.restore loc) (AT1.currCycleId loc)) eq_refl)
    as [locj [H1 [H2 H3]]].
  simpl in H3.
  assert (H4 : AT1.restore locj = AT1.restore loc).
  { rewrite (AT1_restore_withdrawn locj H2). exact H3. }
  exists locj. split; [exact H1|]. split; [exact H2|]. split; [exact H3|].
  split; [exact H4|].
  intros T' Hv Hlo Hhi. eexists.
  split; [apply AT1_decide_hold; assumption|].
  simpl. split; [exact H4 | exact H3].
Qed.

Lemma AT1_withdrawal_remembers_witness :
  (5 < 10 /\ Forall (fun t => t < 10) [6; 7]) /\
  exists loc1,
    AT1.decide two_pop at1_vmin10 5 (AT1.Locals (3, 4) 100 50 100 0) = Ok loc1 /\
    AT1.dose loc1 = 0 /\
    AT1.lastNonZeroDose loc1 = 50.
Proof.
  assert (H1 : 5 < 10) by reflexivity.
  assert (H2 : Forall (fun t => t < 10) [6; 7]).
  { repeat constructor. }
  split; [split; assumption|].
  destruct (AT1_withdrawal_remembers two_pop at1_vmin10 5 [6; 7]
              (AT1.Locals (3, 4) 100 50 100 0) H1 H2)
    as [loc1 [E1 [E2 [E3 _]]]].
  exists loc1. split; [exact E1|]. split; [exact E2 | exact E3].
Defined.

(** ** The schedule driver *)

Tactic Notation "bind_inv" hyp(H) ident(x) ident(Hx) :=
  apply bind_Ok in H; destruct H as [x [Hx H]].

Lemma of_option_Ok {A} (e : pyexn) (o : option A) (a : A) :
  of_option e o = Ok a -> o = Some a.
Proof. destruct o; simpl; intros H; [injection H as ->; reflexivity | discriminate]. Qed.

Lemma py_last_Ok {A} (l : list A) (x d : A) :
  py_last l = Ok x -> l <> [] /\ last l d = x.
Proof.
  intros H. destruct l as [|a l]; [discriminate|].
  split; [discriminate|].
  rewrite (py_last_last (a :: l) d) in H by discriminate.
  injection H as H. exact H.
Qed.

(** What [check_solution] decides, in the words of [interval_failed]. *)
Lemma check_solution_problem (stab problem : bool) (sol : OdeResult) :
  fst (fst (check_solution stab problem sol))
  = problem || interval_failed stab sol.
Proof.
  unfold check_solution, interval_failed.
  destruct (success sol), (any_negative (y sol)), stab, problem; reflexivity.
Qed.

Lemma check_solution_kept (stab problem : bool) (sol : OdeResult) :
  interval_failed stab sol = false ->
  y (snd (check_solution stab problem sol)) = kept_y stab sol.
Proof.
  unfold check_solution, interval_failed, kept_y.
  destruct (success sol), (any_negative (y sol)), stab; simpl;
    intros H; try discriminate; reflexivity.
Qed.

Lemma add_TumourSize_map (theta : Q) (frame : list sol_row) :
  add_TumourSize frame (map (fun r => theta * np_sum (sr_vals r)) frame)
  = map (with_size theta) frame.
Proof.
  induction frame as [|r frame IH]; simpl; [reflexivity|].
  rewrite IH. reflexivity.
Qed.

Lemma RunCellCountToTumourSizeModel_Ok (self : ODEModel)
    (frame : list sol_row) (sizes : list Q) :
  RunCellCountToTumourSizeModel self frame = Ok sizes ->
  exists theta,
    as_num (dict_get_default "scaleFactor" (PNum 1) (paramDic self)) = Ok theta /\
    add_TumourSize frame sizes = map (with_size theta) frame /\
    Forall (fun r => List.length (sr_vals r) = List.length (stateVars self)) frame.
Proof.
  unfold RunCellCountToTumourSizeModel. intros H.
  destruct (forallb _ frame) eqn:Hall; [|discriminate].
  bind_inv H theta Ht. injection H as <-.
  exists theta. split; [exact Ht|]. split; [apply add_TumourSize_map|].
  apply Forall_forall. intros r Hr.
  rewrite forallb_forall in Hall. apply Nat.eqb_eq. apply Hall. exact Hr.
Qed.

Section DriverProperties.

Variable solve_ivp :
  model_class * dict -> list Q -> Q * Q -> list Q ->
  string -> Q -> Q -> ext -> result OdeResult.

(** One pass through the loop body is one solver call. *)
Lemma interval_body_Ok (self : ODEModel) (n i : nat) (iv : interval)
    (st st1 : loop_state) :
  interval_body solve_ivp self n i iv st = Ok st1 ->
  exists c,
    calls st1 = calls st ++ [c] /\
    c_interval c = iv /\
    c_y0 c = set_last (currStateVec st) (iv_dose iv) /\
    call_uses (config self) n c /\
    answered solve_ivp c /\
    encounteredProblemB st1
    = encounteredProblemB st
      || interval_failed (numericalStabilisationB (config self)) (c_result c) /\
    resultsDFList st1 = resultsDFList st /\
    tVec st1 = Some (c_t_eval c) /\
    c_t_eval c <> [] /\
    (interval_failed (numericalStabilisationB (config self)) (c_result c) = false ->
     exists sol',
       ls_solObj st1 = Some sol' /\
       y sol' = kept_y (numericalStabilisationB (config self)) (c_result c) /\
       well_shaped (y (c_result c)) (List.length (c_y0 c))
         (List.length (c_t_eval c)) = true).
Proof.
  unfold interval_body. intros H.
  bind_inv H grid Hgrid. bind_inv H y0 Hy0. bind_inv H f Hf.
  bind_inv H t0 Ht0. bind_inv H tl Htl. bind_inv H sol Hsol.
  destruct (success sol && negb (well_shaped (y sol) (List.length y0) (List.length grid)))
    eqn:Hshape; [discriminate|].
  pose proof (check_solution_problem (numericalStabilisationB (config self))
                (encounteredProblemB st) sol) as Hp.
  pose proof (check_solution_kept (numericalStabilisationB (config self))
                (encounteredProblemB st) sol) as Hk.
  destruct (check_solution (numericalStabilisationB (config self))
              (encounteredProblemB st) sol) as [[problem msg] sol'].
  simpl in Hp, Hk. injection H as <-. simpl.
  assert (Ey0 : y0 = set_last (currStateVec st) (iv_dose iv)).
  { destruct (currStateVec st); [discriminate|]. injection Hy0 as <-. reflexivity. }
  destruct (py_last_Ok grid tl 0 Htl) as [Hne Hlast].
  eexists. split; [reflexivity|]. simpl.
  split; [reflexivity|]. split; [exact Ey0|].
  split.
  { unfold call_uses. simpl.
    split; [reflexivity|]. split; [reflexivity|]. split; [reflexivity|].
    split; [reflexivity|]. split; [exists i; exact Hgrid|].
    split; [exact Hne|].
    rewrite Hlast. destruct grid as [|g0 grid]; [discriminate|].
    simpl in Ht0. injection Ht0 as <-. reflexivity. }
  split; [exact Hsol|]. split; [exact Hp|]. split; [reflexivity|].
  split; [reflexivity|]. split; [exact Hne|].
  intros Hok. exists sol'. split; [reflexivity|]. split; [apply Hk; exact Hok|].
  unfold interval_failed in Hok. apply orb_false_iff in Hok.
  destruct Hok as [Hs _]. apply negb_false_iff in Hs. rewrite Hs in Hshape.
  simpl in Hshape. apply negb_false_iff in Hshape. exact Hshape.
Qed.

Lemma mk_frame_Ok (vars : list string) (grid : list Q) (ys : list (list Q))
    (frame : list sol_row) :
  mk_frame vars grid ys = Ok frame ->
  frame = frame_rows grid (last ys []) (firstn (List.length vars) ys).
Proof.
  unfold mk_frame. intros H. bind_inv H drug Hd.
  destruct (py_last_Ok ys drug [] Hd) as [_ <-].
  destruct (forallb _ _); [|discriminate]. injection H as <-. reflexivity.
Qed.

Lemma save_results_Ok (self : ODEModel) (st st2 : loop_state)
    (grid : list Q) (sol : OdeResult) :
  tVec st = Some grid -> ls_solObj st = Some sol ->
  save_results self st = Ok st2 ->
  resultsDFList st2
  = resultsDFList st
    ++ [frame_rows grid (last (y sol) []) (firstn (List.length (stateVars self)) (y sol))] /\
  column_last (y sol) = Ok (currStateVec st2) /\
  encounteredProblemB st2 = encounteredProblemB st /\
  calls st2 = calls st /\ tVec st2 = tVec st.
Proof.
  unfold save_results. intros Hg Hs H. rewrite Hg, Hs in H. simpl in H.
  bind_inv H frame Hf. bind_inv H next Hn. injection H as <-. simpl.
  rewrite (mk_frame_Ok _ _ _ _ Hf).
  split; [reflexivity|]. split; [exact Hn|].
  split; [reflexivity|]. split; [reflexivity|]. symmetry. exact Hg.
Qed.

(** The interval loop: the calls it makes are the intervals of the schedule
    in order, up to and including the first that fails; the frames it keeps
    are those of the calls before the failing one. *)
Lemma run_intervals_Ok (self : ODEModel) (n : nat) :
  forall (ivs : list (nat * interval)) (st st' : loop_state),
  encounteredProblemB st = false ->
  run_intervals solve_ivp self n ivs st = Ok st' ->
  exists kept failing,
    calls st' = calls st ++ kept ++ failing /\
    Forall (fun c => interval_failed (numericalStabilisationB (config self))
                       (c_result c) = false) kept /\
    Forall (call_uses (config self) n) (kept ++ failing) /\
    Forall (answered solve_ivp) (kept ++ failing) /\
    map c_interval (kept ++ failing)
    = firstn (List.length (kept ++ failing)) (map snd ivs) /\
    resultsDFList st'
    = resultsDFList st
      ++ map (call_frame (stateVars self) (numericalStabilisationB (config self))) kept /\
    (forall c rest, kept ++ failing = c :: rest ->
       c_y0 c = set_last (currStateVec st) (iv_dose (c_interval c))) /\
    (kept ++ failing = [] -> tVec st' = tVec st) /\
    ((failing = [] /\ encounteredProblemB st' = false /\
      List.length kept = List.length ivs)
     \/ (exists c, failing = [c] /\
           interval_failed (numericalStabilisationB (config self)) (c_result c) = true /\
           encounteredProblemB st' = true /\
           tVec st' = Some (c_t_eval c))).
Proof.
  induction ivs as [|[i iv] rest IH]; intros st st' Hst H; simpl in H.
  - injection H as <-. exists [], []. simpl.
    split; [rewrite app_nil_r; reflexivity|]. split; [constructor|].
    split; [constructor|]. split; [constructor|]. split; [reflexivity|].
    split; [rewrite app_nil_r; reflexivity|].
    split; [intros c r E; discriminate|]. split; [reflexivity|].
    left. split; [reflexivity|]. split; [exact Hst | reflexivity].
  - bind_inv H st1 Hbody.
    destruct (interval_body_Ok _ _ _ _ _ _ Hbody)
      as [c [Hcalls [Hiv [Hy0 [Huse [Hans [Hprob [Hfr [Htv [_ Hkept]]]]]]]]]].
    rewrite Hst in Hprob. simpl in Hprob.
    destruct (encounteredProblemB st1) eqn:Hp1.
    + injection H as <-. exists [], [c]. simpl.
      split; [exact Hcalls|]. split; [constructor|].
      split; [constructor; [exact Huse | constructor]|].
      split; [constructor; [exact Hans | constructor]|].
      split; [rewrite Hiv; reflexivity|].
      split; [rewrite app_nil_r; exact Hfr|].
      split; [intros c0 r E; injection E as <- _; rewrite Hiv; exact Hy0|].
      split; [discriminate|].
      right. exists c. repeat split; auto.
    + bind_inv H st2 Hsave.
      destruct (Hkept (eq_sym Hprob)) as [sol' [Hsol' [Hy' _]]].
      destruct (save_results_Ok _ _ _ _ _ Htv Hsol' Hsave)
        as [Hfr2 [_ [Hp2 [Hc2 Htv2]]]].
      rewrite Hp1 in Hp2.
      destruct (IH st2 st' Hp2 H)
        as [kept [failing [Kcalls [Kok [Kuse [Kans [Kiv [Kfr [_ [_ Kend]]]]]]]]]].
      exists (c :: kept), failing. simpl.
      split; [rewrite Kcalls, Hc2, Hcalls, <- app_assoc; reflexivity|].
      split; [constructor; [symmetry; exact Hprob | exact Kok]|].
      split; [constructor; [exact Huse | exact Kuse]|].
      split; [constructor; [exact Hans | exact Kans]|].
      split; [rewrite Hiv, Kiv; reflexivity|].
      split.
      { rewrite Kfr, Hfr2, Hfr, <- app_assoc. simpl. unfold call_frame at 2.
        rewrite Htv in *. rewrite Hy'. reflexivity. }
      split; [intros c0 r E; injection E as <- _; rewrite Hiv; exact Hy0|].
      split; [discriminate|].
      destruct Kend as [[K1 [K2 K3]]|[c' [K1 [K2 [K3 K4]]]]].
      * left. repeat split; auto.
      * right. exists c'. repeat split; auto.
Qed.

Lemma enumerate_snd {A} (l : list A) : map snd (enumerate l) = l.
Proof.
  unfold enumerate. generalize 0%nat.
  induction l as [|x l IH]; intros k; simpl; [reflexivity|].
  rewrite IH. reflexivity.
Qed.

Lemma enumerate_length {A} (l : list A) :
  List.length (enumerate l) = List.length l.
Proof.
  unfold enumerate. rewrite length_combine, length_seq. apply Nat.min_id.
Qed.

(** [Simulate] taken apart: where it starts, which solver calls it makes,
    which rows it appends and what it leaves on the instance. *)
Lemma Simulate_trace_Ok (self : ODEModel) (sched : list interval)
    (kw : kwargs) (self' : ODEModel) (cs : list solver_call) :
  Simulate_trace solve_ivp self sched kw = Ok (self', cs) ->
  exists start old kept failing theta,
    start_state (configure self kw) sched = Ok (start, old) /\
    cs = kept ++ failing /\
    Forall (fun c =>
              interval_failed
                (numericalStabilisationB (config (configure self kw)))
                (c_result c) = false) kept /\
    Forall (call_uses (config (configure self kw)) (List.length sched)) cs /\
    Forall (answered solve_ivp) cs /\
    map c_interval cs = firstn (List.length cs) sched /\
    (forall c rest, cs = c :: rest ->
       c_y0 c = set_last start (iv_dose (c_interval c))) /\
    as_num (dict_get_default "scaleFactor" (PNum 1) (paramDic self)) = Ok theta /\
    ((failing = [] /\ kept <> [] /\ List.length kept = List.length sched /\
      successB self' = true)
     \/ (exists c, failing = [c] /\
           interval_failed
             (numericalStabilisationB (config (configure self kw)))
             (c_result c) = true /\
           successB self' = false)) /\
    resultsDf self'
    = Some (match old with
            | Some prev => prev
            | None => []
            end
            ++ block_of (stateVars self)
                 (numericalStabilisationB (config (configure self kw)))
                 theta kept failing) /\
    Forall (fun r => List.length (vals r) = List.length (stateVars self))
      (block_of (stateVars self)
         (numericalStabilisationB (config (configure self kw)))
         theta kept failing) /\
    config self' = config (configure self kw) /\
    paramDic self' = paramDic self /\
    stateVars self' = stateVars self /\
    initialStateList self' = initialStateList self /\
    cls self' = cls self.
Proof.
  unfold Simulate_trace. intros H.
  bind_inv H so Hstart. destruct so as [start old].
  bind_inv H st Hrun. bind_inv H block Hblock.
  injection H as <- <-.
  apply run_intervals_Ok in Hrun; [|reflexivity].
  destruct Hrun
    as [kept [failing [Kcalls [Kok [Kuse [Kans [Kiv [Kfr [Ky0 [Ktv Kend]]]]]]]]]].
  simpl in Kcalls, Kfr, Ky0, Ktv.
  rewrite enumerate_snd in Kiv.
  unfold new_block in Hblock. bind_inv Hblock frame Hframe.
  bind_inv Hblock sizes Hsizes. injection Hblock as <-.
  destruct (RunCellCountToTumourSizeModel_Ok _ _ _ Hsizes)
    as [theta [Htheta [Hadd Hwidth]]].
  simpl in Htheta.
  exists start, old, kept, failing, theta.
  split; [exact Hstart|]. split; [exact Kcalls|]. split; [exact Kok|].
  split; [rewrite Kcalls; exact Kuse|].
  split; [rewrite Kcalls; exact Kans|].
  split; [rewrite Kcalls; exact Kiv|].
  split; [rewrite Kcalls; exact Ky0|].
  split; [exact Htheta|].
  rewrite Kfr, length_map in Hframe.
  assert (Hfr : frame
                = match kept, failing with
                  | [], c :: _ => zero_frame (stateVars self) (c_t_eval c)
                  | _, _ => List.concat
                              (map (call_frame (stateVars self)
                                      (numericalStabilisationB
                                         (config (configure self kw)))) kept)
                  end
                /\ (kept = [] -> failing <> [])).
  { destruct kept as [|c0 kept].
    - simpl in Hframe. bind_inv Hframe grid Hg. injection Hframe as <-.
      apply of_option_Ok in Hg.
      destruct Kend as [[K1 _]|[c [K1 [_ [_ K4]]]]].
      + subst failing. rewrite (Ktv eq_refl) in Hg. discriminate.
      + subst failing. rewrite K4 in Hg. injection Hg as <-.
        split; [reflexivity | discriminate].
    - simpl in Hframe. injection Hframe as <-.
      split; [reflexivity | discriminate]. }
  destruct Hfr as [Hfr Hne].
  split.
  { destruct Kend as [[K1 [K2 K3]]|[c [K1 [K2 [K3 _]]]]].
    - left. split; [exact K1|]. split.
      + intros E. apply (Hne E). exact K1.
      + rewrite enumerate_length in K3.
        split; [exact K3|]. simpl. rewrite K2. reflexivity.
    - right. exists c. split; [exact K1|]. split; [exact K2|].
      simpl. rewrite K3. reflexivity. }
  split.
  { cbn [resultsDf]. unfold block_of. rewrite Hadd, Hfr.
    destruct old; reflexivity. }
  split.
  { unfold block_of. rewrite <- Hfr. apply Forall_map.
    revert Hwidth. apply Forall_impl. intros r Hr. exact Hr. }
  repeat split; reflexivity.
Qed.
End DriverProperties.

Lemma existsb_false_Forall {A} (f : A -> bool) (l : list A) :
  Forall (fun x => f x = false) l -> existsb f l = false.
Proof.
  induction 1 as [|x l Hx _ IH]; simpl; [reflexivity|].
  rewrite Hx, IH. reflexivity.
Qed.

(** C1.  When [Simulate] returns, with the solver calls [cs] it made (each
    the solver's own answer, on the intervals of the schedule in order), the
    flag [successB] is false if and only if one of the processed intervals
    failed: the solver reported non-convergence, or the solution held a
    negative value while [numericalStabilisationB] was off.  In particular,
    with stabilisation on and every solver call converging, the flag is
    true. *)
Theorem success_flag_iff_interval_failed
    (solve_ivp : model_class * dict -> list Q -> Q * Q -> list Q ->
                 string -> Q -> Q -> ext -> result OdeResult)
    (self : ODEModel) (sched : list interval) (kw : kwargs)
    (self' : ODEModel) (cs : list solver_call) :
  Simulate_trace solve_ivp self sched kw = Ok (self', cs) ->
  Simulate solve_ivp self sched kw = Ok self' /\
  Forall (answered solve_ivp) cs /\
  map c_interval cs = firstn (List.length cs) sched /\
  (successB self' = false <->
   exists c, In c cs /\
     (success (c_result c) = false \/
      (any_negative (y (c_result c)) = true /\
       numericalStabilisationB (config self') = false))) /\
  (numericalStabilisationB (config self') = true ->
   Forall (fun c => success (c_result c) = true) cs ->
   successB self' = true).
Proof.
  intros H.
  assert (HS : Simulate solve_ivp self sched kw = Ok self').
  { unfold Simulate. rewrite H. reflexivity. }
  destruct (Simulate_trace_Ok solve_ivp _ _ _ _ _ H)
    as (start & old & kept & failing & theta & _ & Hcs & Hok & _ & Hans
        & Hiv & _ & _ & Hend & _ & _ & Hcfg & _).
  rewrite Hcfg.
  set (stab := numericalStabilisationB (config (configure self kw))) in *.
  assert (Hfail : forall c,
            interval_failed stab (c_result c) = true <->
            (success (c_result c) = false \/
             (any_negative (y (c_result c)) = true /\ stab = false))).
  { intros c. unfold interval_failed.
    rewrite orb_true_iff, andb_true_iff, !negb_true_iff. reflexivity. }
  split; [exact HS|]. split; [exact Hans|]. split; [exact Hiv|].
  split; [split|].
  - intros Hflag.
    destruct Hend as [[_ [_ [_ Hs]]]|[c [Hf [Hc _]]]]; [congruence|].
    exists c. split; [|apply Hfail; exact Hc].
    rewrite Hcs, Hf. apply in_or_app. right. left. reflexivity.
  - intros [c [Hin Hc]]. apply Hfail in Hc.
    destruct Hend as [[Hf [_ [_ Hs]]]|[c' [_ [_ Hs]]]]; [|exact Hs].
    exfalso. rewrite Hcs, Hf, app_nil_r in Hin.
    rewrite Forall_forall in Hok. rewrite (Hok c Hin) in Hc. discriminate.
  - intros Hstab Hall.
    destruct Hend as [[_ [_ [_ Hs]]]|[c [Hf [Hc _]]]]; [exact Hs|].
    exfalso. apply Hfail in Hc.
    assert (Hin : In c cs).
    { rewrite Hcs, Hf. apply in_or_app. right. left. reflexivity. }
    rewrite Forall_forall in Hall. specialize (Hall c Hin).
    destruct Hc as [Hc|[_ Hc]]; congruence.
Qed.

Lemma set_last_app {A} (l : list A) (x v : A) :
  set_last (l ++ [x]) v = l ++ [v].
Proof. unfold set_last. rewrite removelast_last. reflexivity. Qed.

Lemma configure_fields (self : ODEModel) (kw : kwargs) :
  resultsDf (configure self kw) = resultsDf self /\
  initialStateList (configure self kw) = initialStateList self /\
  stateVars (configure self kw) = stateVars self /\
  paramDic (configure self kw) = paramDic self.
Proof. repeat split. Qed.

(** C4.  When [Simulate] returns, it made at least one solver call; call the
    first one [c] and the new rows [block].
    - Without a record so far, or with a schedule whose first interval starts
      at time 0: the state vector is the initial state list with a 0 in the
      concentration slot, the solver starts from it with the dose of the
      interval written to that slot, and the record afterwards is the new
      block alone (what was accumulated before is discarded).
    - Otherwise: the state vector is the state-variable values and the
      [DrugConcentration] of the last recorded row, the solver starts from
      it likewise, and the new block is appended to the record. *)
Theorem Simulate_starting_state
    (solve_ivp : model_class * dict -> list Q -> Q * Q -> list Q ->
                 string -> Q -> Q -> ext -> result OdeResult)
    (self : ODEModel) (sched : list interval) (kw : kwargs)
    (self' : ODEModel) (cs : list solver_call) :
  Simulate_trace solve_ivp self sched kw = Ok (self', cs) ->
  exists c rest kept failing theta,
    cs = c :: rest /\ cs = kept ++ failing /\
    let block :=
      block_of (stateVars self) (numericalStabilisationB (config self'))
        theta kept failing in
    ((resultsDf self = None \/
      exists iv more, sched = iv :: more /\ iv_start iv == 0) ->
     exists init,
       initialStateList self = Some init /\
       start_state (configure self kw) sched = Ok (init ++ [0], None) /\
       c_y0 c = init ++ [iv_dose (c_interval c)] /\
       resultsDf self' = Some block) /\
    (forall df iv more,
       resultsDf self = Some df -> sched = iv :: more -> ~ iv_start iv == 0 ->
       exists r,
         py_last df = Ok r /\
         start_state (configure self kw) sched
         = Ok (firstn (List.length (stateVars self)) (vals r)
                 ++ [DrugConcentration r], Some df) /\
         c_y0 c = firstn (List.length (stateVars self)) (vals r)
                    ++ [iv_dose (c_interval c)] /\
         resultsDf self' = Some (df ++ block)).
Proof.
  intros H.
  destruct (Simulate_trace_Ok solve_ivp _ _ _ _ _ H)
    as (start & old & kept & failing & theta & Hstart & Hcs & _ & _ & _ & _
        & Hy0 & _ & Hend & Hdf & _ & Hcfg & _).
  assert (Hne : exists c rest, cs = c :: rest).
  { destruct cs as [|c rest]; [|eauto]. exfalso.
    symmetry in Hcs. apply app_eq_nil in Hcs. destruct Hcs as [Hk Hf].
    destruct Hend as [[_ [Hk' _]]|[c [Hf' _]]]; congruence. }
  destruct Hne as [c [rest Hc]].
  exists c, rest, kept, failing, theta.
  split; [exact Hc|]. split; [exact Hcs|].
  rewrite Hcfg. cbv zeta.
  specialize (Hy0 c rest Hc).
  unfold start_state in Hstart.
  destruct (configure_fields self kw) as [E1 [E2 [E3 _]]].
  rewrite E1, E2, E3 in Hstart.
  split.
  - intros Hcase.
    assert (Hfresh : (init <- of_option AttributeError (initialStateList self) ;;
                      Ok (init ++ [0], @None DataFrame)) = Ok (start, old)).
    { destruct Hcase as [Hnone|[iv [more [Hs Hz]]]].
      - rewrite Hnone in Hstart. exact Hstart.
      - destruct (resultsDf self); [|exact Hstart].
        rewrite Hs in Hstart. simpl in Hstart.
        apply Qeq_bool_iff in Hz. rewrite Hz in Hstart. exact Hstart. }
    bind_inv Hfresh init Hinit. apply of_option_Ok in Hinit.
    injection Hfresh as <- <-.
    exists init. split; [exact Hinit|].
    split.
    { unfold start_state. rewrite E1, E2.
      destruct Hcase as [Hnone|[iv [more [Hs Hz]]]].
      - rewrite Hnone, Hinit. reflexivity.
      - destruct (resultsDf self); [|rewrite Hinit; reflexivity].
        rewrite Hs. simpl. apply Qeq_bool_iff in Hz. rewrite Hz, Hinit.
        reflexivity. }
    split; [rewrite Hy0; apply set_last_app|].
    exact Hdf.
  - intros df iv more Hrec Hs Hnz.
    rewrite Hrec, Hs in Hstart. simpl in Hstart.
    destruct (Qeq_bool (iv_start iv) 0) eqn:Hz.
    { exfalso. apply Hnz. apply Qeq_bool_iff. exact Hz. }
    bind_inv Hstart r Hr.
    destruct (List.length (vals r) <? List.length (stateVars self))%nat eqn:Hw;
      [discriminate|].
    injection Hstart as <- <-.
    exists r. split; [exact Hr|].
    split.
    { unfold start_state. rewrite E1, E3, Hrec, Hs. simpl.
      rewrite Hz, Hr. simpl. rewrite Hw. reflexivity. }
    split; [rewrite Hy0; apply set_last_app|].
    exact Hdf.
Qed.

Lemma Simulate_Ok_trace
    (solve_ivp : model_class * dict -> list Q -> Q * Q -> list Q ->
                 string -> Q -> Q -> ext -> result OdeResult)
    (self : ODEModel) (sched : list interval) (kw : kwargs) (self' : ODEModel) :
  Simulate solve_ivp self sched kw = Ok self' ->
  exists cs, Simulate_trace solve_ivp self sched kw = Ok (self', cs).
Proof.
  unfold Simulate. intros H. bind_inv H p Hp. destruct p as [m cs].
  injection H as <-. exists cs. exact Hp.
Qed.

Lemma configure_no_kwargs (self : ODEModel) :
  config (configure self no_kwargs) = config self.
Proof. unfold configure. simpl. destruct (config self). reflexivity. Qed.

(** C10.  The solver keywords of a [Simulate] call are written to the
    instance: after the call each configuration attribute holds the keyword
    of the call where one was given and its previous value otherwise.  A
    later call without keywords leaves the configuration as it is and makes
    every solver call with it: method, tolerances and maximum step are
    passed to the solver, the grid is built with [dt], and failure is judged
    with [numericalStabilisationB]. *)
Theorem solver_overrides_persist
    (solve_ivp : model_class * dict -> list Q -> Q * Q -> list Q ->
                 string -> Q -> Q -> ext -> result OdeResult)
    (self : ODEModel) (s1 : list interval) (kw1 : kwargs) (self1 : ODEModel)
    (s2 : list interval) (self2 : ODEModel) (cs2 : list solver_call) :
  Simulate solve_ivp self s1 kw1 = Ok self1 ->
  Simulate_trace solve_ivp self1 s2 no_kwargs = Ok (self2, cs2) ->
  config self1
  = SolverConfig (kw_get (kw_dt kw1) (dt (config self)))
      (kw_get (kw_absErr kw1) (absErr (config self)))
      (kw_get (kw_relErr kw1) (relErr (config self)))
      (kw_get (kw_method kw1) (solverMethod (config self)))
      (kw_get (kw_max_step kw1) (max_step (config self)))
      (kw_get (kw_numericalStabilisationB kw1)
         (numericalStabilisationB (config self)))
      (kw_get (kw_suppressOutputB kw1) (suppressOutputB (config self))) /\
  config self2 = config self1 /\
  Forall (call_uses (config self1) (List.length s2)) cs2 /\
  (successB self2 = false <->
   exists c, In c cs2 /\
     interval_failed (numericalStabilisationB (config self1)) (c_result c)
     = true).
Proof.
  intros H1 H2.
  destruct (Simulate_Ok_trace solve_ivp _ _ _ _ H1) as [cs1 H1'].
  destruct (Simulate_trace_Ok solve_ivp _ _ _ _ _ H1')
    as (_ & _ & _ & _ & _ & _ & _ & _ & _ & _ & _ & _ & _ & _ & _ & _
        & Hcfg1 & _).
  destruct (Simulate_trace_Ok solve_ivp _ _ _ _ _ H2)
    as (start & old & kept & failing & theta & _ & Hcs & Hok & Huse & _ & _
        & _ & _ & Hend & _ & _ & Hcfg2 & _).
  rewrite configure_no_kwargs in Hcfg2, Huse, Hok, Hend.
  split; [rewrite Hcfg1; reflexivity|].
  split; [exact Hcfg2|]. split; [exact Huse|].
  split.
  - intros Hflag.
    destruct Hend as [[_ [_ [_ Hs]]]|[c [Hf [Hc _]]]]; [congruence|].
    exists c. split; [|exact Hc].
    rewrite Hcs, Hf. apply in_or_app. right. left. reflexivity.
  - intros [c [Hin Hc]].
    destruct Hend as [[Hf [_ [_ Hs]]]|[c' [_ [_ Hs]]]]; [|exact Hs].
    exfalso. rewrite Hcs, Hf, app_nil_r in Hin.
    rewrite Forall_forall in Hok. rewrite (Hok c Hin) in Hc. discriminate.
Qed.


Lemma example_model_instance : example_model kw_dt1 = Ok example_instance.
Proof. reflexivity. Qed.

Lemma success_flag_iff_interval_failed_witness :
  exists self' cs,
    Simulate_trace (diverging_from 1) example_instance three_intervals no_kwargs
    = Ok (self', cs) /\
    Simulate (diverging_from 1) example_instance three_intervals no_kwargs
    = Ok self' /\
    successB self' = false /\ List.length cs = 2%nat.
Proof.
  eexists. eexists.
  eassert (H : Simulate_trace (diverging_from 1) example_instance
                three_intervals no_kwargs = Ok (?[m], ?[cs])).
  { vm_compute. reflexivity. }
  split; [exact H|].
  split; [exact (proj1 (success_flag_iff_interval_failed _ _ _ _ _ _ H))|].
  split; reflexivity.
Defined.

Lemma Simulate_starting_state_witness :
  exists self' cs,
    Simulate_trace constant_solver example_instance three_intervals no_kwargs
    = Ok (self', cs) /\
    exists c rest, cs = c :: rest /\ c_y0 c = [99; 1; 5].
Proof.
  eexists. eexists.
  eassert (H : Simulate_trace constant_solver example_instance
                three_intervals no_kwargs = Ok (?[m], ?[cs])).
  { vm_compute. reflexivity. }
  split; [exact H|].
  destruct (Simulate_starting_state _ _ _ _ _ _ H)
    as (c & rest & kept & failing & theta & Hc & _).
  exists c, rest. split; [exact Hc|].
  injection Hc as <- _. reflexivity.
Defined.

Lemma solver_overrides_persist_witness :
  exists self1 self2 cs2,
    Simulate constant_solver example_instance [Interval 0 1 5] kw_half_step
    = Ok self1 /\
    Simulate_trace constant_solver self1 [Interval 1 2 0] no_kwargs
    = Ok (self2, cs2) /\
    config self2 = config self1 /\
    dt (config self1) = 1 # 2 /\
    numericalStabilisationB (config self1) = true.
Proof.
  eexists. eexists. eexists.
  eassert (H1 : Simulate constant_solver example_instance [Interval 0 1 5]
                 kw_half_step = Ok ?[m1]).
  { vm_compute. reflexivity. }
  lazymatch type of H1 with
  | _ = Ok ?m =>
      eassert (H2 : Simulate_trace constant_solver m [Interval 1 2 0] no_kwargs
                    = Ok (?[m2], ?[cs2]))
  end.
  { vm_compute. reflexivity. }
  split; [exact H1|]. split; [exact H2|].
  split; [exact (proj1 (proj2 (solver_overrides_persist _ _ _ _ _ _ _ _ H1 H2)))|].
  split; reflexivity.
Defined.

Lemma np_sum_zeros (n : nat) : np_sum (repeat 0 n) == 0.
Proof.
  induction n as [|n IH]; simpl; [reflexivity|]. rewrite IH. reflexivity.
Qed.

(** What [Simulate] does at the first failing interval, when it returns: the
    solver calls are the intervals up to the failing one and no later one;
    the rows appended are those of the intervals before it; when the first
    interval fails, they are one row for each point of its grid, zero in
    every column but [Time]. *)
Lemma Simulate_first_failure
    (solve_ivp : model_class * dict -> list Q -> Q * Q -> list Q ->
                 string -> Q -> Q -> ext -> result OdeResult)
    (self : ODEModel) (sched : list interval) (kw : kwargs)
    (self' : ODEModel) (cs : list solver_call) :
  Simulate_trace solve_ivp self sched kw = Ok (self', cs) ->
  successB self' = false ->
  exists kept c theta start old block,
    cs = kept ++ [c] /\
    Forall (fun c' =>
              interval_failed (numericalStabilisationB (config self'))
                (c_result c') = false) kept /\
    interval_failed (numericalStabilisationB (config self')) (c_result c) = true /\
    map c_interval cs = firstn (S (List.length kept)) sched /\
    start_state (configure self kw) sched = Ok (start, old) /\
    resultsDf self'
    = Some (match old with Some prev => prev | None => [] end ++ block) /\
    (kept <> [] ->
     block
     = map (with_size theta)
         (List.concat
            (map (call_frame (stateVars self)
                    (numericalStabilisationB (config self'))) kept))) /\
    (kept = [] ->
     block <> [] /\
     map Time block = c_t_eval c /\
     Forall (fun r =>
               DrugConcentration r = 0 /\
               vals r = repeat 0 (List.length (stateVars self)) /\
               TumourSize r == 0) block).
Proof.
  intros H Hflag.
  destruct (Simulate_trace_Ok solve_ivp _ _ _ _ _ H)
    as (start & old & kept & failing & theta & Hstart & Hcs & Hok & Huse & _
        & Hiv & _ & _ & Hend & Hdf & Hwidth & Hcfg & _).
  destruct Hend as [[_ [_ [_ Hs]]]|[c [Hf [Hc _]]]]; [congruence|].
  subst failing. rewrite Hcfg.
  exists kept, c, theta, start, old,
    (block_of (stateVars self)
       (numericalStabilisationB (config (configure self kw))) theta kept [c]).
  split; [exact Hcs|]. split; [exact Hok|]. split; [exact Hc|].
  split.
  { rewrite Hiv, Hcs, length_app. simpl. rewrite Nat.add_1_r. reflexivity. }
  split; [exact Hstart|]. split; [exact Hdf|].
  split.
  { intros Hne. unfold block_of. destruct kept; [congruence | reflexivity]. }
  intros ->. unfold block_of in *. simpl in *.
  assert (Hgrid : c_t_eval c <> []).
  { rewrite Forall_forall in Huse.
    assert (Hu : call_uses (config (configure self kw)) (List.length sched) c).
    { apply Huse. rewrite Hcs. left. reflexivity. }
    apply Hu. }
  split.
  { destruct (c_t_eval c); [congruence | discriminate]. }
  split.
  { unfold zero_frame. rewrite !map_map. simpl. apply map_id. }
  rewrite Forall_forall in Hwidth. apply Forall_forall. intros r Hr.
  specialize (Hwidth r Hr).
  unfold zero_frame in Hr. rewrite map_map in Hr. apply in_map_iff in Hr.
  destruct Hr as [t [<- _]]. simpl in *.
  rewrite repeat_length in Hwidth. rewrite Hwidth.
  split; [reflexivity|]. split; [reflexivity|].
  rewrite np_sum_zeros. ring.
Qed.

(** C2 (code defect, evaluated).  With [dt = 1] the grid of the non-final
    first interval [(0, 1)] has the single point [0]; when the solver
    diverges there, the frame of zeros gets a column for the first state
    variable only, and [RunCellCountToTumourSizeModel] raises a [KeyError]
    on the missing column of the second: no zero block is appended.  With a
    grid of two points the zero block is appended as the comment in the
    source says. *)
Theorem zero_block_short_grid_raises :
  time_grid 1 0 2 (Interval 0 1 5) = Ok [0] /\
  map sr_vals (zero_frame (stateVars example_instance) [0]) = [[0]] /\
  Simulate (diverging_from 0) example_instance
    [Interval 0 1 5; Interval 1 2 0] no_kwargs = Raise KeyError /\
  (exists self',
     Simulate (diverging_from 0) example_instance
       [Interval 0 2 5; Interval 2 4 0] no_kwargs = Ok self' /\
     successB self' = false /\
     resultsDf self' = Some [Row 0 0 [0; 0] 0; Row 1 0 [0; 0] 0]).
Proof.
  split; [reflexivity|]. split; [reflexivity|]. split; [reflexivity|].
  eexists. split; [vm_compute; reflexivity|]. split; reflexivity.
Qed.

(** ** Removal of duplicate rows *)

Lemma Qeq_bool_comm (x z : Q) : Qeq_bool x z = Qeq_bool z x.
Proof. unfold Qeq_bool. apply Z.eqb_sym. Qed.

Lemma list_Qeqb_refl (l : list Q) : list_Qeqb l l = true.
Proof.
  induction l as [|x l IH]; simpl; [reflexivity|].
  rewrite Qeq_bool_refl, IH. reflexivity.
Qed.

Lemma list_Qeqb_sym (l1 : list Q) : forall l2, list_Qeqb l1 l2 = list_Qeqb l2 l1.
Proof.
  induction l1 as [|x l1 IH]; intros [|z l2]; simpl; try reflexivity.
  rewrite Qeq_bool_comm, IH. reflexivity.
Qed.

Lemma list_Qeqb_trans (l1 : list Q) : forall l2 l3,
  list_Qeqb l1 l2 = true -> list_Qeqb l2 l3 = true -> list_Qeqb l1 l3 = true.
Proof.
  induction l1 as [|x l1 IH]; intros [|z l2] [|w l3]; simpl;
    try reflexivity; try discriminate.
  rewrite !andb_true_iff. intros [H1 H2] [H3 H4]. split.
  - apply Qeq_bool_trans with z; assumption.
  - apply IH with l2; assumption.
Qed.

Lemma row_eqb_refl (r : row) : row_eqb r r = true.
Proof.
  unfold row_eqb. rewrite !Qeq_bool_refl, list_Qeqb_refl. reflexivity.
Qed.

Lemma row_eqb_sym (r1 r2 : row) : row_eqb r1 r2 = row_eqb r2 r1.
Proof.
  unfold row_eqb.
  rewrite (Qeq_bool_comm (Time r1)), (Qeq_bool_comm (DrugConcentration r1)),
    (Qeq_bool_comm (TumourSize r1)), (list_Qeqb_sym (vals r1)).
  reflexivity.
Qed.

Lemma row_eqb_trans (r1 r2 r3 : row) :
  row_eqb r1 r2 = true -> row_eqb r2 r3 = true -> row_eqb r1 r3 = true.
Proof.
  unfold row_eqb. rewrite !andb_true_iff.
  intros [[[A1 A2] A3] A4] [[[B1 B2] B3] B4].
  repeat split.
  - apply Qeq_bool_trans with (Time r2); assumption.
  - apply Qeq_bool_trans with (DrugConcentration r2); assumption.
  - apply list_Qeqb_trans with (vals r2); assumption.
  - apply Qeq_bool_trans with (TumourSize r2); assumption.
Qed.

Lemma row_eqb_Time (r1 r2 : row) : row_eqb r1 r2 = true -> Time r1 == Time r2.
Proof.
  unfold row_eqb. rewrite !andb_true_iff. intros [[[A1 _] _] _].
  apply Qeq_bool_iff. exact A1.
Qed.

(** Every row kept is a row of the frame, and no duplicate of a row seen. *)
Lemma drop_duplicates_from_In (df : DataFrame) : forall seen r,
  In r (drop_duplicates_from seen df) ->
  In r df /\ existsb (row_eqb r) seen = false.
Proof.
  induction df as [|r0 df IH]; intros seen r H; simpl in H; [contradiction|].
  destruct (existsb (row_eqb r0) seen) eqn:E.
  - destruct (IH _ _ H) as [H1 H2]. split; [right; exact H1 | exact H2].
  - destruct H as [<-|H].
    + split; [left; reflexivity | exact E].
    + destruct (IH _ _ H) as [H1 H2]. simpl in H2.
      apply orb_false_iff in H2. split; [right; exact H1 | apply H2].
Qed.

(** Every row of the frame has a duplicate among the rows seen or kept. *)
Lemma drop_duplicates_from_covers (df : DataFrame) : forall seen r,
  In r df ->
  (exists s, In s seen /\ row_eqb r s = true)
  \/ (exists r', In r' (drop_duplicates_from seen df) /\ row_eqb r r' = true).
Proof.
  induction df as [|r0 df IH]; intros seen r H; [contradiction|]. simpl.
  destruct (existsb (row_eqb r0) seen) eqn:E.
  - destruct H as [<-|H]; [|apply IH; exact H].
    left. apply existsb_exists in E. exact E.
  - destruct H as [<-|H].
    + right. exists r0. split; [left; reflexivity | apply row_eqb_refl].
    + destruct (IH (r0 :: seen) r H) as [[s [[<-|Hs] Hrs]]|[r' [Hr' Hrr']]].
      * right. exists r0. split; [left; reflexivity | exact Hrs].
      * left. exists s. split; assumption.
      * right. exists r'. split; [right; exact Hr' | exact Hrr'].
Qed.

(** No two rows kept are duplicates of each other. *)
Lemma drop_duplicates_from_distinct (df : DataFrame) : forall seen,
  ForallOrdPairs (fun r1 r2 => row_eqb r1 r2 = false)
    (drop_duplicates_from seen df).
Proof.
  induction df as [|r0 df IH]; intros seen; simpl; [constructor|].
  destruct (existsb (row_eqb r0) seen); [apply IH|].
  constructor; [|apply IH].
  apply Forall_forall. intros r2 H2.
  apply drop_duplicates_from_In in H2. destruct H2 as [_ H2]. simpl in H2.
  apply orb_false_iff in H2. rewrite row_eqb_sym. apply H2.
Qed.

Lemma ForallOrdPairs_filter {A} (R : A -> A -> Prop) (p : A -> bool)
    (l : list A) :
  ForallOrdPairs R l -> ForallOrdPairs R (filter p l).
Proof.
  induction 1 as [|a l Ha _ IH]; simpl; [constructor|].
  destruct (p a); [|exact IH].
  constructor; [|exact IH].
  apply Forall_forall. intros x Hx. apply filter_In in Hx.
  rewrite Forall_forall in Ha. apply Ha. apply Hx.
Qed.

Lemma two_members_length {A} (l : list A) (a b : A) :
  In a l -> In b l -> a <> b -> (2 <= List.length l)%nat.
Proof.
  destruct l as [|x [|z l]]; simpl; intros Ha Hb Hab; try contradiction.
  - destruct Ha as [<-|[]], Hb as [<-|[]]. congruence.
  - lia.
Qed.

Lemma rows_at_In (t : Q) (df : DataFrame) (r : row) :
  In r df -> Time r == t -> In r (filter (fun r => Qeq_bool (Time r) t) df).
Proof.
  intros H Ht. apply filter_In. split; [exact H|].
  apply Qeq_bool_iff. exact Ht.
Qed.

(** The properties of [drop_duplicates] that the record relies on. *)
Lemma drop_duplicates_spec (df : DataFrame) :
  incl (drop_duplicates df) df /\
  (forall r, In r df ->
     exists r', In r' (drop_duplicates df) /\ row_eqb r r' = true) /\
  ForallOrdPairs (fun r1 r2 => row_eqb r1 r2 = false) (drop_duplicates df) /\
  (forall t r1 r2,
     In r1 df -> In r2 df -> Time r1 == t -> Time r2 == t ->
     row_eqb r1 r2 = false ->
     (2 <= rows_at t (drop_duplicates df))%nat) /\
  (forall t r,
     In r df -> Time r == t ->
     (forall r', In r' df -> Time r' == t -> row_eqb r' r = true) ->
     rows_at t (drop_duplicates df) = 1%nat).
Proof.
  unfold drop_duplicates.
  assert (Hin : incl (drop_duplicates_from [] df) df).
  { intros r Hr. apply drop_duplicates_from_In in Hr. apply Hr. }
  assert (Hcov : forall r, In r df ->
            exists r', In r' (drop_duplicates_from [] df) /\ row_eqb r r' = true).
  { intros r Hr.
    destruct (drop_duplicates_from_covers df [] r Hr) as [[s [[] _]]|H].
    exact H. }
  pose proof (drop_duplicates_from_distinct df []) as Hdis.
  split; [exact Hin|]. split; [exact Hcov|]. split; [exact Hdis|].
  split.
  - intros t r1 r2 H1 H2 T1 T2 Hne.
    destruct (Hcov r1 H1) as [r1' [K1 E1]].
    destruct (Hcov r2 H2) as [r2' [K2 E2]].
    unfold rows_at. apply two_members_length with r1' r2'.
    + apply rows_at_In; [exact K1|]. rewrite <- (row_eqb_Time _ _ E1). exact T1.
    + apply rows_at_In; [exact K2|]. rewrite <- (row_eqb_Time _ _ E2). exact T2.
    + intros E. subst r2'.
      assert (Hx : row_eqb r1 r2 = true).
      { apply row_eqb_trans with r1'; [exact E1|].
        rewrite row_eqb_sym. exact E2. }
      congruence.
  - intros t r Hr Ht Hall.
    destruct (Hcov r Hr) as [r' [K E]].
    pose proof (rows_at_In t _ r' K) as Hmem.
    assert (Tr' : Time r' == t) by (rewrite <- (row_eqb_Time _ _ E); exact Ht).
    specialize (Hmem Tr').
    pose proof (ForallOrdPairs_filter _ (fun r => Qeq_bool (Time r) t) _ Hdis)
      as Hf.
    unfold rows_at.
    assert (Hsub : forall x,
              In x (filter (fun r => Qeq_bool (Time r) t)
                      (drop_duplicates_from [] df)) ->
              row_eqb x r = true).
    { intros x Hx. apply filter_In in Hx. destruct Hx as [Hx Hxt].
      apply Hall; [apply Hin; exact Hx | apply Qeq_bool_iff; exact Hxt]. }
    destruct (filter (fun r => Qeq_bool (Time r) t) (drop_duplicates_from [] df))
      as [|a [|b l]]; [contradiction | reflexivity|].
    exfalso. inversion Hf as [|? ? Ha _]; subst.
    inversion Ha as [|? ? Hab _]; subst.
    assert (Hx : row_eqb a b = true).
    { apply row_eqb_trans with r; [apply Hsub; left; reflexivity|].
      rewrite row_eqb_sym. apply Hsub. right. left. reflexivity. }
    congruence.
Qed.

(** Each controller ends with [clean_up] on the instance its loop left. *)
Lemma Simulate_AT1_clean_up solve_ivp fuel self a self' applied :
  AT1.Simulate_AT1 solve_ivp fuel self a = Finished (self', applied) ->
  exists loc self0 loc' df,
    AT1.setup self a = Ok loc /\
    AT1.loop solve_ivp fuel a self loc [] = Finished (self0, loc', applied) /\
    resultsDf self0 = Some df /\
    resultsDf self' = Some (drop_duplicates df).
Proof.
  unfold AT1.Simulate_AT1. intros H.
  destruct (AT1.setup self a) as [loc|]; [|discriminate].
  destruct (AT1.loop solve_ivp fuel a self loc []) as [[[self0 loc'] app]| |]
    eqn:Hloop; try discriminate.
  unfold clean_up in H. destruct (resultsDf self0) as [df|] eqn:Hdf;
    [|discriminate].
  simpl in H. injection H as <- <-.
  exists loc, self0, loc', df.
  split; [reflexivity|]. split; [exact Hloop|]. split; [exact Hdf | reflexivity].
Qed.

Lemma Simulate_AT2_clean_up solve_ivp fuel self a self' applied :
  AT2.Simulate_AT2 solve_ivp fuel self a = Finished (self', applied) ->
  exists loc self0 loc' df,
    AT2.setup self a = Ok loc /\
    AT2.loop solve_ivp fuel a self loc [] = Finished (self0, loc', applied) /\
    resultsDf self0 = Some df /\
    resultsDf self' = Some (drop_duplicates df).
Proof.
  unfold AT2.Simulate_AT2. intros H.
  destruct (AT2.setup self a) as [loc|]; [|discriminate].
  destruct (AT2.loop solve_ivp fuel a self loc []) as [[[self0 loc'] app]| |]
    eqn:Hloop; try discriminate.
  unfold clean_up in H. destruct (resultsDf self0) as [df|] eqn:Hdf;
    [|discriminate].
  simpl in H. injection H as <- <-.
  exists loc, self0, loc', df.
  split; [reflexivity|]. split; [exact Hloop|]. split; [exact Hdf | reflexivity].
Qed.

Lemma Simulate_AT50_clean_up solve_ivp fuel self a self' applied :
  AT50.Simulate_AT50 solve_ivp fuel self a = Finished (self', applied) ->
  exists loc self0 loc' df,
    AT50.setup self a = Ok loc /\
    AT50.loop solve_ivp fuel a self loc [] = Finished (self0, loc', applied) /\
    resultsDf self0 = Some df /\
    resultsDf self' = Some (drop_duplicates df).
Proof.
  unfold AT50.Simulate_AT50. intros H.
  destruct (AT50.setup self a) as [loc|]; [|discriminate].
  destruct (AT50.loop solve_ivp fuel a self loc []) as [[[self0 loc'] app]| |]
    eqn:Hloop; try discriminate.
  unfold clean_up in H. destruct (resultsDf self0) as [df|] eqn:Hdf;
    [|discriminate].
  simpl in H. injection H as <- <-.
  exists loc, self0, loc', df.
  split; [reflexivity|]. split; [exact Hloop|]. split; [exact Hdf | reflexivity].
Qed.

(** C7 (amended).  Each controller, when it finishes, replaces the record
    that its loop accumulated by [drop_duplicates] of it.  That keeps only
    rows of the record, keeps for every row a row equal to it in every
    column, and keeps no two rows that are equal in every column.  So a
    boundary time [t] has exactly one row afterwards when all rows recorded
    at [t] agree in every column, and at least two rows when two rows
    recorded at [t] differ in some column, as the last row of one call and
    the first row of the next do in [DrugConcentration] when the dose
    changes between the two calls. *)
Theorem controllers_drop_exact_duplicates :
  (forall solve_ivp fuel self a self' applied,
     AT1.Simulate_AT1 solve_ivp fuel self a = Finished (self', applied) ->
     exists loc self0 loc' df,
       AT1.setup self a = Ok loc /\
       AT1.loop solve_ivp fuel a self loc [] = Finished (self0, loc', applied) /\
       resultsDf self0 = Some df /\
       resultsDf self' = Some (drop_duplicates df)) /\
  (forall solve_ivp fuel self a self' applied,
     AT2.Simulate_AT2 solve_ivp fuel self a = Finished (self', applied) ->
     exists loc self0 loc' df,
       AT2.setup self a = Ok loc /\
       AT2.loop solve_ivp fuel a self loc [] = Finished (self0, loc', applied) /\
       resultsDf self0 = Some df /\
       resultsDf self' = Some (drop_duplicates df)) /\
  (forall solve_ivp fuel self a self' applied,
     AT50.Simulate_AT50 solve_ivp fuel self a = Finished (self', applied) ->
     exists loc self0 loc' df,
       AT50.setup self a = Ok loc /\
       AT50.loop solve_ivp fuel a self loc [] = Finished (self0, loc', applied) /\
       resultsDf self0 = Some df /\
       resultsDf self' = Some (drop_duplicates df)) /\
  (forall df : DataFrame,
     incl (drop_duplicates df) df /\
     (forall r, In r df ->
        exists r', In r' (drop_duplicates df) /\ row_eqb r r' = true) /\
     ForallOrdPairs (fun r1 r2 => row_eqb r1 r2 = false) (drop_duplicates df) /\
     (forall t r1 r2,
        In r1 df -> In r2 df -> Time r1 == t -> Time r2 == t ->
        row_eqb r1 r2 = false ->
        (2 <= rows_at t (drop_duplicates df))%nat) /\
     (forall t r,
        In r df -> Time r == t ->
        (forall r', In r' df -> Time r' == t -> row_eqb r' r = true) ->
        rows_at t (drop_duplicates df) = 1%nat)).
Proof.
  split; [exact Simulate_AT1_clean_up|].
  split; [exact Simulate_AT2_clean_up|].
  split; [exact Simulate_AT50_clean_up|].
  exact drop_duplicates_spec.
Qed.

(** C7 (as stated, refuted).  [Simulate_AT2] on the example instance, with a
    solver that keeps the populations constant, simulates [(0, 1)] at dose
    100 and [(1, 2)] at dose 0.  The boundary time 1 is the last row of the
    first call and the first row of the second; the two rows differ in
    [DrugConcentration], and both are in the record after the clean-up. *)
Lemma boundary_rows_both_remain :
  exists self' df,
    AT2.Simulate_AT2 constant_solver 5 example_instance at2_two_cycles
    = Finished (self', [Interval 0 1 100; Interval 1 2 0]) /\
    resultsDf self' = Some df /\
    In (Row 1 100 [99; 1] 100) df /\ In (Row 1 0 [99; 1] 100) df /\
    rows_at 1 df = 2%nat.
Proof.
  eexists. eexists. split; [vm_compute; reflexivity|].
  split; [reflexivity|]. simpl. split; [auto|]. split; [auto|]. reflexivity.
Qed.

(** ** The cycle count of the controllers *)

(** A decision of [Simulate_AT1] leaves [currCycleId] as it is. *)
Lemma AT1_decide_cycle (self : ODEModel) (a : AT1.args) (T : Q)
    (loc loc' : AT1.locals) :
  AT1.decide self a T loc = Ok loc' ->
  AT1.currCycleId loc' = AT1.currCycleId loc.
Proof.
  unfold AT1.decide. intros H. bind_inv H p Hp. destruct p as [d l].
  injection H as <-. reflexivity.
Qed.

(** A decision of [Simulate_AT2] counts the cycle. *)
Lemma AT2_decide_cycle (a : AT2.args) (T : Q) (loc loc' : AT2.locals) :
  AT2.decide a T loc = Ok loc' ->
  AT2.currCycleId loc' = S (AT2.currCycleId loc).
Proof.
  unfold AT2.decide. intros H. bind_inv H p Hp. destruct p as [r l].
  injection H as <-. reflexivity.
Qed.

Lemma AT50_decide_cycle (a : AT50.args) (T : Q) (loc : AT50.locals) :
  AT50.currCycleId (AT50.decide a T loc) = S (AT50.currCycleId loc).
Proof.
  unfold AT50.decide.
  destruct (Qlt_bool T _); [|destruct (Qlt_bool _ T)]; reflexivity.
Qed.

Lemma continue_cycle (ci : Q * Q) (t_end len : Q) (c : nat) (q : Q) :
  continue ci t_end len c (Finite q) = true -> inject_Z (Z.of_nat c) < q.
Proof.
  unfold continue. rewrite andb_true_iff. intros [_ H].
  apply Qlt_bool_iff. exact H.
Qed.

Section Cycles.

Variable solve_ivp :
  model_class * dict -> list Q -> Q * Q -> list Q ->
  string -> Q -> Q -> ext -> result OdeResult.

(** The loop of [Simulate_AT1] never advances its cycle count: the bound
    [nCycles] is tested against the count it started with. *)
Lemma AT1_loop_cycle (fuel : nat) (a : AT1.args) :
  forall self loc applied self' loc' applied',
  AT1.loop solve_ivp fuel a self loc applied = Finished (self', loc', applied') ->
  AT1.currCycleId loc' = AT1.currCycleId loc.
Proof.
  induction fuel as [|fuel IH]; intros self loc applied self' loc' applied' H;
    simpl in H; destruct (continue _ _ _ _ _); try discriminate.
  - injection H as _ <- _. reflexivity.
  - destruct (AT1.body solve_ivp a self loc) as [[m l]|e] eqn:Hb;
      [|discriminate].
    apply IH in H. rewrite H.
    unfold AT1.body in Hb. bind_inv Hb m1 Hm. bind_inv Hb T HT.
    bind_inv Hb l1 Hl. injection Hb as _ <-.
    eapply AT1_decide_cycle. exact Hl.
  - injection H as _ <- _. reflexivity.
Qed.

(** The loop of [Simulate_AT2] simulates one interval for each cycle it
    counts, and starts a cycle only while the count is below [nCycles]. *)
Lemma AT2_loop_cycles (fuel : nat) (a : AT2.args) :
  forall self loc applied self' loc' applied',
  AT2.loop solve_ivp fuel a self loc applied = Finished (self', loc', applied') ->
  (List.length applied' + AT2.currCycleId loc
   = List.length applied + AT2.currCycleId loc')%nat /\
  (AT2.currCycleId loc <= AT2.currCycleId loc')%nat /\
  (forall q, AT2.nCycles a = Finite q ->
     (AT2.currCycleId loc < AT2.currCycleId loc')%nat ->
     inject_Z (Z.of_nat (AT2.currCycleId loc' - 1)) < q).
Proof.
  induction fuel as [|fuel IH]; intros self loc applied self' loc' applied' H;
    simpl in H; destruct (continue _ _ _ _ _) eqn:Hc; try discriminate.
  - injection H as _ <- <-. repeat split; try lia.
  - destruct (AT2.body solve_ivp a self loc) as [[m l]|e] eqn:Hb;
      [|discriminate].
    assert (Hl : AT2.currCycleId l = S (AT2.currCycleId loc)).
    { unfold AT2.body in Hb. bind_inv Hb m1 Hm. bind_inv Hb T HT.
      bind_inv Hb l1 Hl. injection Hb as _ <-.
      eapply AT2_decide_cycle. exact Hl. }
    destruct (IH _ _ _ _ _ _ H) as [K1 [K2 K3]].
    rewrite length_app in K1. simpl in K1.
    split; [lia|]. split; [lia|].
    intros q Hq Hlt.
    destruct (Nat.eq_dec (AT2.currCycleId loc') (AT2.currCycleId l)) as [E|E].
    + rewrite E, Hl. simpl. rewrite Nat.sub_0_r.
      rewrite Hq in Hc. eapply continue_cycle. exact Hc.
    + apply K3; [exact Hq | lia].
  - injection H as _ <- <-. repeat split; try lia.
Qed.

Lemma AT50_loop_cycles (fuel : nat) (a : AT50.args) :
  forall self loc applied self' loc' applied',
  AT50.loop solve_ivp fuel a self loc applied = Finished (self', loc', applied') ->
  (List.length applied' + AT50.currCycleId loc
   = List.length applied + AT50.currCycleId loc')%nat /\
  (AT50.currCycleId loc <= AT50.currCycleId loc')%nat /\
  (forall q, AT50.nCycles a = Finite q ->
     (AT50.currCycleId loc < AT50.currCycleId loc')%nat ->
     inject_Z (Z.of_nat (AT50.currCycleId loc' - 1)) < q).
Proof.
  induction fuel as [|fuel IH]; intros self loc applied self' loc' applied' H;
    simpl in H; destruct (continue _ _ _ _ _) eqn:Hc; try discriminate.
  - injection H as _ <- <-. repeat split; try lia.
  - destruct (AT50.body solve_ivp a self loc) as [[m l]|e] eqn:Hb;
      [|discriminate].
    assert (Hl : AT50.currCycleId l = S (AT50.currCycleId loc)).
    { unfold AT50.body in Hb. bind_inv Hb m1 Hm. bind_inv Hb T HT.
      injection Hb as _ <-. apply AT50_decide_cycle. }
    destruct (IH _ _ _ _ _ _ H) as [K1 [K2 K3]].
    rewrite length_app in K1. simpl in K1.
    split; [lia|]. split; [lia|].
    intros q Hq Hlt.
    destruct (Nat.eq_dec (AT50.currCycleId loc') (AT50.currCycleId l)) as [E|E].
    + rewrite E, Hl. simpl. rewrite Nat.sub_0_r.
      rewrite Hq in Hc. eapply continue_cycle. exact Hc.
    + apply K3; [exact Hq | lia].
  - injection H as _ <- <-. repeat split; try lia.
Qed.

(** With a finite [nCycles] and fuel for that many cycles, the loops of
    [Simulate_AT2] and [Simulate_AT50] do not run out of fuel. *)
Lemma AT2_loop_fuel (a : AT2.args) (q : Q) :
  AT2.nCycles a = Finite q ->
  forall fuel self loc applied,
  q <= inject_Z (Z.of_nat (fuel + AT2.currCycleId loc)) ->
  AT2.loop solve_ivp fuel a self loc applied <> OutOfFuel.
Proof.
  intros Hq. induction fuel as [|fuel IH]; intros self loc applied Hf; simpl;
    destruct (continue _ _ _ _ _) eqn:Hc; try discriminate.
  - exfalso. rewrite Hq in Hc. apply continue_cycle in Hc. simpl in Hf.
    apply (Qlt_irrefl q). eapply Qle_lt_trans; eauto.
  - destruct (AT2.body solve_ivp a self loc) as [[m l]|e] eqn:Hb;
      [|discriminate].
    apply IH.
    assert (Hl : AT2.currCycleId l = S (AT2.currCycleId loc)).
    { unfold AT2.body in Hb. bind_inv Hb m1 Hm. bind_inv Hb T HT.
      bind_inv Hb l1 Hl. injection Hb as _ <-.
      eapply AT2_decide_cycle. exact Hl. }
    rewrite Hl, Nat.add_succ_r. exact Hf.
Qed.

Lemma AT50_loop_fuel (a : AT50.args) (q : Q) :
  AT50.nCycles a = Finite q ->
  forall fuel self loc applied,
  q <= inject_Z (Z.of_nat (fuel + AT50.currCycleId loc)) ->
  AT50.loop solve_ivp fuel a self loc applied <> OutOfFuel.
Proof.
  intros Hq. induction fuel as [|fuel IH]; intros self loc applied Hf; simpl;
    destruct (continue _ _ _ _ _) eqn:Hc; try discriminate.
  - exfalso. rewrite Hq in Hc. apply continue_cycle in Hc. simpl in Hf.
    apply (Qlt_irrefl q). eapply Qle_lt_trans; eauto.
  - destruct (AT50.body solve_ivp a self loc) as [[m l]|e] eqn:Hb;
      [|discriminate].
    apply IH.
    assert (Hl : AT50.currCycleId l = S (AT50.currCycleId loc)).
    { unfold AT50.body in Hb. bind_inv Hb m1 Hm. bind_inv Hb T HT.
      injection Hb as _ <-. apply AT50_decide_cycle. }
    rewrite Hl, Nat.add_succ_r. exact Hf.
Qed.

End Cycles.

(** C3 (code defect, evaluated).  With [nCycles = 1], [t_end = 3] and
    intervals of length 1, [Simulate_AT1] simulates four intervals: its loop
    never adds to [currCycleId], so only the horizon stops it.
    [Simulate_AT2] and [Simulate_AT50], which count their cycles, stop
    after one interval on the same input. *)
Theorem AT1_exceeds_nCycles :
  (exists self',
     AT1.Simulate_AT1 constant_solver 10 example_instance at1_one_cycle
     = Finished (self', [Interval 0 1 100; Interval 1 2 100;
                        Interval 2 3 100; Interval 3 4 100])) /\
  (exists self',
     AT2.Simulate_AT2 constant_solver 10 example_instance at2_one_cycle
     = Finished (self', [Interval 0 1 100])) /\
  (exists self',
     AT50.Simulate_AT50 constant_solver 10 example_instance at50_one_cycle
     = Finished (self', [Interval 0 1 100])).
Proof.
  split; [|split]; eexists; vm_compute; reflexivity.
Qed.

(** ** When the driver returns *)

(** With a positive step, an interval of positive length has a grid, final
    or not, and the grid has a point. *)
Lemma time_grid_total (dt : Q) (i n : nat) (iv : interval) :
  0 < dt -> iv_start iv < iv_end iv ->
  exists g, time_grid dt i n iv = Ok g /\ g <> [].
Proof.
  intros Hdt Hiv. unfold time_grid.
  rewrite arange_pos_step by exact Hdt. simpl.
  destruct (Nat.eqb i (n - 1)).
  - rewrite arange_pos_step by exact Hdt. simpl.
    assert (Hlt : iv_start iv < iv_end iv + dt) by lra.
    destruct (arange_len_bracket _ _ _ Hdt Hlt) as [k [Hk _]]. rewrite Hk.
    assert (Hne : arange_pts (iv_start iv) dt (S k) <> []).
    { intros E. apply (f_equal (@List.length Q)) in E.
      rewrite arange_pts_length in E. discriminate. }
    destruct (force_end_spec (iv_end iv) _ Hne) as [g [Hg [_ [Hlen _]]]].
    exists g. split; [exact Hg|].
    intros E. rewrite E in Hlen. rewrite arange_pts_length in Hlen.
    discriminate.
  - destruct (arange_len_bracket _ _ _ Hdt Hiv) as [k [Hk _]]. rewrite Hk.
    eexists. split; [reflexivity|].
    intros E. apply (f_equal (@List.length Q)) in E.
    rewrite arange_pts_length in E. discriminate.
Qed.

Lemma frame_rows_width (grid : list Q) : forall drug cols,
  Forall (fun r => List.length (sr_vals r) = List.length cols)
    (frame_rows grid drug cols).
Proof.
  induction grid as [|t grid IH]; intros drug cols; simpl; [constructor|].
  destruct drug as [|d drug]; [constructor|].
  constructor; [simpl; apply length_map|].
  specialize (IH drug (map (@tl Q) cols)). rewrite length_map in IH. exact IH.
Qed.

Lemma clamp_shape (ys : list (list Q)) (a b : nat) :
  well_shaped (clamp ys) a b = well_shaped ys a b.
Proof.
  unfold well_shaped, clamp. rewrite length_map. f_equal.
  induction ys as [|r ys IH]; simpl; [reflexivity|].
  rewrite length_map, IH. reflexivity.
Qed.

Lemma kept_y_shape (stab : bool) (sol : OdeResult) (a b : nat) :
  well_shaped (kept_y stab sol) a b = well_shaped (y sol) a b.
Proof.
  unfold kept_y. destruct (any_negative (y sol) && stab);
    [apply clamp_shape | reflexivity].
Qed.

Lemma column_last_total (ys : list (list Q)) (b : nat) :
  b <> O -> forallb (fun r => Nat.eqb (List.length r) b) ys = true ->
  exists next, column_last ys = Ok next /\ List.length next = List.length ys.
Proof.
  intros Hb. induction ys as [|r ys IH]; simpl; intros H.
  - exists []. split; reflexivity.
  - apply andb_true_iff in H. destruct H as [Hr Hys].
    apply Nat.eqb_eq in Hr.
    assert (Hne : r <> []) by (intros E; rewrite E in Hr; simpl in Hr; lia).
    rewrite (py_last_last r 0 Hne). simpl.
    destruct (IH Hys) as [next [Hn Hl]]. rewrite Hn. simpl.
    eexists. split; [reflexivity|]. simpl. rewrite Hl. reflexivity.
Qed.

Lemma mk_frame_total (vars : list string) (grid : list Q)
    (ys : list (list Q)) (a : nat) :
  a <> O -> well_shaped ys a (List.length grid) = true ->
  mk_frame vars grid ys
  = Ok (frame_rows grid (last ys []) (firstn (List.length vars) ys)).
Proof.
  intros Ha H. unfold well_shaped in H. apply andb_true_iff in H.
  destruct H as [Hl Hall]. apply Nat.eqb_eq in Hl.
  assert (Hne : ys <> []) by (intros E; rewrite E in Hl; simpl in Hl; lia).
  unfold mk_frame. rewrite (py_last_last ys [] Hne). simpl.
  rewrite forallb_forall in Hall.
  assert (Hd : Nat.eqb (List.length (last ys [])) (List.length grid) = true).
  { apply Hall. destruct (exists_last Hne) as [l [x ->]].
    rewrite last_last. apply in_or_app. right. left. reflexivity. }
  rewrite Hd. simpl.
  assert (Hc : forallb (fun c => Nat.eqb (List.length c) (List.length grid))
                 (firstn (List.length vars) ys) = true).
  { apply forallb_forall. intros c Hin. apply Hall.
    rewrite <- (firstn_skipn (List.length vars) ys). apply in_or_app.
    left. exact Hin. }
  rewrite Hc. reflexivity.
Qed.

Section DriverReturns.

Variable solve_ivp :
  model_class * dict -> list Q -> Q * Q -> list Q ->
  string -> Q -> Q -> ext -> result OdeResult.

Hypothesis solver_ok : solver_conforms solve_ivp.

Variable self : ODEModel.

Hypothesis positive_step : 0 < dt (config self).
Hypothesis has_equations : cls self <> ODEModelBase.

(** One pass through the loop body returns. *)
Lemma interval_body_returns (n i : nat) (iv : interval) (st : loop_state) :
  iv_start iv < iv_end iv -> currStateVec st <> [] ->
  exists st1, interval_body solve_ivp self n i iv st = Ok st1.
Proof.
  intros Hiv Hvec.
  destruct (time_grid_total _ i n iv positive_step Hiv) as [g [Hg Hgne]].
  unfold interval_body. rewrite Hg. cbn [bind].
  destruct (currStateVec st) as [|v0 vec] eqn:Hcv; [congruence|].
  cbn [bind]. unfold bound_ModelEqns.
  assert (Hf : exists f,
            match cls self with
            | ODEModelBase => Raise AttributeError
            | c => Ok (c, paramDic self)
            end = Ok f).
  { destruct (cls self); [congruence| | | | | |]; eexists; reflexivity. }
  destruct Hf as [f Hf]. rewrite Hf. cbn [bind].
  destruct g as [|g0 g']; [congruence|]. cbn [py_first bind].
  rewrite (py_last_last (g0 :: g') 0 Hgne). cbn [bind].
  match goal with
  | |- context [solve_ivp ?f ?y0 ?ts ?te ?m ?a ?r ?ms] =>
      destruct (solver_ok f y0 ts te m a r ms) as [sol [Hsol Hshape]];
      rewrite Hsol
  end.
  cbn [bind].
  assert (Hcheck : success sol
                   && negb (well_shaped (y sol)
                              (List.length (set_last (v0 :: vec) (iv_dose iv)))
                              (List.length (g0 :: g'))) = false).
  { destruct (success sol); [|reflexivity].
    rewrite (Hshape eq_refl). reflexivity. }
  rewrite Hcheck.
  destruct (check_solution _ _ sol) as [[problem msg] sol'].
  eexists. reflexivity.
Qed.

(** The state vector that a pass solves from. *)
Lemma interval_body_vec (n i : nat) (iv : interval) (st st1 : loop_state) :
  interval_body solve_ivp self n i iv st = Ok st1 ->
  currStateVec st <> [] /\
  currStateVec st1 = set_last (currStateVec st) (iv_dose iv).
Proof.
  unfold interval_body. intros H.
  bind_inv H grid Hgrid. bind_inv H y0 Hy0. bind_inv H f Hf.
  bind_inv H t0 Ht0. bind_inv H tlast Htl. bind_inv H sol Hsol.
  destruct (success sol && _); [discriminate|].
  destruct (check_solution _ _ sol) as [[problem msg] sol'].
  injection H as <-. cbn [currStateVec].
  destruct (currStateVec st); [discriminate|].
  injection Hy0 as <-. split; [discriminate | reflexivity].
Qed.

(** After a pass that did not fail, the frame is kept: its rows have one
    value for each state variable that the state vector has an entry for,
    and the state vector carried on has the length it had. *)
Lemma save_results_returns (st : loop_state) (g : list Q) (sol : OdeResult)
    (a : nat) :
  tVec st = Some g -> ls_solObj st = Some sol ->
  g <> [] -> a <> O -> well_shaped (y sol) a (List.length g) = true ->
  exists st2 frame,
    save_results self st = Ok st2 /\
    resultsDFList st2 = resultsDFList st ++ [frame] /\
    Forall (fun r => List.length (sr_vals r)
                     = Nat.min (List.length (stateVars self)) a) frame /\
    List.length (currStateVec st2) = a /\
    encounteredProblemB st2 = encounteredProblemB st /\
    tVec st2 = Some g.
Proof.
  intros Hg Hs Hgne Ha Hw. unfold save_results. rewrite Hg, Hs. cbn [of_option bind].
  rewrite (mk_frame_total (stateVars self) g (y sol) a Ha Hw). cbn [bind].
  pose proof Hw as Hw2. unfold well_shaped in Hw2.
  apply andb_true_iff in Hw2. destruct Hw2 as [Hrows Hcols].
  apply Nat.eqb_eq in Hrows.
  assert (Hb : List.length g <> O).
  { destruct g; [congruence | simpl; lia]. }
  destruct (column_last_total (y sol) (List.length g) Hb Hcols)
    as [next [Hnext Hnl]].
  rewrite Hnext. cbn [bind].
  eexists. eexists. split; [reflexivity|]. cbn.
  split; [reflexivity|]. split.
  - eapply Forall_impl; [|apply frame_rows_width].
    intros r Hr. cbn in Hr. rewrite Hr, length_firstn, Hrows. reflexivity.
  - split; [rewrite Hnl; exact Hrows|]. split; reflexivity.
Qed.

(** The interval loop returns on intervals of positive length.  The frames
    it keeps have rows of the width above; if it ran at all it leaves the
    grid of an interval of the schedule in [tVec]. *)
Lemma run_intervals_returns (n : nat) (a : nat) :
  a <> O ->
  forall (ivs : list (nat * interval)) (st : loop_state),
  Forall (fun p => iv_start (snd p) < iv_end (snd p)) ivs ->
  List.length (currStateVec st) = a ->
  encounteredProblemB st = false ->
  Forall (Forall (fun r => List.length (sr_vals r)
                           = Nat.min (List.length (stateVars self)) a))
    (resultsDFList st) ->
  exists st',
    run_intervals solve_ivp self n ivs st = Ok st' /\
    Forall (Forall (fun r => List.length (sr_vals r)
                             = Nat.min (List.length (stateVars self)) a))
      (resultsDFList st') /\
    (ivs <> [] ->
     exists p g, In p ivs /\
       time_grid (dt (config self)) (fst p) n (snd p) = Ok g /\
       tVec st' = Some g).
Proof.
  intros Ha. induction ivs as [|[i iv] rest IH]; intros st Hivs Hlen Hst Hfr.
  - exists st. split; [reflexivity|]. split; [exact Hfr|]. congruence.
  - apply Forall_cons_iff in Hivs. destruct Hivs as [Hiv Hrest]. simpl in Hiv.
    assert (Hvec : currStateVec st <> []).
    { intros E. rewrite E in Hlen. simpl in Hlen. lia. }
    destruct (interval_body_returns n i iv st Hiv Hvec) as [st1 Hbody].
    destruct (interval_body_Ok solve_ivp _ _ _ _ _ _ Hbody)
      as (c & Hcalls & Hciv & Hy0 & Huse & _ & Hprob & Hfr1 & Htv & Hgne & Hkept).
    destruct (interval_body_vec n i iv st st1 Hbody) as [_ Hvec1].
    assert (Hgrid : exists g, time_grid (dt (config self)) i n iv = Ok g /\
                      tVec st1 = Some g).
    { unfold interval_body in Hbody. bind_inv Hbody grid Hgrid.
      exists grid. split; [exact Hgrid|].
      bind_inv Hbody y0 Hy0'. bind_inv Hbody f Hf.
      bind_inv Hbody t0 Ht0. bind_inv Hbody tlast Htl. bind_inv Hbody sol Hsol.
      destruct (success sol && _); [discriminate|].
      destruct (check_solution _ _ sol) as [[problem msg] sol'].
      injection Hbody as <-. reflexivity. }
    destruct Hgrid as [g [Hg Htg]].
    simpl. rewrite Hbody. cbn [bind].
    rewrite Hst in Hprob. simpl in Hprob.
    destruct (encounteredProblemB st1) eqn:Hp1.
    + exists st1. split; [reflexivity|]. split; [rewrite Hfr1; exact Hfr|].
      intros _. exists (i, iv), g. split; [left; reflexivity|].
      split; [exact Hg | exact Htg].
    + destruct (Hkept (eq_sym Hprob)) as [sol' [Hsol' [Hy' Hshape]]].
      assert (Hlen1 : List.length (c_y0 c) = a).
      { rewrite Hy0. rewrite length_set_last by exact Hvec. exact Hlen. }
      assert (Hw : well_shaped (y sol') a (List.length g) = true).
      { rewrite Hy', kept_y_shape. rewrite Htv in Htg. injection Htg as <-.
        rewrite <- Hlen1. exact Hshape. }
      assert (Hgne' : g <> []).
      { rewrite Htv in Htg. injection Htg as <-. exact Hgne. }
      destruct (save_results_returns st1 g sol' a Htg Hsol' Hgne' Ha Hw)
        as (st2 & frame & Hsave & Hfr2 & Hwidth & Hlen2 & Hp2 & Htv2).
      rewrite Hsave. cbn [bind].
      rewrite Hp1 in Hp2.
      assert (Hfr2' : Forall (Forall (fun r => List.length (sr_vals r)
                                = Nat.min (List.length (stateVars self)) a))
                        (resultsDFList st2)).
      { rewrite Hfr2, Hfr1. apply Forall_app. split; [exact Hfr|].
        constructor; [exact Hwidth | constructor]. }
      destruct (IH st2 Hrest Hlen2 Hp2 Hfr2') as (st' & Hrun & Hw' & Htv').
      exists st'. split; [exact Hrun|]. split; [exact Hw'|].
      intros _. destruct rest as [|p rest'].
      * simpl in Hrun. injection Hrun as <-.
        exists (i, iv), g. split; [left; reflexivity|].
        split; [exact Hg | exact Htv2].
      * destruct (Htv' ltac:(discriminate)) as (p' & g' & Hin & Hg' & Htg').
        exists p', g'. split; [right; exact Hin|]. split; assumption.
Qed.

End DriverReturns.

Lemma start_state_nonempty (self : ODEModel) (sched : list interval)
    (start : list Q) (old : option DataFrame) :
  start_state self sched = Ok (start, old) -> start <> [].
Proof.
  unfold start_state. intros H.
  assert (Hfresh : forall s o,
            (init <- of_option AttributeError (initialStateList self) ;;
             Ok (init ++ [0], @None DataFrame)) = Ok (s, o) -> s <> []).
  { intros s o E. bind_inv E init Hi. injection E as <- _.
    intros E. apply app_eq_nil in E. destruct E as [_ E]. discriminate. }
  destruct (resultsDf self) as [df|]; [|eapply Hfresh; exact H].
  bind_inv H iv Hiv.
  destruct (Qeq_bool (iv_start iv) 0); [eapply Hfresh; exact H|].
  bind_inv H r Hr.
  destruct (List.length (vals r) <? List.length (stateVars self))%nat;
    [discriminate|].
  injection H as <- _.
  intros E. apply app_eq_nil in E. destruct E as [_ E]. discriminate.
Qed.

Lemma enumerate_In {A} (l : list A) (p : nat * A) :
  In p (enumerate l) -> In (snd p) l.
Proof.
  unfold enumerate. destruct p as [i x]. intros H.
  apply in_combine_r in H. exact H.
Qed.

Lemma RunCellCountToTumourSizeModel_total (self : ODEModel)
    (frame : list sol_row) (theta : Q) :
  as_num (dict_get_default "scaleFactor" (PNum 1) (paramDic self)) = Ok theta ->
  Forall (fun r => List.length (sr_vals r) = List.length (stateVars self)) frame ->
  RunCellCountToTumourSizeModel self frame
  = Ok (map (fun r => theta * np_sum (sr_vals r)) frame).
Proof.
  intros Ht Hw. unfold RunCellCountToTumourSizeModel.
  assert (E : forallb (fun r => Nat.eqb (List.length (sr_vals r))
                                  (List.length (stateVars self))) frame = true).
  { apply forallb_forall. intros r Hr. apply Nat.eqb_eq.
    rewrite Forall_forall in Hw. apply Hw. exact Hr. }
  rewrite E, Ht. reflexivity.
Qed.

(** [Simulate] returns: on a schedule of intervals of positive length, with
    a positive step, for a class that has model equations, from a state
    vector that has an entry for every state variable, with a numeric scale
    factor, a solver that keeps its interface, and grids that have at least
    as many points as there are state variables (the frame of zeros is built
    from a vector as long as the grid). *)
Theorem Simulate_returns
    (solve_ivp : model_class * dict -> list Q -> Q * Q -> list Q ->
                 string -> Q -> Q -> ext -> result OdeResult)
    (self : ODEModel) (sched : list interval) (kw : kwargs)
    (start : list Q) (old : option DataFrame) (theta : Q) :
  solver_conforms solve_ivp ->
  0 < dt (config (configure self kw)) ->
  cls self <> ODEModelBase ->
  sched <> [] ->
  Forall (fun iv => iv_start iv < iv_end iv) sched ->
  start_state (configure self kw) sched = Ok (start, old) ->
  (List.length (stateVars self) <= List.length start)%nat ->
  (forall i iv g,
     In iv sched ->
     time_grid (dt (config (configure self kw))) i (List.length sched) iv = Ok g ->
     (List.length (stateVars self) <= List.length g)%nat) ->
  as_num (dict_get_default "scaleFactor" (PNum 1) (paramDic self)) = Ok theta ->
  exists self' cs, Simulate_trace solve_ivp self sched kw = Ok (self', cs).
Proof.
  intros Hsolver Hdt Hcls Hne Hivs Hstart Hwidth Hgrid Htheta.
  pose proof (start_state_nonempty _ _ _ _ Hstart) as Hs.
  assert (Ha : List.length start <> O).
  { destruct start; [congruence | simpl; lia]. }
  unfold Simulate_trace. rewrite Hstart. cbn [bind].
  assert (Hen : Forall (fun p => iv_start (snd p) < iv_end (snd p))
                  (enumerate sched)).
  { apply Forall_forall. intros p Hp. apply enumerate_In in Hp.
    rewrite Forall_forall in Hivs. apply Hivs. exact Hp. }
  destruct (run_intervals_returns solve_ivp Hsolver (configure self kw) Hdt Hcls
              (List.length sched) (List.length start) Ha (enumerate sched)
              (LoopState start [] false None (errMessage (configure self kw))
                 (solObj (configure self kw)) [])
              Hen eq_refl eq_refl (Forall_nil _))
    as (st & Hrun & Hfr & Htv).
  rewrite Hrun. cbn [bind].
  assert (Hmin : Nat.min (List.length (stateVars (configure self kw)))
                   (List.length start)
                 = List.length (stateVars (configure self kw))).
  { apply Nat.min_l. exact Hwidth. }
  rewrite Hmin in Hfr.
  assert (Hblock : exists block, new_block (configure self kw) st = Ok block).
  { unfold new_block.
    destruct (0 <? List.length (resultsDFList st))%nat.
    - cbn [bind].
      rewrite (RunCellCountToTumourSizeModel_total (configure self kw) _ theta Htheta).
      + eexists. reflexivity.
      + apply Forall_concat. exact Hfr.
    - assert (Hen' : enumerate sched <> []).
      { intros E. apply (f_equal (@List.length (nat * interval))) in E.
        rewrite enumerate_length in E. destruct sched; [congruence|discriminate]. }
      destruct (Htv Hen') as (p & g & Hin & Hg & Htg).
      rewrite Htg. cbn [of_option bind].
      rewrite (RunCellCountToTumourSizeModel_total (configure self kw) _ theta Htheta).
      + eexists. reflexivity.
      + apply Forall_forall. intros r Hr. unfold zero_frame in Hr.
        apply in_map_iff in Hr. destruct Hr as [t [<- _]]. cbn [sr_vals].
        rewrite repeat_length. apply Nat.min_l.
        apply (Hgrid (fst p) (snd p) g); [apply enumerate_In; exact Hin|].
        exact Hg. }
  destruct Hblock as [block Hblock]. rewrite Hblock. cbn [bind].
  eexists. eexists. reflexivity.
Qed.


Lemma constant_solver_conforms : solver_conforms constant_solver.
Proof.
  intros f y0 t_span t_eval method atol rtol max_step.
  eexists. split; [reflexivity|]. intros _. simpl.
  unfold well_shaped. rewrite length_map, Nat.eqb_refl. simpl.
  induction y0 as [|v y0 IH]; simpl; [reflexivity|].
  rewrite repeat_length, Nat.eqb_refl. exact IH.
Qed.

Lemma Simulate_returns_witness :
  exists self' cs,
    Simulate_trace constant_solver example_instance three_intervals kw_half_step
    = Ok (self', cs).
Proof.
  apply (Simulate_returns constant_solver example_instance three_intervals
           kw_half_step [99; 1; 0] None 1).
  - exact constant_solver_conforms.
  - reflexivity.
  - discriminate.
  - discriminate.
  - repeat constructor.
  - reflexivity.
  - simpl. lia.
  - intros i iv g Hin Hg. unfold time_grid in Hg. simpl in Hin.
    destruct (Nat.eqb i (List.length three_intervals - 1));
      destruct Hin as [<-|[<-|[<-|[]]]]; vm_compute in Hg;
      injection Hg as <-; simpl; lia.
  - reflexivity.
Defined.

Lemma Simulate_first_failure_witness :
  exists self' cs,
    Simulate_trace (diverging_from 1) example_instance three_intervals no_kwargs
    = Ok (self', cs) /\
    exists kept c, cs = kept ++ [c] /\ List.length kept = 1%nat.
Proof.
  eexists. eexists.
  eassert (H : Simulate_trace (diverging_from 1) example_instance
                 three_intervals no_kwargs = Ok (?[m], ?[cs])).
  { vm_compute. reflexivity. }
  split; [exact H|].
  destruct (Simulate_first_failure _ _ _ _ _ _ H eq_refl)
    as (kept & c & theta & start & old & block & Hcs & _ & _ & Hiv & _).
  exists kept, c. split; [exact Hcs|].
  apply (f_equal (@List.length interval)) in Hiv.
  rewrite length_map, Hcs, length_app in Hiv. simpl in Hiv.
  apply (f_equal (@List.length solver_call)) in Hcs.
  rewrite length_app in Hcs. simpl in Hcs. lia.
Defined.

(** The solver's solution dips below zero at the last evaluation time: with
    numerical stabilisation the value is clamped to zero and the call
    succeeds; without it the call fails, and since this was the first
    interval the rows appended are the rows of zeros. *)
Lemma dipping_solver_runs :
  (exists self',
     Simulate dipping_solver example_instance [Interval 0 2 5] kw_stabilise
     = Ok self' /\
     successB self' = true /\
     resultsDf self'
     = Some [Row 0 5 [99; 1] 100; Row 1 5 [99; 1] 100; Row 2 5 [0; 1] 1]) /\
  (exists self',
     Simulate dipping_solver example_instance [Interval 0 2 5] no_kwargs
     = Ok self' /\
     successB self' = false /\
     resultsDf self'
     = Some [Row 0 0 [0; 0] 0; Row 1 0 [0; 0] 0; Row 2 0 [0; 0] 0]).
Proof.
  split; eexists; (split; [vm_compute; reflexivity|]); split; reflexivity.
Qed.

(** ** Termination of the controller loops *)

Lemma continue_horizon (ci : Q * Q) (t_end len : Q) (c : nat) (n : ext) :
  continue ci t_end len c n = true -> snd ci <= t_end + len.
Proof.
  unfold continue. rewrite andb_true_iff. intros [H _].
  apply Qle_bool_iff. exact H.
Qed.

(** Fuel that covers a distance [x] in steps of [len]. *)
Lemma fuel_for (x len : Q) :
  0 < len -> exists fuel : nat, x < inject_Z (Z.of_nat fuel) * len.
Proof.
  intros Hlen. exists (Z.to_nat (Qceiling (x / len)) + 1)%nat.
  assert (H1 : x / len <= inject_Z (Qceiling (x / len))) by apply Qle_ceiling.
  assert (H2 : inject_Z (Qceiling (x / len))
               < inject_Z (Z.of_nat (Z.to_nat (Qceiling (x / len)) + 1))).
  { rewrite <- Zlt_Qlt. lia. }
  assert (H3 : x / len * len
               < inject_Z (Z.of_nat (Z.to_nat (Qceiling (x / len)) + 1)) * len).
  { apply Qmult_lt_compat_r; [exact Hlen|]. eapply Qle_lt_trans; eauto. }
  assert (H4 : x / len * len == x).
  { field. intros E. rewrite E in Hlen. revert Hlen. apply Qlt_irrefl. }
  rewrite H4 in H3. exact H3.
Qed.

Lemma inject_Z_succ (n : nat) :
  inject_Z (Z.of_nat (S n)) == inject_Z (Z.of_nat n) + 1.
Proof.
  rewrite Nat2Z.inj_succ. unfold Z.succ. rewrite inject_Z_plus. reflexivity.
Qed.

Lemma AT1_decide_interval (self : ODEModel) (a : AT1.args) (T : Q)
    (loc loc' : AT1.locals) :
  AT1.decide self a T loc = Ok loc' ->
  AT1.currInterval loc' = shift (AT1.currInterval loc) (AT1.intervalLength a).
Proof.
  unfold AT1.decide. intros H. bind_inv H p Hp. destruct p as [d l].
  injection H as <-. reflexivity.
Qed.

Lemma AT2_decide_interval (a : AT2.args) (T : Q) (loc loc' : AT2.locals) :
  AT2.decide a T loc = Ok loc' ->
  AT2.currInterval loc' = shift (AT2.currInterval loc) (AT2.intervalLength a).
Proof.
  unfold AT2.decide. intros H. bind_inv H p Hp. destruct p as [r l].
  injection H as <-. reflexivity.
Qed.

(** A step of [Simulate_AT50] moves the cursor by the interval length it
    chose, which is the previous one, the on-length or the off-length. *)
Lemma AT50_decide_interval (a : AT50.args) (T : Q) (loc : AT50.locals) :
  AT50.currInterval (AT50.decide a T loc)
  = shift (AT50.currInterval loc) (AT50.intervalLength (AT50.decide a T loc)) /\
  (AT50.intervalLength (AT50.decide a T loc) = AT50.intervalLength loc \/
   AT50.intervalLength (AT50.decide a T loc) = AT50.intervalLength_on a \/
   AT50.intervalLength (AT50.decide a T loc) = AT50.intervalLength_off_ loc).
Proof.
  unfold AT50.decide.
  destruct (Qlt_bool T _); [|destruct (Qlt_bool _ T)]; simpl; auto.
Qed.

Section Horizon.

Variable solve_ivp :
  model_class * dict -> list Q -> Q * Q -> list Q ->
  string -> Q -> Q -> ext -> result OdeResult.

(** With intervals of positive length, fuel that covers the distance to the
    horizon is enough for the loop of [Simulate_AT1]. *)
Lemma AT1_loop_horizon (a : AT1.args) :
  0 < AT1.intervalLength a ->
  forall fuel self loc applied,
  AT1.t_end a + AT1.intervalLength a - snd (AT1.currInterval loc)
  < inject_Z (Z.of_nat fuel) * AT1.intervalLength a ->
  AT1.loop solve_ivp fuel a self loc applied <> OutOfFuel.
Proof.
  intros Hlen. induction fuel as [|fuel IH]; intros self loc applied Hf;
    simpl; destruct (continue _ _ _ _ _) eqn:Hc; try discriminate.
  - exfalso. apply continue_horizon in Hc.
    change (inject_Z (Z.of_nat 0)) with 0 in Hf. lra.
  - destruct (AT1.body solve_ivp a self loc) as [[m l]|e] eqn:Hb;
      [|discriminate].
    apply IH.
    unfold AT1.body in Hb. bind_inv Hb m1 Hm. bind_inv Hb T HT.
    bind_inv Hb l1 Hl. injection Hb as _ <-.
    rewrite (AT1_decide_interval _ _ _ _ _ Hl). simpl.
    rewrite inject_Z_succ in Hf. lra.
Qed.

Lemma AT2_loop_horizon (a : AT2.args) :
  0 < AT2.intervalLength a ->
  forall fuel self loc applied,
  AT2.t_end a + AT2.intervalLength a - snd (AT2.currInterval loc)
  < inject_Z (Z.of_nat fuel) * AT2.intervalLength a ->
  AT2.loop solve_ivp fuel a self loc applied <> OutOfFuel.
Proof.
  intros Hlen. induction fuel as [|fuel IH]; intros self loc applied Hf;
    simpl; destruct (continue _ _ _ _ _) eqn:Hc; try discriminate.
  - exfalso. apply continue_horizon in Hc.
    change (inject_Z (Z.of_nat 0)) with 0 in Hf. lra.
  - destruct (AT2.body solve_ivp a self loc) as [[m l]|e] eqn:Hb;
      [|discriminate].
    apply IH.
    unfold AT2.body in Hb. bind_inv Hb m1 Hm. bind_inv Hb T HT.
    bind_inv Hb l1 Hl. injection Hb as _ <-.
    rewrite (AT2_decide_interval _ _ _ _ Hl). simpl.
    rewrite inject_Z_succ in Hf. lra.
Qed.

(** For [Simulate_AT50] the interval length changes between the on- and the
    off-length: with both between [lo > 0] and [hi], the cursor gains at
    least [lo] in a step and the horizon is at most [t_end + hi]. *)
Lemma AT50_loop_horizon (a : AT50.args) (lo hi : Q) :
  0 < lo ->
  lo <= AT50.intervalLength_on a <= hi ->
  forall fuel self loc applied,
  lo <= AT50.intervalLength_off_ loc <= hi ->
  lo <= AT50.intervalLength loc <= hi ->
  AT50.t_end a + hi - snd (AT50.currInterval loc)
  < inject_Z (Z.of_nat fuel) * lo ->
  AT50.loop solve_ivp fuel a self loc applied <> OutOfFuel.
Proof.
  intros Hlo Hon. induction fuel as [|fuel IH];
    intros self loc applied Hoff Hcur Hf;
    simpl; destruct (continue _ _ _ _ _) eqn:Hc; try discriminate.
  - exfalso. apply continue_horizon in Hc.
    change (inject_Z (Z.of_nat 0)) with 0 in Hf. lra.
  - destruct (AT50.body solve_ivp a self loc) as [[m l]|e] eqn:Hb;
      [|discriminate].
    unfold AT50.body in Hb. bind_inv Hb m1 Hm. bind_inv Hb T HT.
    injection Hb as _ <-.
    destruct (AT50_decide_interval a T loc) as [Hci Hlen].
    destruct (AT50_decide_refSize a T loc) as [_ [_ Hoff']].
    assert (Hnew : lo <= AT50.intervalLength (AT50.decide a T loc) <= hi).
    { destruct Hlen as [E|[E|E]]; rewrite E; assumption. }
    apply IH.
    + rewrite Hoff'. exact Hoff.
    + exact Hnew.
    + rewrite Hci. simpl. rewrite inject_Z_succ in Hf. lra.
Qed.

End Horizon.

(** The loops of the three controllers end, with enough fuel, when their
    interval lengths are positive: the cursor then passes the horizon.  The
    cycle count ends the loops of [Simulate_AT2] and [Simulate_AT50] (not
    that of [Simulate_AT1]) whatever the interval length: a finite [nCycles]
    bounds the number of intervals they simulate. *)
Theorem controllers_terminate
    (solve_ivp : model_class * dict -> list Q -> Q * Q -> list Q ->
                 string -> Q -> Q -> ext -> result OdeResult) :
  (forall a self, 0 < AT1.intervalLength a ->
     exists fuel, AT1.Simulate_AT1 solve_ivp fuel self a <> OutOfFuel) /\
  (forall a self, 0 < AT2.intervalLength a ->
     exists fuel, AT2.Simulate_AT2 solve_ivp fuel self a <> OutOfFuel) /\
  (forall a self off,
     0 < AT50.intervalLength_on a ->
     AT50.intervalLength_off a = Some off -> 0 < off ->
     exists fuel, AT50.Simulate_AT50 solve_ivp fuel self a <> OutOfFuel) /\
  (forall a self, 0 < AT50.intervalLength_on a ->
     AT50.intervalLength_off a = None ->
     exists fuel, AT50.Simulate_AT50 solve_ivp fuel self a <> OutOfFuel) /\
  (forall a self q fuel, AT2.nCycles a = Finite q ->
     q <= inject_Z (Z.of_nat fuel) ->
     AT2.Simulate_AT2 solve_ivp fuel self a <> OutOfFuel) /\
  (forall a self q fuel, AT50.nCycles a = Finite q ->
     q <= inject_Z (Z.of_nat fuel) ->
     AT50.Simulate_AT50 solve_ivp fuel self a <> OutOfFuel) /\
  (forall a self q fuel self' applied, AT2.nCycles a = Finite q ->
     AT2.Simulate_AT2 solve_ivp fuel self a = Finished (self', applied) ->
     applied = [] \/ inject_Z (Z.of_nat (List.length applied)) - 1 < q) /\
  (forall a self q fuel self' applied, AT50.nCycles a = Finite q ->
     AT50.Simulate_AT50 solve_ivp fuel self a = Finished (self', applied) ->
     applied = [] \/ inject_Z (Z.of_nat (List.length applied)) - 1 < q).
Proof.
  assert (Hcount : forall n : nat, (0 < n)%nat ->
            inject_Z (Z.of_nat (n - 1)) == inject_Z (Z.of_nat n) - 1).
  { intros n Hn. destruct n as [|n]; [lia|].
    simpl Nat.sub. rewrite Nat.sub_0_r, inject_Z_succ. ring. }
  split; [|split; [|split; [|split; [|split; [|split; [|split]]]]]].
  - intros a self Hlen. unfold AT1.Simulate_AT1.
    destruct (AT1.setup self a) as [loc|e]; [|exists O; discriminate].
    destruct (fuel_for (AT1.t_end a + AT1.intervalLength a
                        - snd (AT1.currInterval loc)) _ Hlen) as [fuel Hf].
    exists fuel.
    pose proof (AT1_loop_horizon solve_ivp a Hlen fuel self loc [] Hf) as H.
    destruct (AT1.loop solve_ivp fuel a self loc []) as [[[m l] ap]| |];
      [destruct (clean_up m); discriminate | discriminate | congruence].
  - intros a self Hlen. unfold AT2.Simulate_AT2.
    destruct (AT2.setup self a) as [loc|e]; [|exists O; discriminate].
    destruct (fuel_for (AT2.t_end a + AT2.intervalLength a
                        - snd (AT2.currInterval loc)) _ Hlen) as [fuel Hf].
    exists fuel.
    pose proof (AT2_loop_horizon solve_ivp a Hlen fuel self loc [] Hf) as H.
    destruct (AT2.loop solve_ivp fuel a self loc []) as [[[m l] ap]| |];
      [destruct (clean_up m); discriminate | discriminate | congruence].
  - intros a self off Hon Hoff Hpos. unfold AT50.Simulate_AT50.
    destruct (AT50.setup self a) as [loc|e] eqn:Hs; [|exists O; discriminate].
    assert (Hloc : AT50.intervalLength_off_ loc = off /\
                   AT50.intervalLength loc = AT50.intervalLength_on a).
    { unfold AT50.setup in Hs. rewrite Hoff in Hs.
      bind_inv Hs r Hr. bind_inv Hs d Hd. bind_inv Hs ds Hds.
      injection Hs as <-. split; reflexivity. }
    destruct Hloc as [E1 E2].
    set (lo := py_min (AT50.intervalLength_on a) off).
    set (hi := py_max (AT50.intervalLength_on a) off).
    assert (Hb : 0 < lo /\ lo <= AT50.intervalLength_on a <= hi /\
                 lo <= off <= hi).
    { unfold lo, hi, py_min, py_max.
      destruct (Qlt_bool off (AT50.intervalLength_on a)) eqn:A;
        destruct (Qlt_bool (AT50.intervalLength_on a) off) eqn:B;
        try (apply Qlt_bool_iff in A); try (apply Qlt_bool_iff in B);
        try (apply Qlt_bool_false_iff in A);
        try (apply Qlt_bool_false_iff in B); lra. }
    destruct Hb as [Hlo [Hon' Hoff']].
    destruct (fuel_for (AT50.t_end a + hi - snd (AT50.currInterval loc)) _ Hlo)
      as [fuel Hf].
    exists fuel.
    assert (H : AT50.loop solve_ivp fuel a self loc [] <> OutOfFuel).
    { apply (AT50_loop_horizon solve_ivp a lo hi Hlo Hon').
      - rewrite E1. exact Hoff'.
      - rewrite E2. exact Hon'.
      - exact Hf. }
    destruct (AT50.loop solve_ivp fuel a self loc []) as [[[m l] ap]| |];
      [destruct (clean_up m); discriminate | discriminate | congruence].
  - intros a self Hon Hoff. unfold AT50.Simulate_AT50.
    destruct (AT50.setup self a) as [loc|e] eqn:Hs; [|exists O; discriminate].
    assert (Hloc : AT50.intervalLength_off_ loc = AT50.intervalLength_on a /\
                   AT50.intervalLength loc = AT50.intervalLength_on a).
    { unfold AT50.setup in Hs. rewrite Hoff in Hs.
      bind_inv Hs r Hr. bind_inv Hs d Hd. bind_inv Hs ds Hds.
      injection Hs as <-. split; reflexivity. }
    destruct Hloc as [E1 E2].
    assert (Hsame : AT50.intervalLength_on a <= AT50.intervalLength_on a
                    <= AT50.intervalLength_on a).
    { split; apply Qle_refl. }
    destruct (fuel_for (AT50.t_end a + AT50.intervalLength_on a
                        - snd (AT50.currInterval loc)) _ Hon) as [fuel Hf].
    exists fuel.
    assert (H : AT50.loop solve_ivp fuel a self loc [] <> OutOfFuel).
    { apply (AT50_loop_horizon solve_ivp a _ _ Hon Hsame).
      - rewrite E1. exact Hsame.
      - rewrite E2. exact Hsame.
      - exact Hf. }
    destruct (AT50.loop solve_ivp fuel a self loc []) as [[[m l] ap]| |];
      [destruct (clean_up m); discriminate | discriminate | congruence].
  - intros a self q fuel Hq Hf. unfold AT2.Simulate_AT2.
    destruct (AT2.setup self a) as [loc|e] eqn:Hs; [|discriminate].
    assert (Hc : AT2.currCycleId loc = O).
    { unfold AT2.setup in Hs. bind_inv Hs r Hr. bind_inv Hs d Hd.
      bind_inv Hs ds Hds. injection Hs as <-. reflexivity. }
    assert (H : AT2.loop solve_ivp fuel a self loc [] <> OutOfFuel).
    { apply (AT2_loop_fuel solve_ivp a q Hq). rewrite Hc, Nat.add_0_r. exact Hf. }
    destruct (AT2.loop solve_ivp fuel a self loc []) as [[[m l] ap]| |];
      [destruct (clean_up m); discriminate | discriminate | congruence].
  - intros a self q fuel Hq Hf. unfold AT50.Simulate_AT50.
    destruct (AT50.setup self a) as [loc|e] eqn:Hs; [|discriminate].
    assert (Hc : AT50.currCycleId loc = O).
    { unfold AT50.setup in Hs. bind_inv Hs r Hr. bind_inv Hs d Hd.
      bind_inv Hs ds Hds. injection Hs as <-. reflexivity. }
    assert (H : AT50.loop solve_ivp fuel a self loc [] <> OutOfFuel).
    { apply (AT50_loop_fuel solve_ivp a q Hq). rewrite Hc, Nat.add_0_r. exact Hf. }
    destruct (AT50.loop solve_ivp fuel a self loc []) as [[[m l] ap]| |];
      [destruct (clean_up m); discriminate | discriminate | congruence].
  - intros a self q fuel self' applied Hq H.
    destruct (Simulate_AT2_clean_up _ _ _ _ _ _ H)
      as (loc & self0 & loc' & df & Hs & Hloop & _).
    assert (Hc : AT2.currCycleId loc = O).
    { unfold AT2.setup in Hs. bind_inv Hs r Hr. bind_inv Hs d Hd.
      bind_inv Hs ds Hds. injection Hs as <-. reflexivity. }
    destruct (AT2_loop_cycles solve_ivp _ _ _ _ _ _ _ _ Hloop) as [K1 [_ K3]].
    rewrite Hc in K1, K3. simpl in K1. rewrite Nat.add_0_r in K1.
    destruct applied as [|iv applied]; [left; reflexivity|]. right.
    rewrite <- Hcount by (simpl; lia). rewrite K1.
    apply K3; [exact Hq|]. rewrite <- K1. simpl. lia.
  - intros a self q fuel self' applied Hq H.
    destruct (Simulate_AT50_clean_up _ _ _ _ _ _ H)
      as (loc & self0 & loc' & df & Hs & Hloop & _).
    assert (Hc : AT50.currCycleId loc = O).
    { unfold AT50.setup in Hs. bind_inv Hs r Hr. bind_inv Hs d Hd.
      bind_inv Hs ds Hds. injection Hs as <-. reflexivity. }
    destruct (AT50_loop_cycles solve_ivp _ _ _ _ _ _ _ _ Hloop) as [K1 [_ K3]].
    rewrite Hc in K1, K3. simpl in K1. rewrite Nat.add_0_r in K1.
    destruct applied as [|iv applied]; [left; reflexivity|]. right.
    rewrite <- Hcount by (simpl; lia). rewrite K1.
    apply K3; [exact Hq|]. rewrite <- K1. simpl. lia.
Qed.

(** With [intervalLength = 0] the cursor of [Simulate_AT1] does not move, and
    since its cycle count does not move either, a finite [nCycles] does not
    end the loop: after the first pass the instance and the locals repeat
    themselves, and no amount of fuel is enough. *)
Lemma AT1_body_stalled :
  AT1.body constant_solver at1_zero_length stalled_instance stalled_locals
  = Ok (stalled_instance, stalled_locals).
Proof. vm_compute. reflexivity. Qed.

Lemma AT1_loop_stalled (fuel : nat) : forall applied,
  AT1.loop constant_solver fuel at1_zero_length stalled_instance
    stalled_locals applied = OutOfFuel.
Proof.
  induction fuel as [|fuel IH]; intros applied.
  - reflexivity.
  - change (AT1.loop constant_solver (S fuel) at1_zero_length stalled_instance
              stalled_locals applied)
      with (match AT1.body constant_solver at1_zero_length stalled_instance
                    stalled_locals with
            | Raise e => Aborted e
            | Ok (self', loc') =>
                AT1.loop constant_solver fuel at1_zero_length self' loc'
                  (applied ++ [Interval 0 0 100])
            end).
    rewrite AT1_body_stalled. apply IH.
Qed.

Lemma AT1_never_ends_without_progress (fuel : nat) :
  AT1.Simulate_AT1 constant_solver fuel example_instance at1_zero_length
  = OutOfFuel.
Proof.
  unfold AT1.Simulate_AT1.
  change (AT1.setup example_instance at1_zero_length)
    with (Ok (AT1.Locals (0, 0 + 0) (1 * np_sum [99; 1]) 100 100 0)).
  destruct fuel as [|fuel]; [reflexivity|].
  change (AT1.loop constant_solver (S fuel) at1_zero_length example_instance
            (AT1.Locals (0, 0 + 0) (1 * np_sum [99; 1]) 100 100 0) [])
    with (match AT1.body constant_solver at1_zero_length example_instance
                  (AT1.Locals (0, 0 + 0) (1 * np_sum [99; 1]) 100 100 0) with
          | Raise e => Aborted e
          | Ok (self', loc') =>
              AT1.loop constant_solver fuel at1_zero_length self' loc'
                ([] ++ [Interval 0 (0 + 0) 100])
          end).
  assert (E : AT1.body constant_solver at1_zero_length example_instance
                (AT1.Locals (0, 0 + 0) (1 * np_sum [99; 1]) 100 100 0)
              = Ok (stalled_instance, stalled_locals)).
  { vm_compute. reflexivity. }
  rewrite E. rewrite AT1_loop_stalled. reflexivity.
Qed.

(** ** Continuity of the state across interval boundaries *)

Section Continuity.

Variable solve_ivp :
  model_class * dict -> list Q -> Q * Q -> list Q ->
  string -> Q -> Q -> ext -> result OdeResult.

Lemma run_intervals_chained (self : ODEModel) (n : nat) :
  forall (ivs : list (nat * interval)) (st st' : loop_state),
  encounteredProblemB st = false ->
  run_intervals solve_ivp self n ivs st = Ok st' ->
  exists cs,
    calls st' = calls st ++ cs /\
    chained (numericalStabilisationB (config self)) (currStateVec st) cs.
Proof.
  induction ivs as [|[i iv] rest IH]; intros st st' Hst H; simpl in H.
  - injection H as <-. exists []. split; [rewrite app_nil_r; reflexivity|].
    exact I.
  - bind_inv H st1 Hbody.
    destruct (interval_body_Ok solve_ivp _ _ _ _ _ _ Hbody)
      as (c & Hcalls & Hiv & Hy0 & _ & _ & Hprob & _ & Htv & _ & Hkept).
    rewrite Hst in Hprob. simpl in Hprob.
    destruct (encounteredProblemB st1) eqn:Hp1.
    + injection H as <-. exists [c]. split; [exact Hcalls|].
      simpl. split; [rewrite Hiv; exact Hy0 | left; reflexivity].
    + bind_inv H st2 Hsave.
      destruct (Hkept (eq_sym Hprob)) as [sol' [Hsol' [Hy' _]]].
      destruct (save_results_Ok _ _ _ _ _ Htv Hsol' Hsave)
        as [_ [Hnext [Hp2 [Hc2 _]]]].
      rewrite Hp1 in Hp2.
      destruct (IH st2 st' Hp2 H) as [cs [Kcalls Kchain]].
      exists (c :: cs). split.
      * rewrite Kcalls, Hc2, Hcalls, <- app_assoc. reflexivity.
      * simpl. split; [rewrite Hiv; exact Hy0|].
        right. exists (currStateVec st2). split; [|exact Kchain].
        rewrite <- Hy'. exact Hnext.
Qed.

End Continuity.

(** The state is carried across the boundaries of the intervals of one
    [Simulate] call: the first solver call starts from the starting state,
    and every later one from the last column of the solution kept for the
    interval before it, each with the dose of its own interval in the
    concentration slot. *)
Theorem state_carried_across_intervals
    (solve_ivp : model_class * dict -> list Q -> Q * Q -> list Q ->
                 string -> Q -> Q -> ext -> result OdeResult)
    (self : ODEModel) (sched : list interval) (kw : kwargs)
    (self' : ODEModel) (cs : list solver_call) :
  Simulate_trace solve_ivp self sched kw = Ok (self', cs) ->
  exists start old,
    start_state (configure self kw) sched = Ok (start, old) /\
    chained (numericalStabilisationB (config self')) start cs.
Proof.
  intros H.
  destruct (Simulate_trace_Ok solve_ivp _ _ _ _ _ H)
    as (start0 & old0 & kept & failing & theta & Hstart0 & _ & _ & _ & _ & _
        & _ & _ & _ & _ & _ & Hcfg & _).
  unfold Simulate_trace in H.
  bind_inv H so Hstart. destruct so as [start old].
  bind_inv H st Hrun. bind_inv H block Hblock. injection H as _ <-.
  exists start, old. split; [exact Hstart|].
  apply run_intervals_chained in Hrun; [|reflexivity].
  destruct Hrun as [cs [Hcalls Hchain]]. simpl in Hcalls, Hchain.
  rewrite Hcfg, Hcalls. exact Hchain.
Qed.

Lemma state_carried_across_intervals_witness :
  exists self' cs,
    Simulate_trace constant_solver example_instance three_intervals no_kwargs
    = Ok (self', cs) /\
    map c_y0 cs = [[99; 1; 5]; [99; 1; 0]; [99; 1; 1]] /\
    exists start old,
      start_state (configure example_instance no_kwargs) three_intervals
      = Ok (start, old) /\
      chained (numericalStabilisationB (config self')) start cs.
Proof.
  eexists. eexists.
  eassert (H : Simulate_trace constant_solver example_instance
                 three_intervals no_kwargs = Ok (?[m], ?[cs])).
  { vm_compute. reflexivity. }
  split; [exact H|]. split; [reflexivity|].
  exact (state_carried_across_intervals _ _ _ _ _ _ H).
Defined.

(** ** Removing duplicates twice *)

(** A frame without duplicate rows, none of them a duplicate of a row seen,
    is kept as it is. *)
Lemma drop_duplicates_from_fixed (df : DataFrame) : forall seen,
  ForallOrdPairs (fun r1 r2 => row_eqb r1 r2 = false) df ->
  Forall (fun r => existsb (row_eqb r) seen = false) df ->
  drop_duplicates_from seen df = df.
Proof.
  induction df as [|r df IH]; intros seen Hd Hs; simpl; [reflexivity|].
  inversion Hd as [|? ? Hr Hd']; subst.
  inversion Hs as [|? ? Hrs Hs']; subst.
  rewrite Hrs. f_equal. apply IH; [exact Hd'|].
  apply Forall_forall. intros x Hx. simpl.
  rewrite Forall_forall in Hr, Hs'.
  rewrite (Hs' x Hx), orb_false_r, row_eqb_sym. apply Hr. exact Hx.
Qed.

(** Removing duplicates is idempotent: a record that was cleaned up is left
    unchanged by a second clean-up. *)
Theorem drop_duplicates_idempotent (df : DataFrame) :
  drop_duplicates (drop_duplicates df) = drop_duplicates df.
Proof.
  unfold drop_duplicates. apply drop_duplicates_from_fixed.
  - apply drop_duplicates_from_distinct.
  - apply Forall_forall. intros r _. reflexivity.
Qed.

(* ================================================================== *)
(** ** The model equations *)

Lemma param_item (key : string) (dic : dict) (v : pyval) (q : Q) :
  dict_item key dic = Ok v -> as_num v = Ok q -> param key dic = Some q.
Proof.
  unfold dict_item, param. intros H Hq. apply of_option_Ok in H. rewrite H.
  destruct v; simpl in Hq; [injection Hq as ->; reflexivity | discriminate].
Qed.

Lemma item_param (key : string) (dic : dict) (q : Q) :
  param key dic = Some q -> dict_item key dic = Ok (PNum q).
Proof.
  unfold dict_item, param. destruct (dict_get key dic) as [[x|s]|]; try discriminate.
  intros H. injection H as ->. reflexivity.
Qed.

(** A returning call of [ModelEqns]: the state has three entries, the
    parameters it reads are numbers, and the result is built from the
    switching rates of the class. *)
Lemma ModelEqns_Ok (cl : model_class) (dic : dict) (t : Q) (uVec : list Q)
    (out : deriv) :
  ModelEqns (cl, dic) t uVec = Ok out ->
  exists S_ R_ cfrac Cmax lambda0 delta_d0 lambda1 u v,
    uVec = [S_; R_; cfrac] /\
    param "Cmax" dic = Some Cmax /\
    param "lambda0" dic = Some lambda0 /\
    param "delta_d0" dic = Some delta_d0 /\
    param "lambda1" dic = Some lambda1 /\
    switching_rates cl dic (cfrac * Cmax) = Ok (PNum u, PNum v) /\
    out = match saturation (cfrac * Cmax) with
          | Some s =>
              Deriv [ (lambda0 - delta_d0 * s - u) * S_ + v * R_;
                      (lambda1 - v) * R_ + u * S_; 0 ]
          | None => NonFinite
          end.
Proof.
  unfold ModelEqns. intros H.
  bind_inv H x Hx. destruct x as [[S_ R_] cfrac].
  bind_inv H Cmax0 HC0. bind_inv H Cmax HC.
  bind_inv H l0 Hl0. bind_inv H dd0 Hdd0. bind_inv H dd Hdd.
  bind_inv H l Hl. bind_inv H uv Huv. destruct uv as [u0 v0].
  bind_inv H u Hu. bind_inv H v Hv. bind_inv H l1 Hl1. bind_inv H l1' Hl1'.
  exists S_, R_, cfrac, Cmax, l, dd, l1', u, v.
  split.
  { destruct uVec as [|a [|b [|c [|e r]]]]; try discriminate.
    simpl in Hx. injection Hx as -> -> ->. reflexivity. }
  split; [eapply param_item; eassumption|].
  split; [eapply param_item; eassumption|].
  split; [eapply param_item; eassumption|].
  split; [eapply param_item; eassumption|].
  split.
  { rewrite Huv. destruct u0, v0; simpl in Hu, Hv; try discriminate.
    injection Hu as ->. injection Hv as ->. reflexivity. }
  destruct (saturation (cfrac * Cmax)); simpl in H; injection H as <-; reflexivity.
Qed.

(** X7.  Whatever the class and the parameters, a finite result of
    [ModelEqns] has three entries, the last of them [0] (the drug level is
    held), and the first two add up to
    [(lambda0 - delta_d0 * c / (c + 1)) * S + lambda1 * R] with
    [c = cfrac * Cmax]: the switching terms cancel, so the total growth does
    not depend on the class or on its switching rates. *)
Theorem ModelEqns_balance (cl : model_class) (dic : dict) (t : Q)
    (uVec d : list Q) :
  ModelEqns (cl, dic) t uVec = Ok (Deriv d) ->
  exists S_ R_ cfrac Cmax lambda0 delta_d0 lambda1 dS dR,
    uVec = [S_; R_; cfrac] /\
    param "Cmax" dic = Some Cmax /\
    param "lambda0" dic = Some lambda0 /\
    param "delta_d0" dic = Some delta_d0 /\
    param "lambda1" dic = Some lambda1 /\
    ~ cfrac * Cmax + 1 == 0 /\
    d = [dS; dR; 0] /\
    dS + dR
    == (lambda0 - delta_d0 * (cfrac * Cmax / (cfrac * Cmax + 1))) * S_
       + lambda1 * R_.
Proof.
  intros H. apply ModelEqns_Ok in H.
  destruct H as (S_ & R_ & cfrac & Cmax & l0 & dd & l1 & u & v
                 & -> & HC & Hl0 & Hdd & Hl1 & _ & Hout).
  unfold saturation in Hout.
  destruct (Qeq_bool (cfrac * Cmax + 1) 0) eqn:E; [discriminate|].
  injection Hout as ->.
  do 9 eexists. repeat (split; [eassumption || reflexivity|]).
  split.
  { intros Hz. apply Qeq_bool_iff in Hz. congruence. }
  split; [reflexivity|]. ring.
Qed.

Lemma ModelEqns_balance_witness :
  exists S_ R_ cfrac Cmax lambda0 delta_d0 lambda1 dS dR,
    [99; 1; 1] = [S_; R_; cfrac] /\
    param "Cmax" (linear_defaults "Linear 3") = Some Cmax /\
    param "lambda0" (linear_defaults "Linear 3") = Some lambda0 /\
    param "delta_d0" (linear_defaults "Linear 3") = Some delta_d0 /\
    param "lambda1" (linear_defaults "Linear 3") = Some lambda1 /\
    ~ cfrac * Cmax + 1 == 0 /\
    [ ((4 # 100) - (8 # 100) * (1 * 10 / (1 * 10 + 1))
       - ((4 # 10000) + (4 # 10000) * (1 * 10))) * 99
      + ((4 # 1000) - (4 # 10000) * (1 * 10)) * 1;
      ((1 # 1000) - ((4 # 1000) - (4 # 10000) * (1 * 10))) * 1
      + ((4 # 10000) + (4 # 10000) * (1 * 10)) * 99; 0 ] = [dS; dR; 0] /\
    dS + dR
    == (lambda0 - delta_d0 * (cfrac * Cmax / (cfrac * Cmax + 1))) * S_
       + lambda1 * R_.
Proof.
  apply (ModelEqns_balance EinarPersistorModelType3L
           (linear_defaults "Linear 3") 0 [99; 1; 1]).
  reflexivity.
Defined.

(** The converse of [ModelEqns_Ok]. *)
Lemma ModelEqns_value (cl : model_class) (dic : dict) (t : Q)
    (S_ R_ cfrac Cmax lambda0 delta_d0 lambda1 u v : Q) :
  param "Cmax" dic = Some Cmax ->
  param "lambda0" dic = Some lambda0 ->
  param "delta_d0" dic = Some delta_d0 ->
  param "lambda1" dic = Some lambda1 ->
  switching_rates cl dic (cfrac * Cmax) = Ok (PNum u, PNum v) ->
  ModelEqns (cl, dic) t [S_; R_; cfrac]
  = Ok match saturation (cfrac * Cmax) with
       | Some s =>
           Deriv [ (lambda0 - delta_d0 * s - u) * S_ + v * R_;
                   (lambda1 - v) * R_ + u * S_; 0 ]
       | None => NonFinite
       end.
Proof.
  intros HC Hl0 Hdd Hl1 Huv. unfold ModelEqns, unpack3. cbn [bind].
  rewrite (item_param _ _ _ HC). cbn [bind as_num].
  rewrite (item_param _ _ _ Hl0). cbn [bind].
  rewrite (item_param _ _ _ Hdd). cbn [bind as_num].
  rewrite Huv. cbn [bind as_num].
  rewrite (item_param _ _ _ Hl1). cbn [bind as_num].
  destruct (saturation (cfrac * Cmax)); reflexivity.
Qed.

(** Without drug the classes differ in nothing: the rates are the baseline
    rates [u0] and [v0]. *)
Lemma switching_rates_baseline (cl : model_class) (dic : dict) (c u v : Q) :
  switching_rates cl dic c = Ok (PNum u, PNum v) -> c == 0 ->
  exists u0 v0,
    param "u0" dic = Some u0 /\ param "v0" dic = Some v0 /\
    u == u0 /\ v == v0.
Proof.
  intros H Hc.
  assert (Hlt : Qlt_bool 0 c = false).
  { apply Qlt_bool_false. rewrite Hc. apply Qle_refl. }
  destruct cl; simpl in H; try discriminate.
  - bind_inv H u0 Hu0. bind_inv H k Hk. bind_inv H k' Hk'. bind_inv H u0' Hu0'.
    bind_inv H v0 Hv0. bind_inv H m Hm. bind_inv H m' Hm'. bind_inv H v0' Hv0'.
    injection H as <- <-. exists u0', v0'.
    split; [eapply param_item; eassumption|].
    split; [eapply param_item; eassumption|].
    rewrite Hc. split; ring.
  - bind_inv H u0 Hu0. bind_inv H v0 Hv0. bind_inv H m Hm. bind_inv H m' Hm'.
    bind_inv H v0' Hv0'. injection H as -> <-. exists u, v0'.
    split; [eapply param_item; [eassumption|reflexivity]|].
    split; [eapply param_item; eassumption|].
    rewrite Hc. split; ring.
  - bind_inv H u0 Hu0. bind_inv H k Hk. bind_inv H k' Hk'. bind_inv H u0' Hu0'.
    bind_inv H v0 Hv0. injection H as <- ->. exists u0', v.
    split; [eapply param_item; eassumption|].
    split; [eapply param_item; [eassumption|reflexivity]|].
    rewrite Hc. split; ring.
  - unfold uniform_rates in H.
    bind_inv H u0 Hu0. bind_inv H du Hdu. bind_inv H um Hum.
    bind_inv H v0 Hv0. bind_inv H dv Hdv. bind_inv H vm Hvm.
    rewrite Hlt in H. injection H as -> ->. exists u, v.
    split; [eapply param_item; [eassumption|reflexivity]|].
    split; [eapply param_item; [eassumption|reflexivity]|].
    split; reflexivity.
  - unfold uniform_rates in H.
    bind_inv H u0 Hu0. bind_inv H du Hdu. bind_inv H um Hum.
    bind_inv H v0 Hv0. bind_inv H dv Hdv. bind_inv H vm Hvm.
    rewrite Hlt in H. injection H as -> ->. exists u, v.
    split; [eapply param_item; [eassumption|reflexivity]|].
    split; [eapply param_item; [eassumption|reflexivity]|].
    split; reflexivity.
  - unfold uniform_rates in H.
    bind_inv H u0 Hu0. bind_inv H du Hdu. bind_inv H um Hum.
    bind_inv H v0 Hv0. bind_inv H dv Hdv. bind_inv H vm Hvm.
    rewrite Hlt in H. injection H as -> ->. exists u, v.
    split; [eapply param_item; [eassumption|reflexivity]|].
    split; [eapply param_item; [eassumption|reflexivity]|].
    split; reflexivity.
Qed.

(** X8.  Without drug ([cfrac = 0]) every class has the same right-hand
    side, whatever the parameters: a call that returns gives
    [(lambda0 - u0) * S + v0 * R] and [(lambda1 - v0) * R + u0 * S], a finite
    result in which the drug-dependent parameters ([Cmax], [delta_d0], [k],
    [m], [delta_u], [delta_v]) play no part. *)
Theorem ModelEqns_without_drug (cl : model_class) (dic : dict) (t S_ R_ : Q)
    (out : deriv) :
  ModelEqns (cl, dic) t [S_; R_; 0] = Ok out ->
  exists u0 v0 lambda0 lambda1 dS dR,
    param "u0" dic = Some u0 /\ param "v0" dic = Some v0 /\
    param "lambda0" dic = Some lambda0 /\
    param "lambda1" dic = Some lambda1 /\
    out = Deriv [dS; dR; 0] /\
    dS == (lambda0 - u0) * S_ + v0 * R_ /\
    dR == (lambda1 - v0) * R_ + u0 * S_.
Proof.
  intros H. apply ModelEqns_Ok in H.
  destruct H as (S' & R' & cfrac & Cmax & l0 & dd & l1 & u & v
                 & E & HC & Hl0 & Hdd & Hl1 & Huv & ->).
  injection E as <- <- <-.
  assert (Hc : 0 * Cmax == 0) by ring.
  destruct (switching_rates_baseline _ _ _ _ _ Huv Hc)
    as (u0 & v0 & Hu0 & Hv0 & Hu & Hv).
  unfold saturation.
  assert (Hne : Qeq_bool (0 * Cmax + 1) 0 = false).
  { destruct (Qeq_bool (0 * Cmax + 1) 0) eqn:E; [|reflexivity].
    apply Qeq_bool_iff in E. rewrite Hc in E. discriminate. }
  rewrite Hne.
  exists u0, v0, l0, l1. do 2 eexists.
  repeat (split; [eassumption || reflexivity|]).
  split.
  - rewrite Hu, Hv. field.
  - rewrite Hu, Hv. ring.
Qed.

Lemma ModelEqns_without_drug_witness :
  exists u0 v0 lambda0 lambda1 dS dR,
    param "u0" uniform_defaults = Some u0 /\
    param "v0" uniform_defaults = Some v0 /\
    param "lambda0" uniform_defaults = Some lambda0 /\
    param "lambda1" uniform_defaults = Some lambda1 /\
    Deriv [ ((4 # 100) - (8 # 100) * (0 * 10 / (0 * 10 + 1)) - (4 # 10000)) * 99
            + (4 # 1000) * 1;
            ((1 # 1000) - (4 # 1000)) * 1 + (4 # 10000) * 99; 0 ]
    = Deriv [dS; dR; 0] /\
    dS == (lambda0 - u0) * 99 + v0 * 1 /\
    dR == (lambda1 - v0) * 1 + u0 * 99.
Proof.
  apply (ModelEqns_without_drug EinarPersistorModelTypeU uniform_defaults 0).
  reflexivity.
Defined.

(** The bound method of a constructed instance: its class and the class
    defaults laid over the base parameters. *)
Lemma constructed_method (float_of_str : string -> option Q)
    (cl : model_class) (kw : kwargs) (self : ODEModel)
    (f : model_class * dict) :
  class_init float_of_str cl kw = Ok self ->
  bound_ModelEqns self = Ok f ->
  cl <> ODEModelBase /\
  f = (cl, dict_merge [("DMax"%string, PNum 100)] (class_defaults cl)).
Proof.
  unfold class_init, ODEModel_init, SetParams. simpl.
  destruct cl; intros H; injection H as <-; unfold bound_ModelEqns; simpl;
    intros Hf; try discriminate; injection Hf as <-;
    (split; [discriminate | reflexivity]).
Qed.

Lemma constructed_params (cl : model_class) :
  cl <> ODEModelBase ->
  let dic := dict_merge [("DMax"%string, PNum 100)] (class_defaults cl) in
  param "Cmax" dic = Some 10 /\
  param "lambda0" dic = Some (4 # 100) /\
  param "delta_d0" dic = Some (8 # 100) /\
  param "lambda1" dic = Some (1 # 1000).
Proof.
  intros Hcl. destruct cl; [contradiction| | | | | |];
    repeat split; reflexivity.
Qed.

(** The switching rates of a constructed instance: they exist at every drug
    level, are non-negative for [0 <= c <= Cmax = 10], and the reversion rate
    [v] of the classes with a decreasing [v] is [v0 - m * c]. *)
Lemma constructed_rates (cl : model_class) (c : Q) :
  cl <> ODEModelBase ->
  exists u v,
    switching_rates cl
      (dict_merge [("DMax"%string, PNum 100)] (class_defaults cl)) c
    = Ok (PNum u, PNum v) /\
    (0 <= c -> c <= 10 -> 0 <= u /\ 0 <= v) /\
    (cl = EinarPersistorModelType3L \/ cl = EinarPersistorModelType2L ->
     v == (4 # 1000) - (4 # 10000) * c).
Proof.
  intros Hcl.
  destruct cl; [contradiction| | | | | |].
  - do 2 eexists. split; [reflexivity|]. split; [|reflexivity]. intros. split; lra.
  - do 2 eexists. split; [reflexivity|]. split; [|reflexivity]. intros. split; lra.
  - do 2 eexists. split; [reflexivity|].
    split; [intros; split; lra | intros [E|E]; discriminate].
  - destruct (Qlt_bool 0 c) eqn:E.
    + do 2 eexists. split; [unfold switching_rates, uniform_rates; cbn; rewrite E; reflexivity|].
      split; [intros; split; lra | intros [E'|E']; discriminate].
    + do 2 eexists. split; [unfold switching_rates, uniform_rates; cbn; rewrite E; reflexivity|].
      split; [intros; split; lra | intros [E'|E']; discriminate].
  - destruct (Qlt_bool 0 c) eqn:E.
    + do 2 eexists. split; [unfold switching_rates, uniform_rates; cbn; rewrite E; reflexivity|].
      split; [intros; split; lra | intros [E'|E']; discriminate].
    + do 2 eexists. split; [unfold switching_rates, uniform_rates; cbn; rewrite E; reflexivity|].
      split; [intros; split; lra | intros [E'|E']; discriminate].
  - destruct (Qlt_bool 0 c) eqn:E.
    + do 2 eexists. split; [unfold switching_rates, uniform_rates; cbn; rewrite E; reflexivity|].
      split; [intros; split; lra | intros [E'|E']; discriminate].
    + do 2 eexists. split; [unfold switching_rates, uniform_rates; cbn; rewrite E; reflexivity|].
      split; [intros; split; lra | intros [E'|E']; discriminate].
Qed.

Lemma saturation_Some (c : Q) :
  ~ c + 1 == 0 -> saturation c = Some (c / (c + 1)).
Proof.
  intros H. unfold saturation.
  destruct (Qeq_bool (c + 1) 0) eqn:E; [|reflexivity].
  apply Qeq_bool_iff in E. contradiction.
Qed.

(** X9.  On an instance built by the constructor of one of the six classes,
    [ModelEqns] raises [ValueError] when the state has not exactly three
    entries and returns for every state of three entries; the result fails
    to be finite exactly when [cfrac * 10 + 1 == 0]. *)
Theorem ModelEqns_constructed_returns (float_of_str : string -> option Q)
    (cl : model_class) (kw : kwargs) (self : ODEModel)
    (f : model_class * dict) :
  class_init float_of_str cl kw = Ok self ->
  bound_ModelEqns self = Ok f ->
  (forall t uVec, List.length uVec <> 3%nat ->
     ModelEqns f t uVec = Raise ValueError) /\
  (forall t S_ R_ cfrac, exists out,
     ModelEqns f t [S_; R_; cfrac] = Ok out /\
     (out = NonFinite <-> cfrac * 10 + 1 == 0)).
Proof.
  intros Hinit Hf.
  destruct (constructed_method _ _ _ _ _ Hinit Hf) as [Hcl ->].
  split.
  - intros t uVec Hlen. unfold ModelEqns.
    destruct uVec as [|a [|b [|c [|e r]]]]; try reflexivity.
    exfalso. apply Hlen. reflexivity.
  - intros t S_ R_ cfrac.
    destruct (constructed_params cl Hcl) as (HC & Hl0 & Hdd & Hl1).
    destruct (constructed_rates cl (cfrac * 10) Hcl) as (u & v & Huv & _).
    eexists. split.
    + apply (ModelEqns_value _ _ _ _ _ _ _ _ _ _ _ _ HC Hl0 Hdd Hl1 Huv).
    + unfold saturation.
      destruct (Qeq_bool (cfrac * 10 + 1) 0) eqn:E.
      * apply Qeq_bool_iff in E. split; [intros _; exact E | reflexivity].
      * split; [discriminate|]. intros Hz. apply Qeq_bool_iff in Hz. congruence.
Qed.

Lemma ModelEqns_constructed_returns_witness :
  (forall t uVec, List.length uVec <> 3%nat ->
     ModelEqns (EinarPersistorModelTypeU2,
                dict_merge [("DMax"%string, PNum 100)] uniform_defaults)
       t uVec = Raise ValueError) /\
  (forall t S_ R_ cfrac, exists out,
     ModelEqns (EinarPersistorModelTypeU2,
                dict_merge [("DMax"%string, PNum 100)] uniform_defaults)
       t [S_; R_; cfrac] = Ok out /\
     (out = NonFinite <-> cfrac * 10 + 1 == 0)).
Proof.
  destruct (class_init (fun _ => None) EinarPersistorModelTypeU2 no_kwargs)
    as [self|e] eqn:E; [|discriminate].
  apply (ModelEqns_constructed_returns (fun _ => None)
           EinarPersistorModelTypeU2 no_kwargs self).
  - exact E.
  - injection E as <-. reflexivity.
Defined.

(** X10.  On a constructed instance of any of the six classes and for a
    drug level [0 <= cfrac <= 1], the right-hand side points into the
    non-negative quadrant on its boundary: with no sensitive cells and
    [R >= 0] the sensitive population does not decrease, with no resistant
    cells and [S >= 0] the resistant population does not decrease. *)
Theorem ModelEqns_inward_on_boundary (float_of_str : string -> option Q)
    (cl : model_class) (kw : kwargs) (self : ODEModel)
    (f : model_class * dict) (t S_ R_ cfrac : Q) :
  class_init float_of_str cl kw = Ok self ->
  bound_ModelEqns self = Ok f ->
  0 <= cfrac -> cfrac <= 1 ->
  exists dS dR,
    ModelEqns f t [S_; R_; cfrac] = Ok (Deriv [dS; dR; 0]) /\
    (S_ == 0 -> 0 <= R_ -> 0 <= dS) /\
    (R_ == 0 -> 0 <= S_ -> 0 <= dR).
Proof.
  intros Hinit Hf H0 H1.
  destruct (constructed_method _ _ _ _ _ Hinit Hf) as [Hcl ->].
  destruct (constructed_params cl Hcl) as (HC & Hl0 & Hdd & Hl1).
  destruct (constructed_rates cl (cfrac * 10) Hcl) as (u & v & Huv & Hpos & _).
  destruct Hpos as [Hu Hv]; [lra | lra |].
  rewrite (ModelEqns_value _ _ _ _ _ _ _ _ _ _ _ _ HC Hl0 Hdd Hl1 Huv).
  rewrite saturation_Some by lra.
  do 2 eexists. split; [reflexivity|]. split.
  - intros HS HR. rewrite HS.
    match goal with
    | |- 0 <= ?a * 0 + ?b => setoid_replace (a * 0 + b) with b by ring
    end.
    apply Qmult_le_0_compat; assumption.
  - intros HR HS. rewrite HR.
    match goal with
    | |- 0 <= ?a * 0 + ?b => setoid_replace (a * 0 + b) with b by ring
    end.
    apply Qmult_le_0_compat; assumption.
Qed.

Lemma ModelEqns_inward_on_boundary_witness :
  exists dS dR,
    ModelEqns (EinarPersistorModelType3L,
               dict_merge [("DMax"%string, PNum 100)]
                 (linear_defaults "Linear 3"))
      0 [0; 5; 1] = Ok (Deriv [dS; dR; 0]) /\
    (0 == 0 -> 0 <= 5 -> 0 <= dS) /\
    (5 == 0 -> 0 <= 0 -> 0 <= dR).
Proof.
  destruct (class_init (fun _ => None) EinarPersistorModelType3L no_kwargs)
    as [self|e] eqn:E; [|discriminate].
  apply (ModelEqns_inward_on_boundary (fun _ => None)
           EinarPersistorModelType3L no_kwargs self).
  - exact E.
  - injection E as <-. reflexivity.
  - lra.
  - lra.
Defined.

(** X11.  On a constructed instance of the two classes whose reversion rate
    falls with the drug ([EinarPersistorModelType3L] and [...2L]), a drug
    level [cfrac > 1] makes that rate negative: with no sensitive cells and
    [R > 0] the derivative of the sensitive population is
    [(0.004 - 0.004 * cfrac) * R < 0], so the right-hand side points out of
    the non-negative quadrant. *)
Theorem ModelEqns_outward_above_Cmax (float_of_str : string -> option Q)
    (cl : model_class) (kw : kwargs) (self : ODEModel)
    (f : model_class * dict) (t R_ cfrac : Q) :
  class_init float_of_str cl kw = Ok self ->
  bound_ModelEqns self = Ok f ->
  cl = EinarPersistorModelType3L \/ cl = EinarPersistorModelType2L ->
  1 < cfrac -> 0 < R_ ->
  exists dS dR,
    ModelEqns f t [0; R_; cfrac] = Ok (Deriv [dS; dR; 0]) /\
    dS == ((4 # 1000) - (4 # 1000) * cfrac) * R_ /\
    dS < 0.
Proof.
  intros Hinit Hf Hlin H1 HR.
  destruct (constructed_method _ _ _ _ _ Hinit Hf) as [Hcl ->].
  destruct (constructed_params cl Hcl) as (HC & Hl0 & Hdd & Hl1).
  destruct (constructed_rates cl (cfrac * 10) Hcl) as (u & v & Huv & _ & Hv).
  specialize (Hv Hlin).
  rewrite (ModelEqns_value _ _ _ _ _ _ _ _ _ _ _ _ HC Hl0 Hdd Hl1 Huv).
  rewrite saturation_Some by lra.
  do 2 eexists. split; [reflexivity|].
  match goal with
  | |- ?a * 0 + ?b == _ /\ _ =>
      assert (E : a * 0 + b == ((4 # 1000) - (4 # 1000) * cfrac) * R_)
  end.
  { rewrite Hv. ring. }
  split; [exact E|]. rewrite E.
  setoid_replace 0 with (0 * R_) by ring.
  apply Qmult_lt_compat_r; [exact HR | lra].
Qed.

Lemma ModelEqns_outward_above_Cmax_witness :
  exists dS dR,
    ModelEqns (EinarPersistorModelType2L,
               dict_merge [("DMax"%string, PNum 100)]
                 (linear_defaults "Linear 2"))
      0 [0; 5; 100] = Ok (Deriv [dS; dR; 0]) /\
    dS == ((4 # 1000) - (4 # 1000) * 100) * 5 /\
    dS < 0.
Proof.
  destruct (class_init (fun _ => None) EinarPersistorModelType2L no_kwargs)
    as [self|e] eqn:E; [|discriminate].
  apply (ModelEqns_outward_above_Cmax (fun _ => None)
           EinarPersistorModelType2L no_kwargs self).
  - exact E.
  - injection E as <-. reflexivity.
  - right. reflexivity.
  - reflexivity.
  - reflexivity.
Defined.

(* ================================================================== *)
(** ** The time column of the record *)

Lemma frame_rows_Time (grid : list Q) : forall drug cols,
  (List.length grid <= List.length drug)%nat ->
  map sr_Time (frame_rows grid drug cols) = grid.
Proof.
  induction grid as [|t grid IH]; intros drug cols Hlen; [reflexivity|].
  destruct drug as [|d drug]; [simpl in Hlen; lia|].
  simpl. f_equal. apply IH. simpl in Hlen. lia.
Qed.

Lemma zero_frame_Time (vars : list string) (grid : list Q) :
  map sr_Time (zero_frame vars grid) = grid.
Proof.
  unfold zero_frame. rewrite map_map. simpl. apply map_id.
Qed.

(** The frame of a call whose solution has the promised shape holds one row
    for each point of the grid of the call. *)
Lemma call_frame_Time (vars : list string) (stab : bool) (c : solver_call)
    (a : nat) :
  well_shaped (y (c_result c)) a (List.length (c_t_eval c)) = true ->
  a <> 0%nat ->
  map sr_Time (call_frame vars stab c) = c_t_eval c.
Proof.
  intros Hs Ha. unfold call_frame. apply frame_rows_Time.
  rewrite <- (kept_y_shape stab) in Hs.
  unfold well_shaped in Hs. apply andb_true_iff in Hs. destruct Hs as [Hn Hr].
  apply Nat.eqb_eq in Hn. rewrite forallb_forall in Hr.
  destruct (kept_y stab (c_result c)) as [|r ys] eqn:E; [simpl in Hn; congruence|].
  assert (Hin : In (last (r :: ys) []) (r :: ys)).
  { destruct (@exists_last _ (r :: ys)) as (l' & x & El); [discriminate|].
    rewrite El, last_last. apply in_or_app. right. left. reflexivity. }
  apply Hr in Hin. apply Nat.eqb_eq in Hin. rewrite Hin. apply Nat.le_refl.
Qed.

Section RecordProperties.

Variable solve_ivp :
  model_class * dict -> list Q -> Q * Q -> list Q ->
  string -> Q -> Q -> ext -> result OdeResult.

(** Every call of the interval loop whose frame is kept contributes one row
    for each point of its grid. *)
Lemma run_intervals_frames (self : ODEModel) (n : nat) :
  forall (ivs : list (nat * interval)) (st st' : loop_state),
  encounteredProblemB st = false ->
  run_intervals solve_ivp self n ivs st = Ok st' ->
  exists cs,
    calls st' = calls st ++ cs /\
    Forall (fun c =>
              interval_failed (numericalStabilisationB (config self))
                (c_result c) = false ->
              map sr_Time (call_frame (stateVars self)
                             (numericalStabilisationB (config self)) c)
              = c_t_eval c) cs.
Proof.
  induction ivs as [|[i iv] rest IH]; intros st st' Hst H; simpl in H.
  - injection H as <-. exists []. rewrite app_nil_r. split; [reflexivity | constructor].
  - bind_inv H st1 Hbody.
    destruct (interval_body_Ok solve_ivp _ _ _ _ _ _ Hbody)
      as (c & Hcalls & Hiv & Hy0 & _ & _ & Hprob & _ & Htv & Hgne & Hkept).
    rewrite Hst in Hprob. simpl in Hprob.
    assert (Hy0ne : c_y0 c <> []).
    { rewrite Hy0. unfold set_last. intros E. apply app_eq_nil in E.
      destruct E as [_ E]. discriminate. }
    assert (Hframe :
              interval_failed (numericalStabilisationB (config self))
                (c_result c) = false ->
              map sr_Time (call_frame (stateVars self)
                             (numericalStabilisationB (config self)) c)
              = c_t_eval c).
    { intros Hok. destruct (Hkept Hok) as (sol' & _ & _ & Hshape).
      apply call_frame_Time with (List.length (c_y0 c)); [exact Hshape|].
      intros E. apply length_zero_iff_nil in E. contradiction. }
    destruct (encounteredProblemB st1) eqn:Hp1.
    + injection H as <-. exists [c].
      split; [exact Hcalls | constructor; [exact Hframe | constructor]].
    + bind_inv H st2 Hsave.
      destruct (Hkept (eq_sym Hprob)) as (sol' & Hsol' & _ & _).
      destruct (save_results_Ok _ _ _ _ _ Htv Hsol' Hsave)
        as (_ & _ & Hp2 & Hc2 & _).
      rewrite Hp1 in Hp2.
      destruct (IH st2 st' Hp2 H) as (cs & Kcalls & Kframe).
      exists (c :: cs).
      split; [rewrite Kcalls, Hc2, Hcalls, <- app_assoc; reflexivity|].
      constructor; [exact Hframe | exact Kframe].
Qed.


Lemma Simulate_trace_run (self : ODEModel) (sched : list interval)
    (kw : kwargs) (self' : ODEModel) (cs : list solver_call) :
  Simulate_trace solve_ivp self sched kw = Ok (self', cs) ->
  exists start old st,
    start_state (configure self kw) sched = Ok (start, old) /\
    run_intervals solve_ivp (configure self kw) (List.length sched)
      (enumerate sched)
      (LoopState start [] false None (errMessage (configure self kw))
         (solObj (configure self kw)) []) = Ok st /\
    cs = calls st.
Proof.
  unfold Simulate_trace. intros H.
  bind_inv H so Hstart. destruct so as [start old].
  bind_inv H st Hrun. bind_inv H block Hblock. injection H as _ <-.
  exists start, old, st. repeat split; assumption.
Qed.

Lemma concat_map_Time (vars : list string) (stab : bool)
    (kept : list solver_call) :
  Forall (fun c => map sr_Time (call_frame vars stab c) = c_t_eval c) kept ->
  map sr_Time (List.concat (map (call_frame vars stab) kept))
  = List.concat (map c_t_eval kept).
Proof.
  induction 1 as [|c kept Hc _ IH]; [reflexivity|].
  simpl. rewrite map_app, Hc, IH. reflexivity.
Qed.

Lemma block_of_Time (vars : list string) (stab : bool) (theta : Q)
    (kept failing : list solver_call) :
  Forall (fun c => map sr_Time (call_frame vars stab c) = c_t_eval c) kept ->
  map Time (block_of vars stab theta kept failing) = block_times kept failing.
Proof.
  intros Hk. unfold block_of, block_times. rewrite map_map.
  change (fun x => Time (with_size theta x)) with sr_Time.
  destruct kept as [|c kept].
  - destruct failing as [|f failing]; [reflexivity | apply zero_frame_Time].
  - apply concat_map_Time. exact Hk.
Qed.

(** The rows of a [Simulate] call and the grids of its solver calls. *)
Lemma Simulate_trace_block (self : ODEModel) (sched : list interval)
    (kw : kwargs) (self' : ODEModel) (cs : list solver_call) :
  Simulate_trace solve_ivp self sched kw = Ok (self', cs) ->
  exists start old kept failing theta block,
    start_state (configure self kw) sched = Ok (start, old) /\
    cs = kept ++ failing /\
    ((failing = [] /\ kept <> [] /\ successB self' = true)
     \/ (exists c, failing = [c] /\ successB self' = false)) /\
    as_num (dict_get_default "scaleFactor" (PNum 1) (paramDic self))
    = Ok theta /\
    resultsDf self'
    = Some (match old with Some prev => prev | None => [] end ++ block) /\
    map Time block = block_times kept failing /\
    Forall (fun r => TumourSize r = theta * np_sum (vals r) /\
                     List.length (vals r) = List.length (stateVars self))
      block.
Proof.
  intros H.
  destruct (Simulate_trace_run _ _ _ _ _ H) as (start0 & old0 & st & Hs0 & Hrun & Ecs).
  destruct (Simulate_trace_Ok solve_ivp _ _ _ _ _ H)
    as (start & old & kept & failing & theta & Hstart & Hcs & Hkept & _ & _ & _
        & _ & Htheta & Hend & Hdf & Hwidth & _).
  apply run_intervals_frames in Hrun; [|reflexivity].
  destruct Hrun as (cs' & Hcalls & Hframes). simpl in Hcalls.
  rewrite <- Ecs in Hcalls. subst cs'.
  exists start, old, kept, failing, theta.
  eexists. split; [exact Hstart|]. split; [exact Hcs|].
  split.
  { destruct Hend as [(E & Hne & _ & Hok) | (c & E & _ & Hno)].
    - left. repeat split; assumption.
    - right. exists c. split; assumption. }
  split; [exact Htheta|]. split; [exact Hdf|].
  split.
  - apply block_of_Time. rewrite Hcs in Hframes.
    apply Forall_app in Hframes. destruct Hframes as [Hfk _].
    rewrite Forall_forall in Hfk, Hkept. apply Forall_forall.
    intros c Hc. apply Hfk; [exact Hc | apply Hkept; exact Hc].
  - rewrite Forall_forall in Hwidth. apply Forall_forall. intros r Hr.
    split; [|apply Hwidth; exact Hr].
    unfold block_of in Hr. apply in_map_iff in Hr.
    destruct Hr as (sr & <- & _). reflexivity.
Qed.


(** X12.  The rows that a successful [Simulate] call appends are one row
    for each point of the evaluation grids of its solver calls, in order:
    their [Time] column is the grids laid end to end, every row holds one
    value for each state variable, and its [TumourSize] is the scale factor
    times the sum of these values. *)
Theorem record_rows_follow_grids (self : ODEModel) (sched : list interval)
    (kw : kwargs) (self' : ODEModel) (cs : list solver_call) :
  Simulate_trace solve_ivp self sched kw = Ok (self', cs) ->
  successB self' = true ->
  exists start old theta block,
    start_state (configure self kw) sched = Ok (start, old) /\
    as_num (dict_get_default "scaleFactor" (PNum 1) (paramDic self))
    = Ok theta /\
    resultsDf self'
    = Some (match old with Some prev => prev | None => [] end ++ block) /\
    map Time block = List.concat (map c_t_eval cs) /\
    map c_interval cs = sched /\
    Forall (fun r => TumourSize r = theta * np_sum (vals r) /\
                     List.length (vals r) = List.length (stateVars self))
      block.
Proof.
  intros H Hok.
  destruct (Simulate_trace_Ok solve_ivp _ _ _ _ _ H)
    as (s0 & o0 & kept0 & failing0 & th0 & _ & Hcs0 & _ & _ & _ & Hiv & _ & _
        & Hend0 & _).
  destruct (Simulate_trace_block _ _ _ _ _ H)
    as (start & old & kept & failing & theta & block & Hstart & Hcs & Hend
        & Htheta & Hdf & Htime & Hrows).
  destruct Hend as [(E & Hne & _) | (c & _ & Hno)]; [|congruence].
  subst failing. rewrite app_nil_r in Hcs. subst kept.
  exists start, old, theta, block.
  repeat (split; [assumption|]).
  split.
  { rewrite Htime. unfold block_times. destruct cs; reflexivity. }
  split; [|exact Hrows].
  destruct Hend0 as [(E & _ & Hlen & _) | (c & _ & _ & Hno)]; [|congruence].
  subst failing0. rewrite app_nil_r in Hcs0. subst kept0.
  rewrite Hiv, Hlen. apply firstn_all.
Qed.

End RecordProperties.

Lemma record_rows_follow_grids_witness :
  exists self' cs start old theta block,
    Simulate_trace constant_solver example_instance three_intervals no_kwargs
    = Ok (self', cs) /\
    start_state (configure example_instance no_kwargs) three_intervals
    = Ok (start, old) /\
    as_num (dict_get_default "scaleFactor" (PNum 1) (paramDic example_instance))
    = Ok theta /\
    resultsDf self'
    = Some (match old with Some prev => prev | None => [] end ++ block) /\
    map Time block = List.concat (map c_t_eval cs) /\
    map Time block = [0; 1; 2; 3] /\
    map c_interval cs = three_intervals /\
    Forall (fun r => TumourSize r = theta * np_sum (vals r) /\
                     List.length (vals r)
                     = List.length (stateVars example_instance))
      block.
Proof.
  eexists. eexists.
  eassert (H : Simulate_trace constant_solver example_instance
                 three_intervals no_kwargs = Ok (?[m], ?[cs])).
  { vm_compute. reflexivity. }
  destruct (record_rows_follow_grids _ _ _ _ _ _ H eq_refl)
    as (start & old & theta & block & Hs & Ht & Hdf & Htime & Hiv & Hrows).
  exists start, old, theta, block.
  split; [exact H|]. split; [exact Hs|]. split; [exact Ht|].
  split; [exact Hdf|]. split; [exact Htime|].
  split; [rewrite Htime; reflexivity|]. split; [exact Hiv | exact Hrows].
Defined.

(* ================================================================== *)
(** ** The intervals that the controllers simulate *)

Section Schedules.

Variable solve_ivp :
  model_class * dict -> list Q -> Q * Q -> list Q ->
  string -> Q -> Q -> ext -> result OdeResult.

Lemma AT1_body_interval (a : AT1.args) (self : ODEModel) (loc : AT1.locals)
    (self' : ODEModel) (loc' : AT1.locals) :
  AT1.body solve_ivp a self loc = Ok (self', loc') ->
  AT1.currInterval loc' = shift (AT1.currInterval loc) (AT1.intervalLength a) /\
  AT1.currCycleId loc' = AT1.currCycleId loc.
Proof.
  unfold AT1.body. intros Hb. bind_inv Hb m1 Hm. bind_inv Hb T HT.
  bind_inv Hb l1 Hl. injection Hb as _ <-.
  split; [eapply AT1_decide_interval | eapply AT1_decide_cycle]; exact Hl.
Qed.

Lemma AT2_body_interval (a : AT2.args) (self : ODEModel) (loc : AT2.locals)
    (self' : ODEModel) (loc' : AT2.locals) :
  AT2.body solve_ivp a self loc = Ok (self', loc') ->
  AT2.currInterval loc' = shift (AT2.currInterval loc) (AT2.intervalLength a) /\
  AT2.currCycleId loc' = S (AT2.currCycleId loc).
Proof.
  unfold AT2.body. intros Hb. bind_inv Hb m1 Hm. bind_inv Hb T HT.
  bind_inv Hb l1 Hl. injection Hb as _ <-.
  split; [eapply AT2_decide_interval | eapply AT2_decide_cycle]; exact Hl.
Qed.

(** The loop of [Simulate_AT1]: the intervals it adds lie end to end from
    the cursor, none ends after [t_end + intervalLength], and the loop
    leaves with its test false at a cursor one interval after the last. *)
Lemma AT1_loop_schedule (fuel : nat) (a : AT1.args) :
  forall self loc applied self' loc' applied',
  snd (AT1.currInterval loc)
  = fst (AT1.currInterval loc) + AT1.intervalLength a ->
  AT1.loop solve_ivp fuel a self loc applied = Finished (self', loc', applied') ->
  exists new,
    applied' = applied ++ new /\
    end_to_end (AT1.intervalLength a) (fst (AT1.currInterval loc)) new /\
    Forall (fun iv => iv_end iv <= AT1.t_end a + AT1.intervalLength a) new /\
    continue (AT1.currInterval loc') (AT1.t_end a) (AT1.intervalLength a)
      (AT1.currCycleId loc') (AT1.nCycles a) = false /\
    AT1.currCycleId loc' = AT1.currCycleId loc /\
    (new = [] -> loc' = loc) /\
    (new <> [] ->
     snd (AT1.currInterval loc')
     = iv_end (last new (Interval 0 0 0)) + AT1.intervalLength a /\
     lt_ext (inject_Z (Z.of_nat (AT1.currCycleId loc))) (AT1.nCycles a) = true).
Proof.
  induction fuel as [|fuel IH]; intros self loc applied self' loc' applied' Hci H;
    simpl in H;
    destruct (continue (AT1.currInterval loc) _ _ _ _) eqn:Hc; try discriminate.
  - injection H as _ <- <-. exists []. rewrite app_nil_r.
    split; [reflexivity|]. split; [exact I|]. split; [constructor|].
    split; [exact Hc|]. split; [reflexivity|]. split; [reflexivity|].
    intros E. contradiction.
  - destruct (AT1.body solve_ivp a self loc) as [[m l]|e] eqn:Hb;
      [|discriminate].
    destruct (AT1_body_interval _ _ _ _ _ Hb) as [Hl Hcyc].
    assert (Hci' : snd (AT1.currInterval l)
                   = fst (AT1.currInterval l) + AT1.intervalLength a).
    { rewrite Hl. simpl. rewrite Hci. reflexivity. }
    destruct (IH _ _ _ _ _ _ Hci' H)
      as (new & E & Hchain & Hwithin & Hexit & Hcyc' & Hnil & Hlast).
    exists (Interval (fst (AT1.currInterval loc)) (snd (AT1.currInterval loc))
              (AT1.dose loc) :: new).
    split; [rewrite E, <- app_assoc; reflexivity|].
    split.
    { simpl. split; [reflexivity|]. split; [exact Hci|].
      rewrite Hl in Hchain. exact Hchain. }
    split.
    { constructor; [|exact Hwithin]. simpl.
      apply continue_horizon in Hc. exact Hc. }
    split; [exact Hexit|]. split; [congruence|].
    split; [discriminate|]. intros _.
    assert (Hlt : lt_ext (inject_Z (Z.of_nat (AT1.currCycleId loc)))
                    (AT1.nCycles a) = true).
    { unfold continue in Hc. apply andb_true_iff in Hc. apply Hc. }
    split; [|exact Hlt].
    destruct new as [|iv new].
    + rewrite (Hnil eq_refl), Hl. reflexivity.
    + destruct (Hlast ltac:(discriminate)) as [Hs _].
      rewrite Hs. reflexivity.
  - injection H as _ <- <-. exists []. rewrite app_nil_r.
    split; [reflexivity|]. split; [exact I|]. split; [constructor|].
    split; [exact Hc|]. split; [reflexivity|]. split; [reflexivity|].
    intros E. contradiction.
Qed.



Lemma setup_AT1_interval (self : ODEModel) (a : AT1.args) (loc : AT1.locals) :
  AT1.setup self a = Ok loc ->
  AT1.currInterval loc
  = (fst (span_or (AT1.t_span a) (AT1.t_end a)),
     fst (span_or (AT1.t_span a) (AT1.t_end a)) + AT1.intervalLength a) /\
  AT1.currCycleId loc = 0%nat.
Proof.
  unfold AT1.setup. intros H. bind_inv H r Hr. bind_inv H d Hd.
  injection H as <-. split; reflexivity.
Qed.

(** X14.  The intervals that [Simulate_AT1] simulates lie end to end from
    the start of [t_span], each of length [intervalLength]; none ends after
    [t_end + intervalLength], and the last one ends after [t_end]: the
    controller simulates past [t_end], by up to one interval. *)
Theorem AT1_schedule (fuel : nat) (self : ODEModel) (a : AT1.args)
    (self' : ODEModel) (applied : list interval) :
  AT1.Simulate_AT1 solve_ivp fuel self a = Finished (self', applied) ->
  end_to_end (AT1.intervalLength a)
    (fst (span_or (AT1.t_span a) (AT1.t_end a))) applied /\
  Forall (fun iv => iv_end iv <= AT1.t_end a + AT1.intervalLength a) applied /\
  (applied <> [] -> AT1.t_end a < iv_end (last applied (Interval 0 0 0))).
Proof.
  unfold AT1.Simulate_AT1. intros H.
  destruct (AT1.setup self a) as [loc|e] eqn:Hs; [|discriminate].
  destruct (AT1.loop solve_ivp fuel a self loc []) as [[[m l] ap]|e|] eqn:Hl;
    try discriminate.
  destruct (clean_up m) as [m'|e]; [|discriminate]. injection H as _ <-.
  destruct (setup_AT1_interval _ _ _ Hs) as [Hci Hcyc].
  apply AT1_loop_schedule in Hl; [|rewrite Hci; reflexivity].
  destruct Hl as (new & E & Hchain & Hwithin & Hexit & Hcyc' & _ & Hlast).
  simpl in E. subst ap. rewrite Hci in Hchain.
  split; [exact Hchain|]. split; [exact Hwithin|].
  intros Hne. destruct (Hlast Hne) as [Hsnd Hlt].
  unfold continue in Hexit. rewrite Hcyc', Hlt, andb_true_r in Hexit.
  apply Qle_bool_false_iff in Hexit. rewrite Hsnd in Hexit. lra.
Qed.

(** The loop of [Simulate_AT2], as for [Simulate_AT1]; it counts one cycle
    for each interval it adds. *)
Lemma AT2_loop_schedule (fuel : nat) (a : AT2.args) :
  forall self loc applied self' loc' applied',
  snd (AT2.currInterval loc)
  = fst (AT2.currInterval loc) + AT2.intervalLength a ->
  AT2.loop solve_ivp fuel a self loc applied = Finished (self', loc', applied') ->
  exists new,
    applied' = applied ++ new /\
    end_to_end (AT2.intervalLength a) (fst (AT2.currInterval loc)) new /\
    Forall (fun iv => iv_end iv <= AT2.t_end a + AT2.intervalLength a) new /\
    continue (AT2.currInterval loc') (AT2.t_end a) (AT2.intervalLength a)
      (AT2.currCycleId loc') (AT2.nCycles a) = false /\
    AT2.currCycleId loc' = (AT2.currCycleId loc + List.length new)%nat /\
    (new = [] -> loc' = loc) /\
    (new <> [] ->
     snd (AT2.currInterval loc')
     = iv_end (last new (Interval 0 0 0)) + AT2.intervalLength a).
Proof.
  induction fuel as [|fuel IH]; intros self loc applied self' loc' applied' Hci H;
    simpl in H;
    destruct (continue (AT2.currInterval loc) _ _ _ _) eqn:Hc; try discriminate.
  - injection H as _ <- <-. exists []. rewrite app_nil_r.
    split; [reflexivity|]. split; [exact I|]. split; [constructor|].
    split; [exact Hc|]. split; [simpl; lia|]. split; [reflexivity|].
    intros E. contradiction.
  - destruct (AT2.body solve_ivp a self loc) as [[m l]|e] eqn:Hb;
      [|discriminate].
    destruct (AT2_body_interval _ _ _ _ _ Hb) as [Hl Hcyc].
    assert (Hci' : snd (AT2.currInterval l)
                   = fst (AT2.currInterval l) + AT2.intervalLength a).
    { rewrite Hl. simpl. rewrite Hci. reflexivity. }
    destruct (IH _ _ _ _ _ _ Hci' H)
      as (new & E & Hchain & Hwithin & Hexit & Hcyc' & Hnil & Hlast).
    exists (Interval (fst (AT2.currInterval loc)) (snd (AT2.currInterval loc))
              (AT2.dose loc) :: new).
    split; [rewrite E, <- app_assoc; reflexivity|].
    split.
    { simpl. split; [reflexivity|]. split; [exact Hci|].
      rewrite Hl in Hchain. exact Hchain. }
    split.
    { constructor; [|exact Hwithin]. simpl.
      apply continue_horizon in Hc. exact Hc. }
    split; [exact Hexit|]. split; [simpl; lia|].
    split; [discriminate|]. intros _.
    destruct new as [|iv new].
    + rewrite (Hnil eq_refl), Hl. reflexivity.
    + rewrite (Hlast ltac:(discriminate)). reflexivity.
  - injection H as _ <- <-. exists []. rewrite app_nil_r.
    split; [reflexivity|]. split; [exact I|]. split; [constructor|].
    split; [exact Hc|]. split; [simpl; lia|]. split; [reflexivity|].
    intros E. contradiction.
Qed.

Lemma setup_AT2_interval (self : ODEModel) (a : AT2.args) (loc : AT2.locals) :
  AT2.setup self a = Ok loc ->
  AT2.currInterval loc
  = (fst (span_or (AT2.t_span a) (AT2.t_end a)),
     fst (span_or (AT2.t_span a) (AT2.t_end a)) + AT2.intervalLength a) /\
  AT2.currCycleId loc = 0%nat.
Proof.
  unfold AT2.setup. intros H. bind_inv H r Hr. bind_inv H d Hd.
  bind_inv H ds Hds. injection H as <-. split; reflexivity.
Qed.

(** X15.  The intervals that [Simulate_AT2] simulates lie end to end from
    the start of [t_span], each of length [intervalLength]; none ends after
    [t_end + intervalLength]; and the loop stops only once the last
    interval ends after [t_end] or [nCycles] intervals are simulated. *)
Theorem AT2_schedule (fuel : nat) (self : ODEModel) (a : AT2.args)
    (self' : ODEModel) (applied : list interval) :
  AT2.Simulate_AT2 solve_ivp fuel self a = Finished (self', applied) ->
  end_to_end (AT2.intervalLength a)
    (fst (span_or (AT2.t_span a) (AT2.t_end a))) applied /\
  Forall (fun iv => iv_end iv <= AT2.t_end a + AT2.intervalLength a) applied /\
  (applied <> [] ->
   AT2.t_end a < iv_end (last applied (Interval 0 0 0)) \/
   exists q, AT2.nCycles a = Finite q /\
             q <= inject_Z (Z.of_nat (List.length applied))).
Proof.
  unfold AT2.Simulate_AT2. intros H.
  destruct (AT2.setup self a) as [loc|e] eqn:Hs; [|discriminate].
  destruct (AT2.loop solve_ivp fuel a self loc []) as [[[m l] ap]|e|] eqn:Hl;
    try discriminate.
  destruct (clean_up m) as [m'|e]; [|discriminate]. injection H as _ <-.
  destruct (setup_AT2_interval _ _ _ Hs) as [Hci Hcyc].
  apply AT2_loop_schedule in Hl; [|rewrite Hci; reflexivity].
  destruct Hl as (new & E & Hchain & Hwithin & Hexit & Hcyc' & _ & Hlast).
  simpl in E. subst ap. rewrite Hci in Hchain.
  split; [exact Hchain|]. split; [exact Hwithin|].
  intros Hne. specialize (Hlast Hne).
  unfold continue in Hexit. apply andb_false_iff in Hexit.
  destruct Hexit as [Hexit|Hexit].
  - left. apply Qle_bool_false_iff in Hexit. rewrite Hlast in Hexit. lra.
  - right. rewrite Hcyc', Hcyc in Hexit. simpl in Hexit.
    destruct (AT2.nCycles a) as [q|]; [|discriminate].
    exists q. split; [reflexivity|]. simpl in Hexit.
    apply Qlt_bool_false_iff in Hexit. exact Hexit.
Qed.


Lemma AT50_decide_off_length (a : AT50.args) (T : Q) (loc : AT50.locals) :
  AT50.intervalLength_off_ (AT50.decide a T loc) = AT50.intervalLength_off_ loc.
Proof.
  unfold AT50.decide.
  destruct (Qlt_bool T _); [|destruct (Qlt_bool _ T)]; reflexivity.
Qed.

(** The loop of [Simulate_AT50]: every interval it adds has the on-length,
    and the cursor moves by the on-length or by the off-length. *)
Lemma AT50_loop_schedule (fuel : nat) (a : AT50.args) (off : Q) :
  forall self loc applied self' loc' applied',
  snd (AT50.currInterval loc)
  == fst (AT50.currInterval loc) + AT50.intervalLength_on a ->
  AT50.intervalLength_off_ loc = off ->
  AT50.intervalLength loc = AT50.intervalLength_on a \/
  AT50.intervalLength loc = off ->
  AT50.loop solve_ivp fuel a self loc applied = Finished (self', loc', applied') ->
  exists new,
    applied' = applied ++ new /\
    hops (AT50.intervalLength_on a) off (fst (AT50.currInterval loc)) new.
Proof.
  induction fuel as [|fuel IH];
    intros self loc applied self' loc' applied' Hci Hoff Hlen H;
    simpl in H;
    destruct (continue (AT50.currInterval loc) _ _ _ _) eqn:Hc; try discriminate.
  - injection H as _ _ <-. exists []. rewrite app_nil_r. split; [reflexivity | exact I].
  - destruct (AT50.body solve_ivp a self loc) as [[m l]|e] eqn:Hb;
      [|discriminate].
    unfold AT50.body in Hb. bind_inv Hb m1 Hm. bind_inv Hb T HT.
    injection Hb as _ <-.
    destruct (AT50_decide_interval a T loc) as [Hshift Hnew].
    pose proof (AT50_decide_off_length a T loc) as Hoff'.
    set (l := AT50.decide a T loc) in *.
    assert (Hlen' : AT50.intervalLength l = AT50.intervalLength_on a \/
                    AT50.intervalLength l = off).
    { destruct Hnew as [E|[E|E]]; rewrite E;
        [exact Hlen | left; reflexivity | right; exact Hoff]. }
    assert (Hci' : snd (AT50.currInterval l)
                   == fst (AT50.currInterval l) + AT50.intervalLength_on a).
    { rewrite Hshift. simpl. rewrite Hci. ring. }
    rewrite Hoff in Hoff'.
    destruct (IH _ _ _ _ _ _ Hci' Hoff' Hlen' H) as (new & E & Hhops).
    exists (Interval (fst (AT50.currInterval loc)) (snd (AT50.currInterval loc))
              (AT50.dose loc) :: new).
    split; [rewrite E, <- app_assoc; reflexivity|].
    simpl. split; [reflexivity|]. split; [exact Hci|].
    rewrite Hshift in Hhops. simpl in Hhops.
    destruct Hlen' as [E'|E']; rewrite E' in Hhops; [left | right]; exact Hhops.
  - injection H as _ _ <-. exists []. rewrite app_nil_r. split; [reflexivity | exact I].
Qed.

(** X16.  Every interval that [Simulate_AT50] simulates has the on-length,
    also after a switch to the off-length: the off-length only changes how
    far the next interval is moved.  The starts advance by the on-length or
    by the off-length, so with an off-length other than the on-length
    consecutive intervals do not meet. *)
Theorem AT50_schedule (fuel : nat) (self : ODEModel) (a : AT50.args)
    (self' : ODEModel) (applied : list interval) :
  AT50.Simulate_AT50 solve_ivp fuel self a = Finished (self', applied) ->
  hops (AT50.intervalLength_on a)
    (match AT50.intervalLength_off a with
     | None => AT50.intervalLength_on a
     | Some off => off
     end)
    (fst (span_or (AT50.t_span a) (AT50.t_end a))) applied.
Proof.
  unfold AT50.Simulate_AT50. intros H.
  destruct (AT50.setup self a) as [loc|e] eqn:Hs; [|discriminate].
  destruct (AT50.loop solve_ivp fuel a self loc []) as [[[m l] ap]|e|] eqn:Hl;
    try discriminate.
  destruct (clean_up m) as [m'|e]; [|discriminate]. injection H as _ <-.
  unfold AT50.setup in Hs. bind_inv Hs r Hr. bind_inv Hs d Hd.
  bind_inv Hs ds Hds. injection Hs as <-.
  eapply AT50_loop_schedule in Hl;
    [| simpl; reflexivity | reflexivity | left; reflexivity].
  destruct Hl as (new & E & Hhops). simpl in E. subst ap. exact Hhops.
Qed.

End Schedules.

Lemma AT1_schedule_witness :
  exists self' applied,
    AT1.Simulate_AT1 constant_solver 4 example_instance at1_to2
    = Finished (self', applied) /\
    map (fun iv => (iv_start iv, iv_end iv)) applied
    = [(0, 0 + 1); (0 + 1, 0 + 1 + 1); (0 + 1 + 1, 0 + 1 + 1 + 1)] /\
    end_to_end 1 0 applied /\
    Forall (fun iv => iv_end iv <= 2 + 1) applied /\
    (applied <> [] -> 2 < iv_end (last applied (Interval 0 0 0))).
Proof.
  eexists. eexists.
  eassert (H : AT1.Simulate_AT1 constant_solver 4 example_instance at1_to2
               = Finished (?[m], ?[ap])).
  { vm_compute. reflexivity. }
  split; [exact H|]. split; [reflexivity|].
  exact (AT1_schedule constant_solver _ _ _ _ _ H).
Defined.

Lemma AT2_schedule_witness :
  exists self' applied,
    AT2.Simulate_AT2 constant_solver 4 example_instance at2_to2
    = Finished (self', applied) /\
    map (fun iv => (iv_start iv, iv_end iv)) applied
    = [(0, 0 + 1); (0 + 1, 0 + 1 + 1); (0 + 1 + 1, 0 + 1 + 1 + 1)] /\
    end_to_end 1 0 applied /\
    Forall (fun iv => iv_end iv <= 2 + 1) applied /\
    (applied <> [] ->
     2 < iv_end (last applied (Interval 0 0 0)) \/
     exists q, AT2.nCycles at2_to2 = Finite q /\
               q <= inject_Z (Z.of_nat (List.length applied))).
Proof.
  eexists. eexists.
  eassert (H : AT2.Simulate_AT2 constant_solver 4 example_instance at2_to2
               = Finished (?[m], ?[ap])).
  { vm_compute. reflexivity. }
  split; [exact H|]. split; [reflexivity|].
  exact (AT2_schedule constant_solver _ _ _ _ _ H).
Defined.

Lemma AT50_schedule_witness :
  exists self' applied,
    AT50.Simulate_AT50 constant_solver 4 example_instance at50_off2
    = Finished (self', applied) /\
    map (fun iv => (Qred (iv_start iv), Qred (iv_end iv))) applied
    = [(0, 1); (2, 3); (4, 5); (6, 7)] /\
    hops 1 2 0 applied.
Proof.
  eexists. eexists.
  eassert (H : AT50.Simulate_AT50 constant_solver 4 example_instance at50_off2
               = Finished (?[m], ?[ap])).
  { vm_compute. reflexivity. }
  split; [exact H|]. split; [reflexivity|].
  exact (AT50_schedule constant_solver _ _ _ _ _ H).
Defined.
(* ================================================================== *)
(** ** The doses of [Simulate_AT1] *)

Lemma py_max_bounds (x lo hi : Q) :
  lo <= hi -> x <= hi -> lo <= py_max x lo /\ py_max x lo <= hi.
Proof.
  intros Hlh Hx. unfold py_max. destruct (Qlt_bool x lo) eqn:E.
  - split; [apply Qle_refl | exact Hlh].
  - apply Qlt_bool_false_iff in E. split; assumption.
Qed.

Lemma py_min_bounds (x lo hi : Q) :
  lo <= hi -> lo <= x -> lo <= py_min x hi /\ py_min x hi <= hi.
Proof.
  intros Hlh Hx. unfold py_min. destruct (Qlt_bool hi x) eqn:E.
  - split; [exact Hlh | apply Qle_refl].
  - apply Qlt_bool_false_iff in E. split; assumption.
Qed.

Lemma inverse_factor (alpha d : Q) :
  1 <= alpha -> 0 <= d -> 0 <= 1 / alpha * d /\ 1 / alpha * d <= d.
Proof.
  intros Ha Hd.
  assert (Hpos : 0 < alpha) by lra.
  assert (Hx : 0 < / alpha) by (apply Qinv_lt_0_compat; exact Hpos).
  assert (Hax : alpha * / alpha == 1) by (apply Qmult_inv_r; lra).
  setoid_replace (1 / alpha * d) with (/ alpha * d) by (unfold Qdiv; ring).
  split; nra.
Qed.

(** The dose and the remembered dose stay between [0] and [DMax] through a
    decision of [Simulate_AT1], in the original mode with a non-negative
    adjustment factor and in the other mode with a factor of at least 1. *)
Lemma AT1_decide_bounded (self : ODEModel) (a : AT1.args) (T dmax : Q)
    (loc loc' : AT1.locals) :
  (String.eqb (AT1.mode a) "original" = true /\ 0 <= AT1.doseAdjustFac a) \/
  (String.eqb (AT1.mode a) "original" = false /\ 1 <= AT1.doseAdjustFac a) ->
  DMax self = Ok dmax ->
  0 <= AT1.dose loc /\ AT1.dose loc <= dmax ->
  0 <= AT1.lastNonZeroDose loc /\ AT1.lastNonZeroDose loc <= dmax ->
  AT1.decide self a T loc = Ok loc' ->
  (0 <= AT1.dose loc' /\ AT1.dose loc' <= dmax) /\
  (0 <= AT1.lastNonZeroDose loc' /\ AT1.lastNonZeroDose loc' <= dmax).
Proof.
  intros Hmode Hmax Hd Hl H.
  assert (Hr : 0 <= AT1.restore loc /\ AT1.restore loc <= dmax).
  { unfold AT1.restore. destruct (Qeq_bool (AT1.dose loc) 0); assumption. }
  assert (H0 : 0 <= dmax) by lra.
  unfold AT1.decide in H. bind_inv H p Hp. destruct p as [d' l'].
  injection H as <-. simpl.
  destruct (Qlt_bool T (AT1.v_min a)).
  { injection Hp as <- <-. split; [split; [apply Qle_refl | exact H0] | exact Hr]. }
  destruct (Qlt_bool T _).
  { destruct Hmode as [[Hm Ha]|[Hm Ha]]; rewrite Hm in Hp.
    - injection Hp as <- <-. split; [|exact Hl].
      apply py_max_bounds; [exact H0 | nra].
    - destruct (Qeq_bool (AT1.doseAdjustFac a) 0); [discriminate|].
      injection Hp as <- <-. split; [|exact Hl].
      destruct (inverse_factor _ _ Ha (proj1 Hr)) as [_ Hle].
      apply py_max_bounds; [exact H0 | lra]. }
  destruct (Qlt_bool _ T).
  { rewrite Hmax in Hp. cbn [bind] in Hp.
    destruct Hmode as [[Hm Ha]|[Hm Ha]]; rewrite Hm in Hp;
      injection Hp as <- <-; (split; [|exact Hl]);
      apply py_min_bounds; [exact H0 | nra | exact H0 | nra]. }
  injection Hp as <- <-. split; assumption.
Qed.

Section Doses.

Variable solve_ivp :
  model_class * dict -> list Q -> Q * Q -> list Q ->
  string -> Q -> Q -> ext -> result OdeResult.

Lemma Simulate_DMax (self : ODEModel) (sched : list interval) (kw : kwargs)
    (self' : ODEModel) :
  Simulate solve_ivp self sched kw = Ok self' -> DMax self' = DMax self.
Proof.
  intros H. apply Simulate_Ok_trace in H. destruct H as [cs H].
  destruct (Simulate_trace_Ok solve_ivp _ _ _ _ _ H)
    as (s0 & o0 & k0 & f0 & th0 & _ & _ & _ & _ & _ & _ & _ & _ & _ & _ & _
        & _ & Hp & _).
  unfold DMax. rewrite Hp. reflexivity.
Qed.

Lemma AT1_loop_bounded (fuel : nat) (a : AT1.args) (dmax : Q) :
  (String.eqb (AT1.mode a) "original" = true /\ 0 <= AT1.doseAdjustFac a) \/
  (String.eqb (AT1.mode a) "original" = false /\ 1 <= AT1.doseAdjustFac a) ->
  forall self loc applied self' loc' applied',
  DMax self = Ok dmax ->
  0 <= AT1.dose loc /\ AT1.dose loc <= dmax ->
  0 <= AT1.lastNonZeroDose loc /\ AT1.lastNonZeroDose loc <= dmax ->
  Forall (fun iv => 0 <= iv_dose iv /\ iv_dose iv <= dmax) applied ->
  AT1.loop solve_ivp fuel a self loc applied = Finished (self', loc', applied') ->
  Forall (fun iv => 0 <= iv_dose iv /\ iv_dose iv <= dmax) applied'.
Proof.
  intros Hmode.
  induction fuel as [|fuel IH];
    intros self loc applied self' loc' applied' Hmax Hd Hl Hap H;
    simpl in H;
    destruct (continue (AT1.currInterval loc) _ _ _ _) eqn:Hc; try discriminate.
  - injection H as _ _ <-. exact Hap.
  - destruct (AT1.body solve_ivp a self loc) as [[m l]|e] eqn:Hb;
      [|discriminate].
    unfold AT1.body in Hb. bind_inv Hb m1 Hm. bind_inv Hb T HT.
    bind_inv Hb l1 Hl1. injection Hb as <- <-.
    pose proof (Simulate_DMax _ _ _ _ Hm) as Hmax'. rewrite Hmax in Hmax'.
    destruct (AT1_decide_bounded _ _ _ _ _ _ Hmode Hmax' Hd Hl Hl1) as [Hd' Hl'].
    apply (IH _ _ _ _ _ _ Hmax' Hd' Hl') in H; [exact H|].
    apply Forall_app. split; [exact Hap|].
    constructor; [exact Hd | constructor].
  - injection H as _ _ <-. exact Hap.
Qed.

(** X17.  Every dose that [Simulate_AT1] applies lies between [0] and
    [DMax], when the first dose does, in the original mode with an
    adjustment factor of at least 0 and in the other mode with an
    adjustment factor of at least 1. *)
Theorem AT1_doses_bounded (fuel : nat) (self : ODEModel) (a : AT1.args)
    (dmax : Q) (self' : ODEModel) (applied : list interval) :
  (String.eqb (AT1.mode a) "original" = true /\ 0 <= AT1.doseAdjustFac a) \/
  (String.eqb (AT1.mode a) "original" = false /\ 1 <= AT1.doseAdjustFac a) ->
  DMax self = Ok dmax ->
  0 <= dmax ->
  (forall d0, AT1.D0 a = Some d0 -> 0 <= d0 /\ d0 <= dmax) ->
  AT1.Simulate_AT1 solve_ivp fuel self a = Finished (self', applied) ->
  Forall (fun iv => 0 <= iv_dose iv /\ iv_dose iv <= dmax) applied.
Proof.
  intros Hmode Hmax H0 HD0 H. unfold AT1.Simulate_AT1 in H.
  destruct (AT1.setup self a) as [loc|e] eqn:Hs; [|discriminate].
  destruct (AT1.loop solve_ivp fuel a self loc []) as [[[m l] ap]|e|] eqn:Hl;
    try discriminate.
  destruct (clean_up m) as [m'|e]; [|discriminate]. injection H as _ <-.
  unfold AT1.setup in Hs. bind_inv Hs r Hr. bind_inv Hs d Hd.
  injection Hs as <-.
  assert (Hdose : 0 <= d /\ d <= dmax).
  { destruct (AT1.D0 a) as [d0|] eqn:E.
    - injection Hd as <-. apply HD0. reflexivity.
    - rewrite Hmax in Hd. injection Hd as <-. split; [exact H0 | apply Qle_refl]. }
  eapply (AT1_loop_bounded fuel a dmax Hmode) in Hl;
    [exact Hl | exact Hmax | exact Hdose | exact Hdose | constructor].
Qed.

End Doses.

Lemma AT1_doses_bounded_witness :
  exists self' applied,
    AT1.Simulate_AT1 constant_solver 4 example_instance at1_to2
    = Finished (self', applied) /\
    map iv_dose applied = [100; 100; 100] /\
    Forall (fun iv => 0 <= iv_dose iv /\ iv_dose iv <= 100) applied.
Proof.
  eexists. eexists.
  eassert (H : AT1.Simulate_AT1 constant_solver 4 example_instance at1_to2
               = Finished (?[m], ?[ap])).
  { vm_compute. reflexivity. }
  split; [exact H|]. split; [reflexivity|].
  eapply (AT1_doses_bounded constant_solver 4 example_instance at1_to2 100).
  - left. split; [reflexivity | discriminate].
  - reflexivity.
  - discriminate.
  - intros d0 E. discriminate.
  - exact H.
Defined.
(* ================================================================== *)
(** ** The reference size of [Simulate_AT2] *)

Lemma AT2_push_window (l : list Q) (T : Q) :
  l <> [] -> AT2.push l T = Ok (hd 0 l, tl l ++ [T]).
Proof.
  intros Hne. unfold AT2.push. destruct l as [|x l]; [contradiction|].
  simpl. rewrite set_last_app. reflexivity.
Qed.

(** A decision of [Simulate_AT2] slides the window made of the reference
    size and the remembered sizes by one place. *)
Lemma AT2_decide_window (a : AT2.args) (T : Q) (loc : AT2.locals) :
  AT2.prevSizesList loc <> [] ->
  exists loc',
    AT2.decide a T loc = Ok loc' /\
    AT2.refSize loc' :: AT2.prevSizesList loc' = AT2.prevSizesList loc ++ [T] /\
    AT2.D_star_ loc' = AT2.D_star_ loc /\
    AT2.dose loc'
    = (if Qlt_bool ((1 + AT2.atThreshold a) * AT2.refSize loc) T
       then AT2.D_star_ loc else AT2.DMin a).
Proof.
  intros Hne. unfold AT2.decide. rewrite (AT2_push_window _ T Hne).
  cbn [bind]. eexists. split; [reflexivity|]. simpl.
  split; [|split; reflexivity].
  destruct (AT2.prevSizesList loc) as [|x l]; [contradiction | reflexivity].
Qed.

Lemma AT2_observe_window (a : AT2.args) :
  forall (Ts : list Q) (loc : AT2.locals),
  AT2.prevSizesList loc <> [] ->
  exists loc',
    AT2_observe a Ts loc = Ok loc' /\
    AT2.refSize loc' :: AT2.prevSizesList loc'
    = skipn (List.length Ts) (AT2.refSize loc :: AT2.prevSizesList loc ++ Ts) /\
    AT2.prevSizesList loc' <> [] /\
    AT2.D_star_ loc' = AT2.D_star_ loc.
Proof.
  induction Ts as [|T Ts IH]; intros loc Hne.
  - exists loc. simpl. rewrite app_nil_r. repeat split; [exact Hne].
  - destruct (AT2_decide_window a T loc Hne) as (l1 & Hd & Hw & Hs & _).
    assert (Hne1 : AT2.prevSizesList l1 <> []).
    { intros E. rewrite E in Hw.
      destruct (AT2.prevSizesList loc) as [|x l]; [contradiction|].
      simpl in Hw. injection Hw as _ Hw. destruct l; discriminate. }
    destruct (IH l1 Hne1) as (loc' & Ho & Hw' & Hne' & Hs').
    exists loc'. simpl. rewrite Hd. cbn [bind].
    split; [exact Ho|]. split; [|split; [exact Hne' | congruence]].
    rewrite Hw'. change (AT2.refSize l1 :: AT2.prevSizesList l1 ++ Ts)
      with ((AT2.refSize l1 :: AT2.prevSizesList l1) ++ Ts).
    rewrite Hw, <- app_assoc. reflexivity.
Qed.

Lemma AT2_observe_app (a : AT2.args) (Ts' : list Q) :
  forall (Ts : list Q) (l0 l1 : AT2.locals),
  AT2_observe a Ts l0 = Ok l1 ->
  AT2_observe a (Ts ++ Ts') l0 = AT2_observe a Ts' l1.
Proof.
  induction Ts as [|T Ts IH]; intros l0 l1 Ho; simpl in Ho |- *.
  - injection Ho as ->. reflexivity.
  - destruct (AT2.decide a T l0) as [l'|e]; [|discriminate].
    cbn [bind] in Ho |- *. apply IH. exact Ho.
Qed.

Lemma nth_skipn_hd (l : list Q) (k : nat) (d : Q) :
  hd d (skipn k l) = nth k l d.
Proof.
  revert l. induction k as [|k IH]; intros [|x l]; simpl; auto.
Qed.

(** X18.  [Simulate_AT2] with [n_days_lookback = n >= 1] compares each
    observed size with the size observed [n + 1] intervals earlier, and
    with the initial size during the first [n + 1] intervals: the dose after
    the observations [Ts] and then [T] is [D_star] exactly when [T] exceeds
    [1 + atThreshold] times that reference.  With [n_days_lookback = 0] the
    first decision raises [IndexError]. *)
Theorem AT2_lookback (self : ODEModel) (a : AT2.args) (loc0 : AT2.locals) :
  AT2.setup self a = Ok loc0 ->
  (AT2.n_days_lookback a <> 0%nat ->
   forall Ts T, exists loc,
     AT2_observe a (Ts ++ [T]) loc0 = Ok loc /\
     AT2.dose loc
     = (if Qlt_bool
             ((1 + AT2.atThreshold a)
              * (if (List.length Ts <=? AT2.n_days_lookback a)%nat
                 then AT2.refSize loc0
                 else nth (List.length Ts - S (AT2.n_days_lookback a)) Ts 0))
             T
        then AT2.D_star_ loc0 else AT2.DMin a)) /\
  (AT2.n_days_lookback a = 0%nat ->
   forall Ts T, AT2_observe a (T :: Ts) loc0 = Raise IndexError).
Proof.
  intros Hs. unfold AT2.setup in Hs. bind_inv Hs r Hr. bind_inv Hs d Hd.
  bind_inv Hs ds Hds. injection Hs as <-. simpl. split.
  - intros Hn Ts T.
    set (n := AT2.n_days_lookback a) in *.
    set (loc0 := AT2.Locals _ r (repeat r n) d ds 0).
    assert (Hne : AT2.prevSizesList loc0 <> []).
    { simpl. destruct n; [contradiction | discriminate]. }
    destruct (AT2_observe_window a Ts loc0 Hne) as (l1 & Ho & Hw & Hne1 & Hs1).
    destruct (AT2_decide_window a T l1 Hne1) as (l2 & Hd2 & _ & _ & Hdose).
    exists l2. split.
    + rewrite (AT2_observe_app a [T] Ts loc0 l1 Ho). simpl.
      rewrite Hd2. reflexivity.
    + rewrite Hdose, Hs1. simpl.
      assert (Href : AT2.refSize l1
                     = if (List.length Ts <=? n)%nat then r
                       else nth (List.length Ts - S n) Ts 0).
      { change (AT2.refSize l1) with (hd 0 (AT2.refSize l1 :: AT2.prevSizesList l1)).
        rewrite Hw, nth_skipn_hd. simpl AT2.refSize. simpl AT2.prevSizesList.
        change (r :: repeat r n ++ Ts) with (repeat r (S n) ++ Ts).
        destruct (List.length Ts <=? n)%nat eqn:E.
        - apply Nat.leb_le in E. rewrite app_nth1 by (rewrite repeat_length; lia).
          apply nth_repeat_lt. lia.
        - apply Nat.leb_gt in E. rewrite app_nth2 by (rewrite repeat_length; lia).
          rewrite repeat_length. reflexivity. }
      rewrite Href. reflexivity.
  - intros Hn Ts T. rewrite Hn. reflexivity.
Qed.

Lemma AT2_lookback_witness :
  exists loc0,
    AT2.setup example_instance at2_to2 = Ok loc0 /\
    AT2.refSize loc0 = 1 * (99 + (1 + 0)) /\
    (forall Ts T, exists loc,
       AT2_observe at2_to2 (Ts ++ [T]) loc0 = Ok loc /\
       AT2.dose loc
       = (if Qlt_bool
               ((1 + (2 # 10))
                * (if (List.length Ts <=? 2)%nat
                   then AT2.refSize loc0
                   else nth (List.length Ts - 3) Ts 0))
               T
          then AT2.D_star_ loc0 else 0)).
Proof.
  eexists. split; [reflexivity|]. split; [reflexivity|].
  apply (AT2_lookback example_instance at2_to2 _ eq_refl). discriminate.
Defined.

(* ================================================================== *)
(** ** Setting parameters *)

Section Parameters.

Variable float_of_str : string -> option Q.

Lemma SetParams_entries_keys (kw : dict) : forall d d',
  SetParams_entries float_of_str kw d = Ok d' ->
  map fst d' = map fst d.
Proof.
  induction d as [|[key v] d IH]; intros d' H; simpl in H.
  - injection H as <-. reflexivity.
  - bind_inv H x Hx. bind_inv H rest Hrest. injection H as <-.
    simpl. f_equal. apply IH. exact Hrest.
Qed.

Lemma SetParams_entries_get (kw : dict) (key : string) : forall d d',
  SetParams_entries float_of_str kw d = Ok d' ->
  match dict_get key d with
  | None => dict_get key d' = None
  | Some v =>
      exists x,
        py_float float_of_str (dict_get_default key v kw) = Ok x /\
        dict_get key d' = Some (PNum x)
  end.
Proof.
  induction d as [|[key' v] d IH]; intros d' H; simpl in H.
  - injection H as <-. reflexivity.
  - bind_inv H x Hx. bind_inv H rest Hrest. injection H as <-.
    simpl. destruct (String.eqb key key') eqn:E.
    + apply String.eqb_eq in E. subst key'. exists x. split; [exact Hx | reflexivity].
    + apply IH. exact Hrest.
Qed.

(** A second pass over converted entries changes nothing. *)
Lemma SetParams_entries_again (kw : dict) : forall d d',
  SetParams_entries float_of_str kw d = Ok d' ->
  SetParams_entries float_of_str kw d' = Ok d'.
Proof.
  induction d as [|[key v] d IH]; intros d' H; simpl in H.
  - injection H as <-. reflexivity.
  - bind_inv H x Hx. bind_inv H rest Hrest. injection H as <-.
    simpl. rewrite (IH _ Hrest).
    assert (E : py_float float_of_str (dict_get_default key (PNum x) kw) = Ok x).
    { unfold dict_get_default in Hx |- *.
      destruct (dict_get key kw); [exact Hx | reflexivity]. }
    rewrite E. reflexivity.
Qed.

(** X19.  After a call of [SetParams] on a parameter set of more than one
    entry, the set has the same keys in the same order; the value of each
    is the float of its keyword when the call names the key and the float of
    its old value otherwise; a keyword that names no key of the set adds
    nothing; and [initialStateList] holds the values of the keys [var + "0"]
    of the state variables.  Nothing else of the instance changes. *)
Theorem SetParams_lookup (self : ODEModel) (kw : kwargs) (self' : ODEModel) :
  (1 < List.length (paramDic self))%nat ->
  SetParams float_of_str self kw = Ok self' ->
  map fst (paramDic self') = map fst (paramDic self) /\
  (forall key,
     match dict_get key (paramDic self) with
     | None => dict_get key (paramDic self') = None
     | Some v =>
         exists x,
           py_float float_of_str (dict_get_default key v (kw_params kw)) = Ok x /\
           dict_get key (paramDic self') = Some (PNum x)
     end) /\
  (exists init,
     initialStateList self' = Some init /\
     initial_state_of (paramDic self') (stateVars self) = Ok init /\
     List.length init = List.length (stateVars self)) /\
  self' = set_params self (paramDic self') (initialStateList self').
Proof.
  intros Hlen H. unfold SetParams in H.
  apply Nat.ltb_lt in Hlen. rewrite Hlen in H.
  bind_inv H d Hd. bind_inv H init Hinit. injection H as <-. simpl.
  split; [eapply SetParams_entries_keys; exact Hd|].
  split; [intros key; eapply SetParams_entries_get; exact Hd|].
  split; [|reflexivity].
  exists init. split; [reflexivity|]. split; [exact Hinit|].
  clear - Hinit. revert init Hinit.
  induction (stateVars self) as [|var vars IH]; intros init H; simpl in H.
  - injection H as <-. reflexivity.
  - bind_inv H v Hv. bind_inv H x Hx. bind_inv H xs Hxs. injection H as <-.
    simpl. f_equal. apply IH. exact Hxs.
Qed.

(** X20.  [SetParams] is idempotent: a call that returns has converted
    every entry, and the same call on its result returns that result. *)
Theorem SetParams_idempotent (self : ODEModel) (kw : kwargs)
    (self' : ODEModel) :
  SetParams float_of_str self kw = Ok self' ->
  SetParams float_of_str self' kw = Ok self'.
Proof.
  intros H. unfold SetParams in H |- *.
  destruct (1 <? List.length (paramDic self))%nat eqn:Hlen.
  - bind_inv H d Hd. bind_inv H init Hinit. injection H as <-. simpl.
    assert (Hl : List.length d = List.length (paramDic self)).
    { rewrite <- (length_map fst d), (SetParams_entries_keys _ _ _ Hd).
      apply length_map. }
    rewrite Hl, Hlen.
    rewrite (SetParams_entries_again _ _ _ Hd). cbn [bind].
    rewrite Hinit. reflexivity.
  - injection H as <-. rewrite Hlen. reflexivity.
Qed.

Lemma initial_state_of_missing (d : dict) (var : string) (vars : list string) :
  dict_get (var ++ "0") d = None ->
  initial_state_of d (var :: vars) = Raise KeyError.
Proof. intros H. simpl. rewrite H. reflexivity. Qed.

Lemma SetParams_entries_raises (kw : dict) : forall d e,
  SetParams_entries float_of_str kw d = Raise e -> e = ValueError.
Proof.
  induction d as [|[key v] d IH]; intros e H; simpl in H; [discriminate|].
  destruct (py_float float_of_str (dict_get_default key v kw)) as [x|e'] eqn:Hx.
  - cbn [bind] in H.
    destruct (SetParams_entries float_of_str kw d) as [rest|e''] eqn:Hr.
    + discriminate.
    + cbn [bind] in H. injection H as <-. apply IH. reflexivity.
  - cbn [bind] in H. injection H as <-.
    unfold py_float in Hx. destruct (dict_get_default key v kw) as [q|s];
      [discriminate|].
    destruct (float_of_str s); [discriminate|]. simpl in Hx.
    injection Hx as <-. reflexivity.
Qed.

(** X21.  On an instance as the constructor of one of the six classes
    leaves it, no call of [SetParams] returns: converting the entries raises
    [ValueError] (the ['CASE'] label is no number), and when every entry
    converts, the missing keys ["S0"] and ["R0"] raise [KeyError]. *)
Theorem SetParams_fails_after_construction (cl : model_class)
    (kw0 kw : kwargs) (self : ODEModel) :
  class_init float_of_str cl kw0 = Ok self ->
  cl <> ODEModelBase ->
  SetParams float_of_str self kw = Raise ValueError \/
  SetParams float_of_str self kw = Raise KeyError.
Proof.
  intros Hinit Hcl.
  destruct (class_init_defaults float_of_str cl kw0) as (s & Hs & Hp & _).
  rewrite Hinit in Hs. injection Hs as <-.
  assert (Hvars : stateVars self = ["S"; "R"]%string).
  { unfold class_init, ODEModel_init, SetParams in Hinit. simpl in Hinit.
    destruct cl; [contradiction| | | | | |]; injection Hinit as <-; reflexivity. }
  assert (Hlen : (1 <? List.length (paramDic self))%nat = true).
  { rewrite Hp. destruct cl; [contradiction| | | | | |]; reflexivity. }
  assert (HS0 : dict_get "S0" (paramDic self) = None).
  { rewrite Hp. destruct cl; [contradiction| | | | | |]; reflexivity. }
  unfold SetParams. rewrite Hlen.
  destruct (SetParams_entries float_of_str (kw_params kw) (paramDic self))
    as [d|e] eqn:Hd.
  - right. cbn [bind]. rewrite Hvars.
    pose proof (SetParams_entries_get (kw_params kw) "S0" _ _ Hd) as Hg.
    rewrite HS0 in Hg.
    rewrite (initial_state_of_missing d "S" ["R"%string] Hg). reflexivity.
  - left. cbn [bind]. rewrite (SetParams_entries_raises _ _ _ Hd). reflexivity.
Qed.

End Parameters.

Lemma SetParams_lookup_witness :
  exists self',
    SetParams (fun _ => None) two_pop
      (Kwargs [("S0"%string, PNum 5)] None None None None None None None)
    = Ok self' /\
    map fst (paramDic self') = ["DMax"; "S0"; "R0"]%string /\
    dict_get "S0" (paramDic self') = Some (PNum 5) /\
    initialStateList self' = Some [5; 1].
Proof.
  eexists.
  eassert (H : SetParams (fun _ => None) two_pop
                 (Kwargs [("S0"%string, PNum 5)] None None None None None None None)
               = Ok ?[m]).
  { reflexivity. }
  split; [exact H|].
  assert (Hlen : (1 < List.length (paramDic two_pop))%nat) by (simpl; lia).
  split; [exact (proj1 (SetParams_lookup (fun _ => None) _ _ _ Hlen H))|].
  split; reflexivity.
Defined.

Lemma SetParams_idempotent_witness :
  exists self',
    SetParams (fun _ => None) two_pop
      (Kwargs [("S0"%string, PNum 5)] None None None None None None None)
    = Ok self' /\
    SetParams (fun _ => None) self'
      (Kwargs [("S0"%string, PNum 5)] None None None None None None None)
    = Ok self'.
Proof.
  eexists.
  eassert (H : SetParams (fun _ => None) two_pop
                 (Kwargs [("S0"%string, PNum 5)] None None None None None None None)
               = Ok ?[m]).
  { reflexivity. }
  split; [exact H|].
  exact (SetParams_idempotent (fun _ => None) _ _ _ H).
Defined.

Lemma SetParams_fails_after_construction_witness :
  exists self,
    class_init (fun _ => None) EinarPersistorModelTypeU kw_dt1 = Ok self /\
    (SetParams (fun _ => None) self kw_u0 = Raise ValueError \/
     SetParams (fun _ => None) self kw_u0 = Raise KeyError).
Proof.
  eexists.
  eassert (H : class_init (fun _ => None) EinarPersistorModelTypeU kw_dt1
               = Ok ?[m]).
  { reflexivity. }
  split; [exact H|].
  apply (SetParams_fails_after_construction (fun _ => None)
           EinarPersistorModelTypeU kw_dt1 kw_u0 _ H).
  discriminate.
Defined.

(* ================================================================== *)
(** ** Serial passaging *)

(** Reading and writing the last row of a record of the two populations. *)
Lemma last_of_two (self : ODEModel) (df : DataFrame) (t c S0 R0 T : Q) :
  stateVars self = ["S"; "R"]%string ->
  resultsDf self = Some (df ++ [Row t c [S0; R0] T]) ->
  last_of self "S" = Ok S0 /\ last_of self "R" = Ok R0 /\
  last_size self = Ok T /\
  (forall v, write_last self "S" v
             = Ok (set_resultsDf self (Some (df ++ [Row t c [v; R0] T])))) /\
  (forall v, write_last self "R" v
             = Ok (set_resultsDf self (Some (df ++ [Row t c [S0; v] T])))) /\
  (forall v, write_last_size self v
             = Ok (set_resultsDf self (Some (df ++ [Row t c [S0; R0] v])))).
Proof.
  intros Hv Hd. unfold last_of, last_size, write_last, write_last_size.
  rewrite Hv, Hd. cbn [of_option bind index_of String.eqb Ascii.eqb Bool.eqb option_map].
  rewrite py_last_app. cbn [bind]. simpl.
  repeat split; intros; rewrite set_last_app; reflexivity.
Qed.

Lemma set_resultsDf_fields (self : ODEModel) (df : option DataFrame) :
  stateVars (set_resultsDf self df) = stateVars self /\
  resultsDf (set_resultsDf self df) = df /\
  set_resultsDf (set_resultsDf self df) = set_resultsDf self.
Proof. repeat split. Qed.

(** Reseeding a record of the two populations whose last size is not zero:
    the last row gets the seeding density split by the quotient of its [R]
    and its [TumourSize]. *)
Lemma reseed_two (self : ODEModel) (df : DataFrame) (t c S0 R0 T d : Q)
    (seeding_density : seeding) (cycle_id : nat) :
  stateVars self = ["S"; "R"]%string ->
  resultsDf self = Some (df ++ [Row t c [S0; R0] T]) ->
  curr_seeding_density seeding_density cycle_id = Ok (Density d) ->
  ~ T == 0 ->
  reseed self seeding_density cycle_id
  = Ok (Seeded (set_resultsDf self
                  (Some (df ++ [Row t c [d * (1 - R0 / T); d * (R0 / T)]
                                  (d * (1 - R0 / T) + d * (R0 / T))])))).
Proof.
  intros Hv Hd Hc HT. unfold reseed. rewrite Hc. cbn [bind].
  destruct (last_of_two self df t c S0 R0 T Hv Hd) as (_ & HR & HT' & HwS & _).
  rewrite HR, HT'. cbn [bind scaled]. rewrite HwS. cbn [bind].
  assert (E : Qeq_bool T 0 = false).
  { destruct (Qeq_bool T 0) eqn:E; [|reflexivity].
    apply Qeq_bool_iff in E. contradiction. }
  rewrite E.
  set (self1 := set_resultsDf self _).
  destruct (last_of_two self1 df t c (d * (1 - R0 / T)) R0 T Hv eq_refl)
    as (_ & _ & _ & _ & HwR & _).
  rewrite HwR. cbn [bind]. subst self1.
  set (self2 := set_resultsDf _ _).
  destruct (last_of_two self2 df t c (d * (1 - R0 / T)) (d * (R0 / T)) T Hv eq_refl)
    as (HS2 & HR2 & _ & _ & _ & Hw2).
  rewrite HS2, HR2. cbn [bind]. rewrite Hw2. reflexivity.
Qed.

Section PassagingProperties.

Variable solve_ivp :
  model_class * dict -> list Q -> Q * Q -> list Q ->
  string -> Q -> Q -> ext -> result OdeResult.

(** A [Simulate] call on one interval makes one solver call. *)
Lemma Simulate_trace_single (self : ODEModel) (cycle : interval)
    (kw : kwargs) (self' : ODEModel) (cs : list solver_call) :
  Simulate_trace solve_ivp self [cycle] kw = Ok (self', cs) ->
  exists start old call theta,
    start_state (configure self kw) [cycle] = Ok (start, old) /\
    cs = [call] /\
    c_y0 call = set_last start (iv_dose cycle) /\
    c_t_eval call <> [] /\
    as_num (dict_get_default "scaleFactor" (PNum 1) (paramDic self))
    = Ok theta /\
    stateVars self' = stateVars self /\
    (forall prev block,
       resultsDf self'
       = Some (match old with Some p => p | None => [] end ++ block) ->
       prev = match old with Some p => p | None => [] end ->
       Forall (fun r => List.length (vals r) = List.length (stateVars self))
         block) /\
    ((successB self' = true /\
      interval_failed (numericalStabilisationB (config (configure self kw)))
        (c_result call) = false /\
      resultsDf self'
      = Some (match old with Some prev => prev | None => [] end
              ++ block_of (stateVars self)
                   (numericalStabilisationB (config (configure self kw)))
                   theta [call] []))
     \/ (successB self' = false /\
         resultsDf self'
         = Some (match old with Some prev => prev | None => [] end
                 ++ map (with_size theta)
                      (zero_frame (stateVars self) (c_t_eval call))))).
Proof.
  intros H.
  destruct (Simulate_trace_Ok solve_ivp _ _ _ _ _ H)
    as (start & old & kept & failing & theta & Hstart & Hcs & Hkept & Huse & _
        & Hiv & Hy0 & Htheta & Hend & Hdf & Hwidth & _ & _ & Hvars & _).
  assert (Hw : forall prev block,
             resultsDf self'
             = Some (match old with Some p => p | None => [] end ++ block) ->
             prev = match old with Some p => p | None => [] end ->
             Forall (fun r => List.length (vals r) = List.length (stateVars self))
               block).
  { intros prev block E _. rewrite Hdf in E. injection E as E.
    apply app_inv_head in E. subst block. exact Hwidth. }
  assert (Hlen : (List.length cs <= 1)%nat).
  { rewrite <- (length_map c_interval), Hiv, length_firstn. simpl. lia. }
  destruct Hend as [(E & Hne & Hl & Hok) | (c & E & Hfail & Hno)].
  - subst failing. rewrite app_nil_r in Hcs. subst kept.
    destruct cs as [|call [|c2 cs]]; [contradiction| |simpl in Hlen; lia].
    exists start, old, call, theta.
    split; [exact Hstart|]. split; [reflexivity|].
    assert (Ec : c_interval call = cycle).
    { simpl in Hiv. injection Hiv as ->. reflexivity. }
    split; [rewrite <- Ec; apply (Hy0 call []); reflexivity|].
    split.
    { apply Forall_inv in Huse. destruct Huse as (_ & _ & _ & _ & _ & Hne' & _).
      exact Hne'. }
    split; [exact Htheta|]. split; [exact Hvars|]. split; [exact Hw|].
    left. split; [exact Hok|]. split; [apply Forall_inv in Hkept; exact Hkept|].
    exact Hdf.
  - subst failing. subst cs.
    destruct kept as [|k kept]; [|rewrite length_app in Hlen; simpl in Hlen; lia].
    simpl in *. exists start, old, c, theta.
    split; [exact Hstart|]. split; [reflexivity|].
    assert (Ec : c_interval c = cycle).
    { injection Hiv as ->. reflexivity. }
    split; [rewrite <- Ec; apply (Hy0 c []); reflexivity|].
    split.
    { apply Forall_inv in Huse. destruct Huse as (_ & _ & _ & _ & _ & Hne' & _).
      exact Hne'. }
    split; [exact Htheta|]. split; [exact Hvars|]. split; [exact Hw|].
    right. split; [exact Hno | exact Hdf].
Qed.

(** X22.  A passage after the first, on a record of the two populations
    whose last [TumourSize] is not zero: the last row of the record is
    overwritten with the seeding density [d] split by the quotient
    [f = R / TumourSize] of that row ([S = d * (1 - f)], [R = d * f],
    [TumourSize = S + R], which is [d]); time and drug level of the row
    stay.  The cycle that follows, when it does not start at time 0, makes
    one solver call that starts from these two values and the dose of the
    cycle, and appends its rows after the overwritten row. *)
Theorem passage_starts_from_seeding (self : ODEModel) (df : DataFrame)
    (t c S0 R0 T d : Q) (seeding_density : seeding) (cycle_id : nat)
    (cycle : interval) (solver_kws : kwargs) :
  stateVars self = ["S"; "R"]%string ->
  resultsDf self = Some (df ++ [Row t c [S0; R0] T]) ->
  ~ T == 0 ->
  curr_seeding_density seeding_density cycle_id = Ok (Density d) ->
  Qeq_bool (iv_start cycle) 0 = false ->
  exists self1 size,
    reseed self seeding_density cycle_id = Ok (Seeded self1) /\
    resultsDf self1
    = Some (df ++ [Row t c [d * (1 - R0 / T); d * (R0 / T)] size]) /\
    size = d * (1 - R0 / T) + d * (R0 / T) /\
    size == d /\
    forall self2 cs,
      Simulate_trace solve_ivp self1 [cycle] solver_kws = Ok (self2, cs) ->
      exists call block,
        cs = [call] /\
        c_y0 call = [d * (1 - R0 / T); d * (R0 / T); iv_dose cycle] /\
        resultsDf self2
        = Some ((df ++ [Row t c [d * (1 - R0 / T); d * (R0 / T)] size])
                ++ block).
Proof.
  intros Hv Hd HT Hc Hstart0.
  eexists. eexists. split; [apply (reseed_two _ _ _ _ _ _ _ _ _ _ Hv Hd Hc HT)|].
  split; [reflexivity|]. split; [reflexivity|].
  split; [field; exact HT|].
  intros self2 cs H.
  destruct (Simulate_trace_single _ _ _ _ _ H)
    as (start & old & call & theta & Hs & Hcs & Hy0 & _ & _ & _ & _ & Hend).
  unfold start_state in Hs. simpl in Hs. rewrite Hstart0 in Hs.
  rewrite py_last_app in Hs. cbn [bind] in Hs. simpl in Hs. rewrite Hv in Hs.
  simpl in Hs. injection Hs as <- <-.
  exists call.
  destruct Hend as [(_ & _ & Hdf) | (_ & Hdf)]; eexists;
    (split; [exact Hcs|]); (split; [rewrite Hy0; reflexivity|]);
    rewrite Hdf; reflexivity.
Qed.


Lemma reseed_PKill_off_drug (self : ODEModel) (seeding_density : seeding)
    (cycle_id : nat) (passaging_loss : Q) :
  reseed_PKill self seeding_density cycle_id passaging_loss false
  = reseed self seeding_density cycle_id.
Proof. reflexivity. Qed.

Lemma passages_PKill_off_drug (seeding_density : seeding)
    (passaging_loss : Q) (solver_kws : kwargs) :
  forall (cycles : list (nat * interval)) (self : ODEModel),
  Forall (fun ic => iv_dose (snd ic) <= 0) cycles ->
  passages_PKill solve_ivp self seeding_density passaging_loss solver_kws
    false cycles
  = passages solve_ivp self seeding_density solver_kws cycles.
Proof.
  induction cycles as [|[cycle_id cycle] rest IH]; intros self Hall;
    [reflexivity|].
  apply Forall_cons_iff in Hall. destruct Hall as [Hdose Hrest].
  simpl in Hdose. simpl. rewrite reseed_PKill_off_drug.
  destruct (if (0 <? cycle_id)%nat
            then reseed self seeding_density cycle_id
            else Ok (Seeded self)) as [[self1|]|e]; try reflexivity.
  cbn [bind].
  destruct (Simulate solve_ivp self1 [cycle] solver_kws) as [self2|e];
    [|reflexivity].
  cbn [bind]. rewrite (Qlt_bool_false _ _ Hdose). apply IH. exact Hrest.
Qed.

(** X23.  With no cycle on drug (no dose above zero),
    [Simulate_LongTermAssay_PKill] does what [Simulate_LongTermAssay] does,
    whatever the passaging loss. *)
Theorem PKill_without_drug (self : ODEModel)
    (treatment_schedule : list interval) (seeding_density : seeding)
    (passaging_loss : Q) (solver_kws : kwargs) :
  Forall (fun cycle => iv_dose cycle <= 0) treatment_schedule ->
  Simulate_LongTermAssay_PKill solve_ivp self treatment_schedule
    seeding_density passaging_loss solver_kws
  = Simulate_LongTermAssay solve_ivp self treatment_schedule seeding_density
      solver_kws.
Proof.
  intros Hall. unfold Simulate_LongTermAssay_PKill, Simulate_LongTermAssay.
  rewrite passages_PKill_off_drug; [reflexivity|].
  apply Forall_forall. intros ic Hic. apply enumerate_In in Hic.
  rewrite Forall_forall in Hall. apply Hall. exact Hic.
Qed.

Lemma last_of_size (self : ODEModel) (var : string) (x : Q) :
  last_of self var = Ok x -> exists size, last_size self = Ok size.
Proof.
  unfold last_of, last_size. intros H. bind_inv H df Hdf. bind_inv H i Hi.
  bind_inv H r Hr. rewrite Hdf. cbn [bind]. rewrite Hr. cbn [bind].
  eexists. reflexivity.
Qed.

(** X25.  A list as [seeding_density] that has one entry, or none, stops a
    run of more than one cycle at its first reseeding, in both assays: the
    list of one entry is taken whole and multiplied with a float of the
    record ([TypeError]); the empty list is indexed ([IndexError]). *)
Theorem seeding_list_raises (self self1 : ODEModel) (c0 c1 : interval)
    (rest : list interval) (solver_kws : kwargs) (x R0 passaging_loss : Q) :
  Simulate solve_ivp self [c0] solver_kws = Ok self1 ->
  last_of self1 "R" = Ok R0 ->
  Simulate_LongTermAssay solve_ivp self (c0 :: c1 :: rest) (Densities [x])
    solver_kws = Raise TypeError /\
  Simulate_LongTermAssay_PKill solve_ivp self (c0 :: c1 :: rest)
    (Densities [x]) passaging_loss solver_kws = Raise TypeError /\
  Simulate_LongTermAssay solve_ivp self (c0 :: c1 :: rest) (Densities [])
    solver_kws = Raise IndexError /\
  Simulate_LongTermAssay_PKill solve_ivp self (c0 :: c1 :: rest)
    (Densities []) passaging_loss solver_kws = Raise IndexError.
Proof.
  intros H1 HR. destruct (last_of_size _ _ _ HR) as [size Hsize].
  unfold Simulate_LongTermAssay, Simulate_LongTermAssay_PKill, enumerate.
  simpl. rewrite H1. cbn [bind].
  unfold reseed, reseed_PKill. simpl. rewrite HR, Hsize. cbn [bind].
  repeat split; reflexivity.
Qed.

(** X26.  The assays do not look at [successB]: after a cycle whose
    interval failed, the record ends in the zero row, and the next
    reseeding divides zero by zero: the values it writes to the record are
    no finite numbers. *)
Theorem failed_passage_not_finite (self self1 : ODEModel) (cycle : interval)
    (solver_kws : kwargs) (seeding_density : seeding) (cycle_id : nat)
    (d : Q) :
  stateVars self = ["S"; "R"]%string ->
  Simulate solve_ivp self [cycle] solver_kws = Ok self1 ->
  successB self1 = false ->
  curr_seeding_density seeding_density cycle_id = Ok (Density d) ->
  reseed self1 seeding_density cycle_id = Ok NotFinite.
Proof.
  intros Hv H Hno Hc. apply Simulate_Ok_trace in H. destruct H as [cs H].
  destruct (Simulate_trace_single _ _ _ _ _ H)
    as (start & old & call & theta & _ & _ & _ & Hne & _ & Hvars & Hw & Hend).
  destruct Hend as [(Hok & _) | (_ & Hdf)]; [congruence|].
  specialize (Hw _ _ Hdf eq_refl).
  destruct (exists_last Hne) as (g & tlast & Eg). rewrite Eg in Hdf, Hw.
  unfold zero_frame in Hdf, Hw.
  set (m := Nat.min _ _) in Hdf, Hw.
  rewrite !map_app in Hdf, Hw. cbn [map] in Hdf, Hw.
  apply Forall_app in Hw. destruct Hw as [_ Hw]. apply Forall_inv in Hw.
  unfold with_size in Hw, Hdf. cbn [vals sr_vals sr_Time sr_DrugConcentration] in Hw, Hdf.
  rewrite repeat_length, Hv in Hw. cbn [List.length] in Hw.
  clearbody m. subst m. cbn [repeat np_sum fold_right] in Hdf.
  rewrite app_assoc in Hdf. rewrite Hv in Hvars.
  match type of Hdf with
  | _ = Some (?df ++ [_]) =>
      destruct (last_of_two self1 df tlast 0 0 0 (theta * (0 + (0 + 0)))
                  Hvars Hdf) as (_ & HR & HT & HwS & _)
  end.
  unfold reseed. rewrite Hc. cbn [bind]. rewrite HR, HT. cbn [bind scaled].
  rewrite HwS. cbn [bind].
  assert (E : Qeq_bool (theta * (0 + (0 + 0))) 0 = true).
  { apply Qeq_bool_iff. ring. }
  rewrite E. reflexivity.
Qed.

End PassagingProperties.

(** X24.  Reseeding after a cycle on drug in [Simulate_LongTermAssay_PKill],
    on a record of the two populations whose last [TumourSize] is not zero:
    with [f = R / TumourSize] of the last row, the row gets
    [S = d * (1 - f) * (1 - passaging_loss)] and [R = d * f], and its
    [TumourSize], their sum, is [d * (1 - passaging_loss * (1 - f))]: the
    loss is taken from the sensitive cells alone, and the population is
    reseeded below the seeding density by that amount. *)
Theorem PKill_after_drug (self : ODEModel) (df : DataFrame)
    (t c S0 R0 T d passaging_loss : Q) (seeding_density : seeding)
    (cycle_id : nat) :
  stateVars self = ["S"; "R"]%string ->
  resultsDf self = Some (df ++ [Row t c [S0; R0] T]) ->
  ~ T == 0 ->
  curr_seeding_density seeding_density cycle_id = Ok (Density d) ->
  exists size,
    reseed_PKill self seeding_density cycle_id passaging_loss true
    = Ok (Seeded
            (set_resultsDf self
               (Some (df ++ [Row t c [d * (1 - R0 / T) * (1 - passaging_loss);
                                      d * (R0 / T)] size])))) /\
    size == d * (1 - passaging_loss * (1 - R0 / T)).
Proof.
  intros Hv Hd HT Hc. unfold reseed_PKill. rewrite Hc. cbn [bind].
  destruct (last_of_two self df t c S0 R0 T Hv Hd) as (_ & HR & HT' & HwS & _).
  rewrite HR, HT'. cbn [bind scaled]. rewrite HwS. cbn [bind].
  assert (E : Qeq_bool T 0 = false).
  { destruct (Qeq_bool T 0) eqn:E; [|reflexivity].
    apply Qeq_bool_iff in E. contradiction. }
  rewrite E.
  set (self1 := set_resultsDf self _).
  destruct (last_of_two self1 df t c (d * (1 - R0 / T)) R0 T Hv eq_refl)
    as (HS1 & _ & _ & HwS1 & _ & _).
  rewrite HS1. cbn [bind]. rewrite HwS1. cbn [bind]. subst self1.
  set (self2 := set_resultsDf _ _).
  destruct (last_of_two self2 df t c
              (d * (1 - R0 / T) * (1 - passaging_loss)) R0 T Hv eq_refl)
    as (_ & _ & _ & _ & HwR & _).
  rewrite HwR. cbn [bind]. subst self2.
  set (self3 := set_resultsDf _ _).
  destruct (last_of_two self3 df t c
              (d * (1 - R0 / T) * (1 - passaging_loss)) (d * (R0 / T)) T
              Hv eq_refl)
    as (HS3 & HR3 & _ & _ & _ & Hw3).
  rewrite HS3, HR3. cbn [bind]. rewrite Hw3.
  eexists. split; [reflexivity|]. field. exact HT.
Qed.

Lemma passage_starts_from_seeding_witness :
  exists self1 size,
    reseed stalled_instance (Density 500000) 1 = Ok (Seeded self1) /\
    resultsDf self1
    = Some ([] ++ [Row 0 100 [500000 * (1 - 1 / 100); 500000 * (1 / 100)]
                     size]) /\
    size = 500000 * (1 - 1 / 100) + 500000 * (1 / 100) /\
    size == 500000 /\
    forall self2 cs,
      Simulate_trace constant_solver self1 [Interval 1 2 0] no_kwargs
      = Ok (self2, cs) ->
      exists call block,
        cs = [call] /\
        c_y0 call = [500000 * (1 - 1 / 100); 500000 * (1 / 100); 0] /\
        resultsDf self2
        = Some (([] ++ [Row 0 100 [500000 * (1 - 1 / 100);
                                   500000 * (1 / 100)] size])
                ++ block).
Proof.
  apply (passage_starts_from_seeding constant_solver stalled_instance []
           0 100 99 1 100 500000 (Density 500000) 1 (Interval 1 2 0)
           no_kwargs).
  - reflexivity.
  - reflexivity.
  - discriminate.
  - reflexivity.
  - reflexivity.
Defined.

Lemma PKill_without_drug_witness :
  Simulate_LongTermAssay_PKill constant_solver example_instance
    [Interval 0 1 0; Interval 1 2 0] (Density 500000) (8 # 10) no_kwargs
  = Simulate_LongTermAssay constant_solver example_instance
      [Interval 0 1 0; Interval 1 2 0] (Density 500000) no_kwargs.
Proof.
  apply (PKill_without_drug constant_solver).
  repeat constructor; discriminate.
Defined.

Lemma PKill_after_drug_witness :
  exists size,
    reseed_PKill stalled_instance (Density 500000) 1 (8 # 10) true
    = Ok (Seeded
            (set_resultsDf stalled_instance
               (Some ([] ++ [Row 0 100
                               [500000 * (1 - 1 / 100) * (1 - (8 # 10));
                                500000 * (1 / 100)] size])))) /\
    size == 500000 * (1 - (8 # 10) * (1 - 1 / 100)).
Proof.
  apply (PKill_after_drug stalled_instance [] 0 100 99 1 100 500000 (8 # 10)
           (Density 500000) 1).
  - reflexivity.
  - reflexivity.
  - discriminate.
  - reflexivity.
Defined.

Lemma seeding_list_raises_witness :
  Simulate_LongTermAssay constant_solver example_instance three_passages
    (Densities [500000]) no_kwargs = Raise TypeError /\
  Simulate_LongTermAssay_PKill constant_solver example_instance three_passages
    (Densities [500000]) (8 # 10) no_kwargs = Raise TypeError /\
  Simulate_LongTermAssay constant_solver example_instance three_passages
    (Densities []) no_kwargs = Raise IndexError /\
  Simulate_LongTermAssay_PKill constant_solver example_instance three_passages
    (Densities []) (8 # 10) no_kwargs = Raise IndexError.
Proof.
  eassert (H : Simulate constant_solver example_instance [Interval 0 1 1]
                 no_kwargs = Ok ?[m]).
  { vm_compute. reflexivity. }
  apply (seeding_list_raises constant_solver example_instance _
           (Interval 0 1 1) (Interval 1 2 0) [Interval 2 3 0] no_kwargs
           500000 1 (8 # 10) H).
  reflexivity.
Defined.

Lemma failed_passage_not_finite_witness :
  exists self1,
    Simulate (diverging_from 0) example_instance [Interval 0 2 1] no_kwargs
    = Ok self1 /\
    successB self1 = false /\
    reseed self1 (Density 500000) 1 = Ok NotFinite.
Proof.
  eexists.
  eassert (H : Simulate (diverging_from 0) example_instance [Interval 0 2 1]
                 no_kwargs = Ok ?[m]).
  { vm_compute. reflexivity. }
  split; [exact H|]. split; [reflexivity|].
  apply (failed_passage_not_finite (diverging_from 0) example_instance _
           (Interval 0 2 1) no_kwargs (Density 500000) 1 500000 eq_refl H).
  - reflexivity.
  - reflexivity.
Defined.

(* ================================================================== *)
(** ** Negative values and the record *)

Lemma any_negative_false (ys : list (list Q)) :
  any_negative ys = false -> Forall (Forall (fun v => 0 <= v)) ys.
Proof.
  unfold any_negative. induction ys as [|r ys IH]; intros H; [constructor|].
  simpl in H. apply orb_false_iff in H. destruct H as [Hr Hys].
  constructor; [|apply IH; exact Hys].
  clear - Hr. induction r as [|v r IH]; [constructor|].
  simpl in Hr. apply orb_false_iff in Hr. destruct Hr as [Hv Hr].
  constructor; [apply Qlt_bool_false_iff; exact Hv | apply IH; exact Hr].
Qed.

Lemma clamp_nonneg (ys : list (list Q)) :
  Forall (Forall (fun v => 0 <= v)) (clamp ys).
Proof.
  unfold clamp. apply Forall_forall. intros r Hr. apply in_map_iff in Hr.
  destruct Hr as (r0 & <- & _). apply Forall_forall. intros v Hv.
  apply in_map_iff in Hv. destruct Hv as (v0 & <- & _).
  destruct (Qlt_bool v0 0) eqn:E; [apply Qle_refl|].
  apply Qlt_bool_false_iff. exact E.
Qed.

(** The solution that the driver keeps of an interval that did not fail
    holds no negative value. *)
Lemma kept_y_nonneg (stab : bool) (sol : OdeResult) :
  interval_failed stab sol = false ->
  Forall (Forall (fun v => 0 <= v)) (kept_y stab sol).
Proof.
  unfold interval_failed, kept_y. intros H.
  apply orb_false_iff in H. destruct H as [_ H].
  destruct (any_negative (y sol)) eqn:En.
  - destruct stab; [apply clamp_nonneg | discriminate].
  - apply any_negative_false. exact En.
Qed.

Lemma frame_rows_nonneg (grid : list Q) : forall drug cols,
  Forall (fun v => 0 <= v) drug ->
  Forall (Forall (fun v => 0 <= v)) cols ->
  Forall (fun r => Forall (fun v => 0 <= v) (sr_vals r) /\
                   0 <= sr_DrugConcentration r)
    (frame_rows grid drug cols).
Proof.
  induction grid as [|t grid IH]; intros drug cols Hd Hc; simpl; [constructor|].
  destruct drug as [|d drug]; [constructor|].
  apply Forall_cons_iff in Hd. destruct Hd as [Hd0 Hd].
  constructor.
  - simpl. split; [|exact Hd0].
    apply Forall_forall. intros v Hv. apply in_map_iff in Hv.
    destruct Hv as (col & <- & Hcol).
    rewrite Forall_forall in Hc. specialize (Hc col Hcol).
    destruct col as [|x col]; [apply Qle_refl|].
    apply Forall_inv in Hc. exact Hc.
  - apply IH; [exact Hd|].
    apply Forall_forall. intros col Hcol. apply in_map_iff in Hcol.
    destruct Hcol as (col0 & <- & Hcol0).
    rewrite Forall_forall in Hc. specialize (Hc col0 Hcol0).
    destruct col0 as [|x col0]; [constructor|].
    apply Forall_cons_iff in Hc. apply Hc.
Qed.

Lemma block_of_nonneg (vars : list string) (stab : bool) (theta : Q)
    (kept failing : list solver_call) :
  Forall (fun c => interval_failed stab (c_result c) = false) kept ->
  Forall (fun r => Forall (fun v => 0 <= v) (vals r) /\
                   0 <= DrugConcentration r)
    (block_of vars stab theta kept failing).
Proof.
  intros Hk. unfold block_of.
  assert (Hrows : forall rows,
            Forall (fun r => Forall (fun v => 0 <= v) (sr_vals r) /\
                             0 <= sr_DrugConcentration r) rows ->
            Forall (fun r => Forall (fun v => 0 <= v) (vals r) /\
                             0 <= DrugConcentration r)
              (map (with_size theta) rows)).
  { intros rows H. apply Forall_forall. intros r Hr. apply in_map_iff in Hr.
    destruct Hr as (sr & <- & Hsr). rewrite Forall_forall in H.
    exact (H sr Hsr). }
  assert (Hframes :
            Forall (fun r => Forall (fun v => 0 <= v) (sr_vals r) /\
                             0 <= sr_DrugConcentration r)
              (List.concat (map (call_frame vars stab) kept))).
  { apply Forall_concat. apply Forall_forall. intros fr Hfr.
    apply in_map_iff in Hfr. destruct Hfr as (c & <- & Hc).
    rewrite Forall_forall in Hk. specialize (Hk c Hc).
    pose proof (kept_y_nonneg stab (c_result c) Hk) as Hy.
    unfold call_frame. apply frame_rows_nonneg.
    - destruct (kept_y stab (c_result c)) as [|r ys] eqn:E; [constructor|].
      rewrite Forall_forall in Hy. apply Hy.
      destruct (@exists_last _ (r :: ys)) as (l' & x & El); [discriminate|].
      rewrite El, last_last. apply in_or_app. right. left. reflexivity.
    - apply Forall_firstn. exact Hy. }
  destruct kept as [|k kept].
  - destruct failing as [|f failing]; [apply Hrows; exact Hframes|].
    apply Hrows. unfold zero_frame. apply Forall_forall. intros r Hr.
    apply in_map_iff in Hr. destruct Hr as (t & <- & _). simpl.
    split; [|apply Qle_refl].
    apply Forall_forall. intros v Hv. apply repeat_spec in Hv. subst v.
    apply Qle_refl.
  - apply Hrows. exact Hframes.
Qed.

(** X5.  A negative value never reaches the record, whatever the solver
    returns.  A converged solution that holds a negative value is, with
    [numericalStabilisationB] on, kept with every negative entry replaced by
    zero, and with stabilisation on only non-convergence clears [successB];
    with it off, the call is the failing, last one, [successB] is false and
    its rows are not appended.  Either way every row appended holds
    non-negative state values and a non-negative drug level. *)
Theorem stabilisation_clamps_or_fails
    (solve_ivp : model_class * dict -> list Q -> Q * Q -> list Q ->
                 string -> Q -> Q -> ext -> result OdeResult)
    (self : ODEModel) (sched : list interval) (kw : kwargs)
    (self' : ODEModel) (cs : list solver_call) :
  Simulate_trace solve_ivp self sched kw = Ok (self', cs) ->
  let stab := numericalStabilisationB (config self') in
  exists start old kept failing theta,
    start_state (configure self kw) sched = Ok (start, old) /\
    cs = kept ++ failing /\
    resultsDf self'
    = Some (match old with Some prev => prev | None => [] end
            ++ block_of (stateVars self) stab theta kept failing) /\
    (forall c, In c cs ->
       success (c_result c) = true ->
       any_negative (y (c_result c)) = true ->
       (stab = true ->
        In c kept /\ kept_y stab (c_result c) = clamp (y (c_result c))) /\
       (stab = false -> failing = [c] /\ successB self' = false)) /\
    (stab = true ->
     (successB self' = true <->
      Forall (fun c => success (c_result c) = true) cs)) /\
    Forall (fun r => Forall (fun v => 0 <= v) (vals r) /\
                     0 <= DrugConcentration r)
      (block_of (stateVars self) stab theta kept failing).
Proof.
  intros H stab.
  destruct (Simulate_trace_Ok solve_ivp _ _ _ _ _ H)
    as (start & old & kept & failing & theta & Hstart & Hcs & Hkept & _ & _
        & _ & _ & _ & Hend & Hdf & _ & Hcfg & _).
  subst stab. rewrite Hcfg.
  set (stab := numericalStabilisationB (config (configure self kw))) in *.
  exists start, old, kept, failing, theta.
  split; [exact Hstart|]. split; [exact Hcs|]. split; [exact Hdf|].
  split; [|split].
  - intros c Hc Hsucc Hneg.
    assert (Hfail : interval_failed stab (c_result c) = negb stab).
    { unfold interval_failed. rewrite Hsucc, Hneg. reflexivity. }
    rewrite Hcs in Hc. apply in_app_or in Hc. split.
    + intros Hon. rewrite Hon in Hfail. split.
      * destruct Hc as [Hc|Hc]; [exact Hc|].
        destruct Hend as [(E & _) | (c' & E & Hf & _)]; rewrite E in Hc.
        -- contradiction.
        -- destruct Hc as [<-|[]]. rewrite Hon in Hf. simpl in Hfail. congruence.
      * unfold kept_y. rewrite Hneg, Hon. reflexivity.
    + intros Hoff. rewrite Hoff in Hfail. simpl in Hfail.
      destruct Hc as [Hc|Hc].
      * rewrite Forall_forall in Hkept. specialize (Hkept c Hc).
        rewrite Hoff in Hkept. congruence.
      * destruct Hend as [(E & _) | (c' & E & _ & Hno)]; rewrite E in Hc.
        -- contradiction.
        -- destruct Hc as [<-|[]]. split; [exact E | exact Hno].
  - intros Hon. split.
    + intros Hok.
      destruct Hend as [(E & _) | (c' & _ & _ & Hno)]; [|congruence].
      subst failing. rewrite app_nil_r in Hcs. subst kept.
      rewrite Forall_forall in Hkept |- *. intros c Hc.
      specialize (Hkept c Hc). unfold interval_failed in Hkept.
      apply orb_false_iff in Hkept. destruct Hkept as [Hs _].
      apply negb_false_iff. exact Hs.
    + intros Hall.
      destruct Hend as [(_ & _ & _ & Hok) | (c' & E & Hf & _)]; [exact Hok|].
      exfalso. rewrite Forall_forall in Hall.
      assert (Hin : In c' cs).
      { rewrite Hcs, E. apply in_or_app. right. left. reflexivity. }
      specialize (Hall c' Hin). unfold interval_failed in Hf.
      rewrite Hall, Hon, andb_false_r in Hf. discriminate.
  - apply block_of_nonneg. exact Hkept.
Qed.

Lemma stabilisation_clamps_or_fails_witness :
  exists self' cs,
    Simulate_trace dipping_solver example_instance [Interval 0 2 5]
      kw_stabilise = Ok (self', cs) /\
    numericalStabilisationB (config self') = true /\
    successB self' = true /\
    map (fun c => y (c_result c)) cs = [[[99; 99; -1]; [1; 1; 1]; [5; 5; 5]]] /\
    resultsDf self'
    = Some [Row 0 5 [99; 1] 100; Row 1 5 [99; 1] 100; Row 2 5 [0; 1] 1] /\
    exists start old kept failing theta,
      start_state (configure example_instance kw_stabilise) [Interval 0 2 5]
      = Ok (start, old) /\
      cs = kept ++ failing /\
      resultsDf self'
      = Some (match old with Some prev => prev | None => [] end
              ++ block_of (stateVars example_instance) true theta kept failing) /\
      (forall c, In c cs ->
         success (c_result c) = true ->
         any_negative (y (c_result c)) = true ->
         (true = true ->
          In c kept /\ kept_y true (c_result c) = clamp (y (c_result c))) /\
         (true = false -> failing = [c] /\ successB self' = false)) /\
      (true = true ->
       (successB self' = true <->
        Forall (fun c => success (c_result c) = true) cs)) /\
      Forall (fun r => Forall (fun v => 0 <= v) (vals r) /\
                       0 <= DrugConcentration r)
        (block_of (stateVars example_instance) true theta kept failing).
Proof.
  eexists. eexists.
  eassert (H : Simulate_trace dipping_solver example_instance [Interval 0 2 5]
                 kw_stabilise = Ok (?[m], ?[cs])).
  { vm_compute. reflexivity. }
  split; [exact H|]. split; [reflexivity|]. split; [reflexivity|].
  split; [reflexivity|]. split; [reflexivity|].
  exact (stabilisation_clamps_or_fails _ _ _ _ _ _ H).
Defined.

(* ================================================================== *)
(** ** The guard of the final grid *)





(** The grid of the driver is the grid of lines 72-78 in exact arithmetic. *)
Lemma time_grid_exact (dt : Q) (i n : nat) (iv : interval) :
  time_grid dt i n iv = time_grid_of arange Qplus dt i n iv.
Proof. reflexivity. Qed.


